(** * Modbus TCP client: wire codec, session exchange, batch executor, pool

    A shallow embedding of [modbus.go].  Bytes and 16-bit words are [Z] with
    the wrap-around of Go's [byte] and [uint16] written out, byte slices are
    lists updated by index, a run-time panic (index or slice out of range,
    send on a closed channel) is an outcome of its own, and the [net.Conn] a
    client owns is a small transport model that records every call made on
    it. *)

From Stdlib Require Import ZArith List String Ascii Lia Bool ZifyNat.
From stdpp Require Import base option list gmap strings.

Local Open Scope Z_scope.

(** ** Function codes and exception codes *)

Definition FuncCodeReadCoils : Z := 0x01.
Definition FuncCodeReadDiscreteInputs : Z := 0x02.
Definition FuncCodeReadHoldingRegisters : Z := 0x03.
Definition FuncCodeReadInputRegisters : Z := 0x04.
Definition FuncCodeWriteSingleCoil : Z := 0x05.
Definition FuncCodeWriteSingleRegister : Z := 0x06.
Definition FuncCodeWriteMultipleCoils : Z := 0x0F.
Definition FuncCodeWriteMultipleRegisters : Z := 0x10.

Definition ExceptionIllegalFunction : Z := 0x01.
Definition ExceptionIllegalDataAddress : Z := 0x02.
Definition ExceptionIllegalDataValue : Z := 0x03.
Definition ExceptionSlaveDeviceFailure : Z := 0x04.

(** ** Machine integers and byte buffers *)

Module Wire.

(** Conversions [byte(x)] and [uint16(x)] of a non-negative integer. *)
Definition byte_of (x : Z) : Z := x mod 256.
Definition uint16_of (x : Z) : Z := x mod 65536.

Definition is_byte (x : Z) : Prop := 0 <= x < 256.
Definition is_uint16 (x : Z) : Prop := 0 <= x < 65536.

(** [make([]byte, n)]: a zeroed buffer. *)
Definition make (n : nat) : list Z := replicate n 0.

(** [b[i] = v]; [None] is the index-out-of-range panic. *)
Definition store (b : list Z) (i : nat) (v : Z) : option (list Z) :=
  if decide (i < length b)%nat then Some (<[i := v]> b) else None.

(** [binary.BigEndian.PutUint16(b[off:off+2], v)]. *)
Definition PutUint16 (b : list Z) (off : nat) (v : Z) : option (list Z) :=
  if decide (off + 2 <= length b)%nat
  then Some (<[S off := byte_of v]> (<[off := byte_of (Z.shiftr v 8)]> b))
  else None.

(** [binary.BigEndian.Uint16(b[off:off+2])]. *)
Definition Uint16 (b : list Z) (off : nat) : option Z :=
  b0 ← b !! off;
  b1 ← b !! S off;
  Some (Z.lor b1 (Z.shiftl b0 8)).

End Wire.

Import Wire.

(** ** Errors and outcomes *)

(** One constructor per error value the package builds. *)
Inductive error : Type :=
  | ErrInvalidQuantity (quantity lo hi : Z)
  | ErrDeadline
  | ErrSendRequest
  | ErrReadHeader
  | ErrTransactionMismatch (expected got : Z)
  | ErrReadData
  | ModbusError (FunctionCode ExceptionCode : Z)
  | ErrInvalidResponseLength
  | ErrResponseLengthMismatch
  | ErrInvalidResponse
  | ErrInvalidValuesType (operation : string)
  | ErrUnknownOperation (operation : string)
  | ErrConnect
  | ErrCreateConnection (i : Z)
  | ErrWaitTimeout.

(** The five error kinds of the design, and the kind of each error value. *)
Inductive error_kind : Type :=
  | InvalidArgument
  | Transport
  | CorrelationMismatch
  | MalformedResponse
  | ProtocolException.

Definition kind_of (e : error) : error_kind :=
  match e with
  | ErrInvalidQuantity _ _ _ => InvalidArgument
  | ErrInvalidValuesType _ => InvalidArgument
  | ErrUnknownOperation _ => InvalidArgument
  | ErrDeadline => Transport
  | ErrSendRequest => Transport
  | ErrReadHeader => Transport
  | ErrReadData => Transport
  | ErrConnect => Transport
  | ErrCreateConnection _ => Transport
  | ErrWaitTimeout => Transport
  | ErrTransactionMismatch _ _ => CorrelationMismatch
  | ErrInvalidResponseLength => MalformedResponse
  | ErrResponseLengthMismatch => MalformedResponse
  | ErrInvalidResponse => MalformedResponse
  | ModbusError _ _ => ProtocolException
  end.

(** What a call does: return a value, return an error, or panic. *)
Inductive outcome (A : Type) : Type :=
  | Ok (a : A)
  | Err (e : error)
  | Panic.

Arguments Ok {A} a.
Arguments Err {A} e.
Arguments Panic {A}.

(** ** The transport *)

(** Calls made on the connection, oldest first. *)
Inductive io_event : Type :=
  | EvSetWriteDeadline
  | EvWrite (b : list Z)
  | EvSetReadDeadline
  | EvRead (n : nat)
  | EvClose.

(** A [net.Conn].  [incoming] holds the segments the peer delivers, in
    order: one [Read] returns bytes of the first segment only, at most as
    many as the buffer holds, and leaves the rest of it for the next [Read].
    With nothing left to deliver the read deadline expires. *)
Record Conn : Type := mkConn {
  incoming : list (list Z);
  closed : bool;
  trace : list io_event
}.

Definition log (ev : io_event) (k : Conn) : Conn :=
  mkConn (incoming k) (closed k) (trace k ++ [ev]).

(** Each method returns the connection and whether the call succeeded.  A
    connection is open or has been closed on this side: every call on a
    closed one fails, and on an open one the deadlines are set and the
    write is taken.  A connection the peer has reset, on which [Write]
    alone fails, is not among these states. *)
Definition conn_SetWriteDeadline (k : Conn) : Conn * bool :=
  (log EvSetWriteDeadline k, negb (closed k)).

Definition conn_SetReadDeadline (k : Conn) : Conn * bool :=
  (log EvSetReadDeadline k, negb (closed k)).

Definition conn_Write (b : list Z) (k : Conn) : Conn * bool :=
  (log (EvWrite b) k, negb (closed k)).

(** [Read(buf)] with [len(buf) = n]: the bytes copied into the front of
    [buf], and whether [err == nil]. *)
Definition conn_Read (n : nat) (k : Conn) : Conn * (list Z * bool) :=
  let k' := log (EvRead n) k in
  if closed k then (k', ([], false))
  else if decide (n = 0%nat) then (k', ([], true))
  else match incoming k with
       | [] => (k', ([], false))
       | seg :: rest =>
           let rest' := match drop n seg with
                        | [] => rest
                        | more => more :: rest
                        end in
           (mkConn rest' (closed k') (trace k'), (take n seg, true))
       end.

Definition conn_Close (k : Conn) : Conn * bool :=
  (mkConn (incoming k) true (trace k ++ [EvClose]), negb (closed k)).

(** The frames written so far. *)
Definition written (k : Conn) : list (list Z) :=
  omap (fun ev => match ev with EvWrite b => Some b | _ => None end) (trace k).

(** The buffer [buf] of [n] zero bytes after a [Read] copied [got] into it. *)
Definition filled (n : nat) (got : list Z) : list Z :=
  take n (got ++ make n).

(** ** The client *)

Record Client : Type := mkClient {
  conn : Conn;
  transactionID : Z
}.

(** Methods of [*Client]: the client is threaded through, the result is an
    [outcome]. *)
Definition M (A : Type) : Type := Client -> Client * outcome A.

#[global] Instance M_ret : MRet M := fun A a c => (c, Ok a).
#[global] Instance M_bind : MBind M := fun A B f m c =>
  match m c with
  | (c', Ok a) => f a c'
  | (c', Err e) => (c', Err e)
  | (c', Panic) => (c', Panic)
  end.

Definition fail {A} (e : error) : M A := fun c => (c, Err e).
Definition panic {A} : M A := fun c => (c, Panic).

(** A buffer operation that may panic. *)
Definition checked {A} (o : option A) : M A :=
  match o with Some a => mret a | None => panic end.

(** A call on [c.conn]. *)
Definition on_conn {A} (f : Conn -> Conn * A) : M A := fun c =>
  let '(k, a) := f (conn c) in (mkClient k (transactionID c), Ok a).

(** [c.transactionID++], yielding the new value. *)
Definition next_transactionID : M Z := fun c =>
  let tid := uint16_of (transactionID c + 1) in
  (mkClient (conn c) tid, Ok tid).

(** [if cond { return nil, err }]. *)
Definition reject_if (cond : bool) (e : error) : M unit :=
  if cond then fail e else mret tt.

(** The MBAP header of [sendRequest]. *)
Definition mbap (tid slaveID : Z) (pdu : list Z) : option (list Z) :=
  b ← PutUint16 (make 7) 0 tid;
  b ← PutUint16 b 2 0;
  b ← PutUint16 b 4 (uint16_of (Z.of_nat (length pdu) + 1));
  store b 6 slaveID.

(** [binary.BigEndian.Uint16(header[4:6]) - 1] in [uint16]. *)
Definition dataLength (header : list Z) : option Z :=
  l ← Uint16 header 4; Some (uint16_of (l - 1)).

(** [sendRequest]: frame the PDU, write it, read the header and the body. *)
Definition sendRequest (slaveID : Z) (pdu : list Z) : M (list Z) :=
  tid ← next_transactionID;
  header ← checked (mbap tid slaveID pdu);
  let request := header ++ pdu in
  ok ← on_conn conn_SetWriteDeadline;
  reject_if (negb ok) ErrDeadline;;
  ok ← on_conn (conn_Write request);
  reject_if (negb ok) ErrSendRequest;;
  ok ← on_conn conn_SetReadDeadline;
  reject_if (negb ok) ErrDeadline;;
  r ← on_conn (conn_Read 7);
  reject_if (negb r.2) ErrReadHeader;;
  let header := filled 7 r.1 in
  respTransactionID ← checked (Uint16 header 0);
  reject_if (negb (respTransactionID =? tid))
            (ErrTransactionMismatch tid respTransactionID);;
  n ← checked (dataLength header);
  r ← on_conn (conn_Read (Z.to_nat n));
  reject_if (negb r.2) ErrReadData;;
  let data := filled (Z.to_nat n) r.1 in
  match data with
  | d0 :: d1 :: _ =>
      if 0x80 <=? d0
      then fail (ModbusError (Z.land d0 0x7F) d1)
      else mret data
  | _ => mret data
  end.

(** ** Typed operations *)

(** The five-byte PDU of the reads and the single writes: function code,
    address, then quantity or value. *)
Definition request_pdu (fc address word : Z) : option (list Z) :=
  b ← store (make 5) 0 fc;
  b ← PutUint16 b 1 address;
  PutUint16 b 3 word.

(** [coils[i] = (response[2+i/8] & (1 << (i%8))) != 0] for [i < quantity]. *)
Definition coil_at (response : list Z) (i : nat) : option bool :=
  b ← response !! (2 + i / 8)%nat;
  Some (negb (Z.land b (byte_of (Z.shiftl 1 (Z.of_nat (i mod 8)))) =? 0)).

Definition unpack_coils (response : list Z) (quantity : nat) : option (list bool) :=
  mapM (coil_at response) (seq 0 quantity).

(** [registers[i] = binary.BigEndian.Uint16(response[2+i*2 : 4+i*2])]. *)
Definition unpack_registers (response : list Z) (quantity : nat) : option (list Z) :=
  mapM (fun i => Uint16 response (2 + i * 2)) (seq 0 quantity).

Definition ReadCoils (slaveID address quantity : Z) : M (list bool) :=
  reject_if ((quantity =? 0) || (2000 <? quantity))
            (ErrInvalidQuantity quantity 1 2000);;
  pdu ← checked (request_pdu FuncCodeReadCoils address quantity);
  response ← sendRequest slaveID pdu;
  reject_if (Z.of_nat (length response) <? 2) ErrInvalidResponseLength;;
  byteCount ← checked (response !! 1%nat);
  reject_if (negb (Z.of_nat (length response) =? byte_of (2 + byteCount)))
            ErrResponseLengthMismatch;;
  checked (unpack_coils response (Z.to_nat quantity)).

(** The body shared, line for line, by [ReadHoldingRegisters] and
    [ReadInputRegisters]. *)
Definition read_registers (fc slaveID address quantity : Z) : M (list Z) :=
  reject_if ((quantity =? 0) || (125 <? quantity))
            (ErrInvalidQuantity quantity 1 125);;
  pdu ← checked (request_pdu fc address quantity);
  response ← sendRequest slaveID pdu;
  reject_if (Z.of_nat (length response) <? 2) ErrInvalidResponseLength;;
  byteCount ← checked (response !! 1%nat);
  let expectedLength := uint16_of (quantity * 2) in
  reject_if (negb (byteCount =? byte_of expectedLength)
             || negb (Z.of_nat (length response) =? byte_of (2 + byteCount)))
            ErrResponseLengthMismatch;;
  checked (unpack_registers response (Z.to_nat quantity)).

Definition ReadHoldingRegisters : Z -> Z -> Z -> M (list Z) :=
  read_registers FuncCodeReadHoldingRegisters.

Definition ReadInputRegisters : Z -> Z -> Z -> M (list Z) :=
  read_registers FuncCodeReadInputRegisters.

(** [len(response) != 5 || response[0] != fc]: the check every write makes
    on the echoed response. *)
Definition echo_rejected (fc : Z) (response : list Z) : bool :=
  negb (Z.of_nat (length response) =? 5)
  || match response with
     | r0 :: _ => negb (r0 =? fc)
     | [] => true
     end.

Definition WriteSingleCoil (slaveID address : Z) (value : bool) : M unit :=
  pdu ← checked (request_pdu FuncCodeWriteSingleCoil address
                             (if value then 0xFF00 else 0x0000));
  response ← sendRequest slaveID pdu;
  reject_if (echo_rejected FuncCodeWriteSingleCoil response) ErrInvalidResponse.

Definition WriteSingleRegister (slaveID address value : Z) : M unit :=
  pdu ← checked (request_pdu FuncCodeWriteSingleRegister address value);
  response ← sendRequest slaveID pdu;
  reject_if (echo_rejected FuncCodeWriteSingleRegister response) ErrInvalidResponse.

(** The first six bytes of a multiple write, in a buffer of [6+byteCount]. *)
Definition write_header (fc address quantity byteCount : Z) : option (list Z) :=
  b ← store (make (Z.to_nat (uint16_of (6 + byteCount)))) 0 fc;
  b ← PutUint16 b 1 address;
  b ← PutUint16 b 3 quantity;
  store b 5 (byte_of byteCount).

(** [for i, value := range values { if value { pdu[base+i/8] |= 1 << (i%8) } }],
    from index [i] on. *)
Fixpoint pack_coils (pdu : list Z) (base i : nat) (values : list bool)
  : option (list Z) :=
  match values with
  | [] => Some pdu
  | value :: rest =>
      pdu' ← (if value
              then b ← pdu !! (base + i / 8)%nat;
                   store pdu (base + i / 8)
                         (Z.lor b (byte_of (Z.shiftl 1 (Z.of_nat (i mod 8)))))
              else Some pdu);
      pack_coils pdu' base (S i) rest
  end.

(** [for i, value := range values { PutUint16(pdu[6+i*2:8+i*2], value) }]. *)
Fixpoint pack_registers (pdu : list Z) (i : nat) (values : list Z)
  : option (list Z) :=
  match values with
  | [] => Some pdu
  | value :: rest =>
      pdu' ← PutUint16 pdu (6 + i * 2) value;
      pack_registers pdu' (S i) rest
  end.

Definition WriteMultipleCoils_pdu (address : Z) (values : list bool)
  : option (list Z) :=
  let quantity := uint16_of (Z.of_nat (length values)) in
  let byteCount := uint16_of (quantity + 7) / 8 in
  pdu ← write_header FuncCodeWriteMultipleCoils address quantity byteCount;
  pack_coils pdu 6 0 values.

Definition WriteMultipleCoils (slaveID address : Z) (values : list bool) : M unit :=
  let quantity := uint16_of (Z.of_nat (length values)) in
  reject_if ((quantity =? 0) || (1968 <? quantity))
            (ErrInvalidQuantity quantity 1 1968);;
  pdu ← checked (WriteMultipleCoils_pdu address values);
  response ← sendRequest slaveID pdu;
  reject_if (echo_rejected FuncCodeWriteMultipleCoils response) ErrInvalidResponse.

Definition WriteMultipleRegisters_pdu (address : Z) (values : list Z)
  : option (list Z) :=
  let quantity := uint16_of (Z.of_nat (length values)) in
  let byteCount := uint16_of (quantity * 2) in
  pdu ← write_header FuncCodeWriteMultipleRegisters address quantity byteCount;
  pack_registers pdu 0 values.

Definition WriteMultipleRegisters (slaveID address : Z) (values : list Z) : M unit :=
  let quantity := uint16_of (Z.of_nat (length values)) in
  reject_if ((quantity =? 0) || (123 <? quantity))
            (ErrInvalidQuantity quantity 1 123);;
  pdu ← checked (WriteMultipleRegisters_pdu address values);
  response ← sendRequest slaveID pdu;
  reject_if (echo_rejected FuncCodeWriteMultipleRegisters response)
            ErrInvalidResponse.

(** ** Batch execution *)

(** The dynamic value of an [interface{}] field. *)
Inductive values : Type :=
  | VNil
  | VBools (l : list bool)
  | VUint16s (l : list Z)
  | VOther.

Record BatchOperation : Type := mkBatchOperation {
  Operation : string;
  SlaveID : Z;
  Address : Z;
  Values : values;
  Quantity : Z
}.

Record BatchResult : Type := mkBatchResult {
  ResOperation : string;
  ResValues : values;
  ResError : option error
}.

(** [values, err := call; result.Values = values; result.Error = err]: an
    error is stored with the nil slice the call returned, a panic is not
    caught. *)
Definition stored {A} (op : string) (wrap : list A -> values) (m : M (list A))
  : M BatchResult := fun c =>
  match m c with
  | (c', Ok v) => (c', Ok (mkBatchResult op (wrap v) None))
  | (c', Err e) => (c', Ok (mkBatchResult op (wrap []) (Some e)))
  | (c', Panic) => (c', Panic)
  end.

(** [result.Error = call]. *)
Definition stored_error (op : string) (m : M unit) : M BatchResult := fun c =>
  match m c with
  | (c', Ok _) => (c', Ok (mkBatchResult op VNil None))
  | (c', Err e) => (c', Ok (mkBatchResult op VNil (Some e)))
  | (c', Panic) => (c', Panic)
  end.

(** One iteration of the loop of [ExecuteBatch]. *)
Definition execute_one (op : BatchOperation) : M BatchResult :=
  let name := Operation op in
  if String.eqb name "read_coils" then
    stored name VBools (ReadCoils (SlaveID op) (Address op) (Quantity op))
  else if String.eqb name "read_holding" then
    stored name VUint16s (ReadHoldingRegisters (SlaveID op) (Address op) (Quantity op))
  else if String.eqb name "read_input" then
    stored name VUint16s (ReadInputRegisters (SlaveID op) (Address op) (Quantity op))
  else if String.eqb name "write_coils" then
    match Values op with
    | VBools coils =>
        stored_error name (WriteMultipleCoils (SlaveID op) (Address op) coils)
    | _ => mret (mkBatchResult name VNil (Some (ErrInvalidValuesType name)))
    end
  else if String.eqb name "write_registers" then
    match Values op with
    | VUint16s registers =>
        stored_error name (WriteMultipleRegisters (SlaveID op) (Address op) registers)
    | _ => mret (mkBatchResult name VNil (Some (ErrInvalidValuesType name)))
    end
  else mret (mkBatchResult name VNil (Some (ErrUnknownOperation name))).

Fixpoint ExecuteBatch (operations : list BatchOperation) : M (list BatchResult) :=
  match operations with
  | [] => mret []
  | op :: rest =>
      result ← execute_one op;
      results ← ExecuteBatch rest;
      mret (result :: results)
  end.

(** ** The connection pool *)

(** A [*Client]: [None] is nil, [Some a] the client at address [a]. *)
Definition ptr : Type := option nat.

(** The clients in existence, by address, and what each coming
    [net.DialTimeout] will answer ([None], or none left: the dial fails). *)
Record World : Type := mkWorld {
  heap : list Client;
  dials : list (option Conn)
}.

(** The buffered channel [pool] with its capacity, and [maxConn]. *)
Record ConnectionPool : Type := mkPool {
  pool : list ptr;
  pool_cap : nat;
  pool_closed : bool;
  maxConn : Z
}.

(** Methods of [*ConnectionPool]. *)
Definition P (A : Type) : Type :=
  ConnectionPool -> World -> ConnectionPool * World * outcome A.

(** [NewClient]: dial, and allocate the client. *)
Definition NewClient (w : World) : World * outcome ptr :=
  match dials w with
  | Some k :: ds =>
      (mkWorld (heap w ++ [mkClient k 0]) ds, Ok (Some (length (heap w))))
  | None :: ds => (mkWorld (heap w) ds, Err ErrConnect)
  | [] => (w, Err ErrConnect)
  end.

(** [client.Close()]; [None] is the nil dereference. *)
Definition Client_Close (client : ptr) (w : World) : option World :=
  a ← client;
  c ← heap w !! a;
  Some (mkWorld (<[a := mkClient (conn_Close (conn c)).1 (transactionID c)]> (heap w))
                (dials w)).

(** [for client := range p.pool { client.Close() }] over the buffered
    clients, each received before it is closed: the clients left in the
    channel and the world when the loop ends, which at a nil client it does
    by a panic, the clients behind it still buffered. *)
Fixpoint close_all (clients : list ptr) (w : World)
  : list ptr * World * outcome unit :=
  match clients with
  | [] => ([], w, Ok tt)
  | client :: rest =>
      match Client_Close client w with
      | Some w' => close_all rest w'
      | None => (rest, w, Panic)
      end
  end.

(** [Close] of the pool: closing a closed channel panics. *)
Definition Pool_Close : P unit := fun p w =>
  if pool_closed p then (p, w, Panic)
  else
    let '(rest, w', o) := close_all (pool p) w in
    (mkPool rest (pool_cap p) true (maxConn p), w', o).

(** [Get]: a buffered client if there is one; on a closed and drained
    channel the receive yields nil; otherwise the wait times out. *)
Definition Get : P ptr := fun p w =>
  match pool p with
  | client :: rest =>
      (mkPool rest (pool_cap p) (pool_closed p) (maxConn p), w, Ok client)
  | [] =>
      if pool_closed p then (p, w, Ok None) else (p, w, Err ErrWaitTimeout)
  end.

(** [Put]: the send is taken when the buffer has room, otherwise the
    default case closes the client; a send on a closed channel panics. *)
Definition Put (client : ptr) : P unit := fun p w =>
  if pool_closed p then (p, w, Panic)
  else if decide (length (pool p) < pool_cap p)%nat
  then (mkPool (pool p ++ [client]) (pool_cap p) (pool_closed p) (maxConn p),
        w, Ok tt)
  else match Client_Close client w with
       | Some w' => (p, w', Ok tt)
       | None => (p, w, Panic)
       end.

(** The loop of [NewConnectionPool], with [n] connections still to create
    after the [i] created so far. *)
Fixpoint create_connections (n : nat) (i : Z) : P unit := fun p w =>
  match n with
  | O => (p, w, Ok tt)
  | S n' =>
      match NewClient w with
      | (w', Ok client) =>
          create_connections n' (i + 1)
            (mkPool (pool p ++ [client]) (pool_cap p) (pool_closed p) (maxConn p))
            w'
      | (w', Err _) =>
          match Pool_Close p w' with
          | (p', w'', Panic) => (p', w'', Panic)
          | (p', w'', _) => (p', w'', Err (ErrCreateConnection i))
          end
      | (w', Panic) => (p, w', Panic)
      end
  end.

Definition NewConnectionPool (maxConnections : Z) (w : World)
  : World * outcome ConnectionPool :=
  let maxConnections := if maxConnections <=? 0 then 10 else maxConnections in
  let p := mkPool [] (Z.to_nat maxConnections) false maxConnections in
  match create_connections (Z.to_nat maxConnections) 0 p w with
  | (p', w', Ok _) => (w', Ok p')
  | (_, w', Err e) => (w', Err e)
  | (_, w', Panic) => (w', Panic)
  end.

(** One call on a pool by any of its users.  The channel operations are
    atomic, so the states a pool shared by concurrent callers can reach are
    those reached by the calls in some order. *)
Inductive pool_step : ConnectionPool * World -> ConnectionPool * World -> Prop :=
  | step_Get p w p' w' o :
      Get p w = (p', w', o) -> pool_step (p, w) (p', w')
  | step_Put client p w p' w' o :
      Put client p w = (p', w', o) -> pool_step (p, w) (p', w')
  | step_Close p w p' w' o :
      Pool_Close p w = (p', w', o) -> pool_step (p, w) (p', w').

(** ** Vocabulary of the statements *)

(** The frame [sendRequest] writes for a PDU: the seven header bytes the
    [PutUint16] calls of [mbap] leave in the buffer, then the PDU. *)
Definition frame (tid slaveID : Z) (pdu : list Z) : list Z :=
  [byte_of (Z.shiftr tid 8); byte_of tid; 0; 0;
   byte_of (Z.shiftr (uint16_of (Z.of_nat (length pdu) + 1)) 8);
   byte_of (uint16_of (Z.of_nat (length pdu) + 1)); slaveID] ++ pdu.

(** The connection once [sendRequest] has written its frame and set the
    read deadline. *)
Definition sent (tid slaveID : Z) (pdu : list Z) (k : Conn) : Conn :=
  log EvSetReadDeadline
      (log (EvWrite (frame tid slaveID pdu)) (log EvSetWriteDeadline k)).

(** The second half of [sendRequest], from the read of the header on. *)
Definition receive (tid : Z) : M (list Z) :=
  r ← on_conn (conn_Read 7);
  reject_if (negb r.2) ErrReadHeader;;
  let header := filled 7 r.1 in
  respTransactionID ← checked (Uint16 header 0);
  reject_if (negb (respTransactionID =? tid))
            (ErrTransactionMismatch tid respTransactionID);;
  n ← checked (dataLength header);
  r ← on_conn (conn_Read (Z.to_nat n));
  reject_if (negb r.2) ErrReadData;;
  let data := filled (Z.to_nat n) r.1 in
  match data with
  | d0 :: d1 :: _ =>
      if 0x80 <=? d0
      then fail (ModbusError (Z.land d0 0x7F) d1)
      else mret data
  | _ => mret data
  end.

(** The header a device puts before the response PDU [body]. *)
Definition response_header (tid unitID : Z) (body : list Z) : list Z :=
  let len := Z.of_nat (length body) + 1 in
  [byte_of (Z.shiftr tid 8); byte_of tid; 0; 0;
   byte_of (Z.shiftr len 8); byte_of len; unitID].

(** What the exchange makes of a response PDU that arrived whole. *)
Definition decoded (body : list Z) : outcome (list Z) :=
  match body with
  | d0 :: d1 :: _ =>
      if 0x80 <=? d0 then Err (ModbusError (Z.land d0 0x7F) d1) else Ok body
  | _ => Ok body
  end.

(** Computations that leave the client, and so its connection, untouched. *)
Definition pure_M {A} (m : M A) : Prop := forall c, (m c).1 = c.

(** A call that got past argument validation: it went on to the exchange
    (its first call on the connection is there) and whatever error it
    returns is not an Invalid-Argument error. *)
Definition accepted {A} (c : Client) (r : Client * outcome A) : Prop :=
  (exists evs, trace (conn r.1) = trace (conn c) ++ EvSetWriteDeadline :: evs)
  /\ (forall e, r.2 = Err e -> kind_of e <> InvalidArgument).

(** A call refused before any I/O: the client, with the record of the calls
    made on its connection, is as it was. *)
Definition rejected {A} (c : Client) (r : Client * outcome A) : Prop :=
  r.1 = c /\ exists e, r.2 = Err e /\ kind_of e = InvalidArgument.

(** Bit [n] of the bit array stored from byte [base] of [buf] on: byte
    [n / 8] of the array, bit position [n mod 8], least significant first. *)
Definition bit_at (buf : list Z) (base n : nat) : bool :=
  match buf !! (base + n / 8)%nat with
  | Some b => Z.testbit b (Z.of_nat (n mod 8))
  | None => false
  end.

(** The bytes of a register array: each word high byte first. *)
Definition register_bytes (values : list Z) : list Z :=
  flat_map (fun v => [byte_of (Z.shiftr v 8); byte_of v]) values.

(** The typed operations a client offers, as calls with their arguments:
    one constructor per exported method of the client that performs an
    exchange. *)
Inductive call : Type :=
  | CallReadCoils (address quantity : Z)
  | CallReadHoldingRegisters (address quantity : Z)
  | CallReadInputRegisters (address quantity : Z)
  | CallWriteSingleCoil (address : Z) (value : bool)
  | CallWriteSingleRegister (address value : Z)
  | CallWriteMultipleCoils (address : Z) (coils : list bool)
  | CallWriteMultipleRegisters (address : Z) (registers : list Z).

(** Making the call, with the typed result as a [values]. *)
Definition run_call (slaveID : Z) (k : call) : M values :=
  match k with
  | CallReadCoils a q => v ← ReadCoils slaveID a q; mret (VBools v)
  | CallReadHoldingRegisters a q =>
      v ← ReadHoldingRegisters slaveID a q; mret (VUint16s v)
  | CallReadInputRegisters a q =>
      v ← ReadInputRegisters slaveID a q; mret (VUint16s v)
  | CallWriteSingleCoil a v => WriteSingleCoil slaveID a v;; mret VNil
  | CallWriteSingleRegister a v => WriteSingleRegister slaveID a v;; mret VNil
  | CallWriteMultipleCoils a vs => WriteMultipleCoils slaveID a vs;; mret VNil
  | CallWriteMultipleRegisters a vs =>
      WriteMultipleRegisters slaveID a vs;; mret VNil
  end.

(** The function code the method of a call stores in [pdu[0]]. *)
Definition call_code (k : call) : Z :=
  match k with
  | CallReadCoils _ _ => FuncCodeReadCoils
  | CallReadHoldingRegisters _ _ => FuncCodeReadHoldingRegisters
  | CallReadInputRegisters _ _ => FuncCodeReadInputRegisters
  | CallWriteSingleCoil _ _ => FuncCodeWriteSingleCoil
  | CallWriteSingleRegister _ _ => FuncCodeWriteSingleRegister
  | CallWriteMultipleCoils _ _ => FuncCodeWriteMultipleCoils
  | CallWriteMultipleRegisters _ _ => FuncCodeWriteMultipleRegisters
  end.

(** The request PDU the method of a call builds. *)
Definition call_request (k : call) : option (list Z) :=
  match k with
  | CallReadCoils a q => request_pdu FuncCodeReadCoils a q
  | CallReadHoldingRegisters a q => request_pdu FuncCodeReadHoldingRegisters a q
  | CallReadInputRegisters a q => request_pdu FuncCodeReadInputRegisters a q
  | CallWriteSingleCoil a v =>
      request_pdu FuncCodeWriteSingleCoil a (if v then 0xFF00 else 0x0000)
  | CallWriteSingleRegister a v => request_pdu FuncCodeWriteSingleRegister a v
  | CallWriteMultipleCoils a vs => WriteMultipleCoils_pdu a vs
  | CallWriteMultipleRegisters a vs => WriteMultipleRegisters_pdu a vs
  end.

(** The arguments of a call are within the limits of its method. *)
Definition call_valid (k : call) : Prop :=
  match k with
  | CallReadCoils _ q => 1 <= q <= 2000
  | CallReadHoldingRegisters _ q | CallReadInputRegisters _ q => 1 <= q <= 125
  | CallWriteSingleCoil _ _ | CallWriteSingleRegister _ _ => True
  | CallWriteMultipleCoils _ vs => 1 <= Z.of_nat (length vs) <= 1968
  | CallWriteMultipleRegisters _ vs => 1 <= Z.of_nat (length vs) <= 123
  end.

Definition is_write (k : call) : bool :=
  match k with
  | CallReadCoils _ _ | CallReadHoldingRegisters _ _
  | CallReadInputRegisters _ _ => false
  | _ => true
  end.

(** The buffered channel of a pool holds no more clients than its
    capacity. *)
Definition within_capacity (p : ConnectionPool) : Prop :=
  (length (pool p) <= pool_cap p)%nat.

(** A client once [Close] has been called on it. *)
Definition closed_client (cl : Client) : Client :=
  mkClient (mkConn (incoming (conn cl)) true (trace (conn cl) ++ [EvClose]))
           (transactionID cl).

(** A client just created, on an open connection nothing has arrived on. *)
Definition fresh_client : Client := mkClient (mkConn [] false []) 0.

(** A batch item none of whose calls can panic: it is not a read of coils,
    its quantity is not negative and its value list, if it has one, is
    shorter than 65536. *)
Definition values_short (v : values) : Prop :=
  match v with
  | VBools l => Z.of_nat (length l) < 65536
  | VUint16s l => Z.of_nat (length l) < 65536
  | _ => True
  end.

Definition item_safe (op : BatchOperation) : Prop :=
  Operation op <> "read_coils"%string
  /\ 0 <= Quantity op /\ values_short (Values op).

(** The operation names [ExecuteBatch] knows. *)
Definition known_operations : list string :=
  ["read_coils"; "read_holding"; "read_input"; "write_coils";
   "write_registers"]%string.

(** ** The float helpers and the error message *)

(** [ReadFloat32] and [WriteFloat32] reinterpret the 32 bits of a
    [float32] and do no arithmetic on it: the float is modelled by its bit
    pattern, a [uint32]. *)
Definition uint32_of (x : Z) : Z := x mod 4294967296.
Definition is_uint32 (x : Z) : Prop := 0 <= x < 4294967296.

(** The result of a helper that checks its byte order: the error
    "invalid byte order", or what it returns otherwise. *)
Inductive ordered (A : Type) : Type :=
  | InvalidByteOrder (byteOrder : string)
  | Ordered (a : A).

Arguments InvalidByteOrder {A} byteOrder.
Arguments Ordered {A} a.

(** The switch of [ReadFloat32] on the registers read. *)
Definition float_bits (registers : list Z) (byteOrder : string)
  : option (ordered Z) :=
  if String.eqb byteOrder "big" then
    r0 ← registers !! 0%nat; r1 ← registers !! 1%nat;
    Some (Ordered (Z.lor (uint32_of (Z.shiftl (uint32_of r0) 16)) (uint32_of r1)))
  else if String.eqb byteOrder "little" then
    r1 ← registers !! 1%nat; r0 ← registers !! 0%nat;
    Some (Ordered (Z.lor (uint32_of (Z.shiftl (uint32_of r1) 16)) (uint32_of r0)))
  else Some (InvalidByteOrder byteOrder).

Definition ReadFloat32 (slaveID address : Z) (byteOrder : string)
  : M (ordered Z) :=
  registers ← ReadHoldingRegisters slaveID address 2;
  checked (float_bits registers byteOrder).

(** The switch of [WriteFloat32] on the bits of the value. *)
Definition float_words (bits : Z) (byteOrder : string) : ordered (list Z) :=
  if String.eqb byteOrder "big" then
    Ordered [uint16_of (Z.shiftr bits 16); uint16_of (Z.land bits 0xFFFF)]
  else if String.eqb byteOrder "little" then
    Ordered [uint16_of (Z.land bits 0xFFFF); uint16_of (Z.shiftr bits 16)]
  else InvalidByteOrder byteOrder.

Definition WriteFloat32 (slaveID address bits : Z) (byteOrder : string)
  : M (ordered unit) :=
  match float_words bits byteOrder with
  | InvalidByteOrder o => mret (InvalidByteOrder o)
  | Ordered registers =>
      WriteMultipleRegisters slaveID address registers;; mret (Ordered tt)
  end.

(** [fmt.Sprintf] of a byte under the verb [%02X]: two hexadecimal digits,
    upper case. *)
Definition hex_digit (n : Z) : ascii :=
  match n with
  | 0 => "0" | 1 => "1" | 2 => "2" | 3 => "3" | 4 => "4" | 5 => "5"
  | 6 => "6" | 7 => "7" | 8 => "8" | 9 => "9" | 10 => "A" | 11 => "B"
  | 12 => "C" | 13 => "D" | 14 => "E" | _ => "F"
  end%char.

Definition hex2 (b : Z) : string :=
  String (hex_digit (b / 16)) (String (hex_digit (b mod 16)) EmptyString).

(** The method [Error] of a [ModbusError]. *)
Definition ModbusError_Error (FunctionCode ExceptionCode : Z) : string :=
  ("Modbus exception: function=0x" ++ hex2 FunctionCode
   ++ ", exception=0x" ++ hex2 ExceptionCode)%string.

(** * Properties *)

(** ** Bytes and words *)

Section WireFacts.

Local Ltac Zify.zify_post_hook ::= Z.to_euclidean_division_equations.

Lemma byte_of_range x : is_byte (byte_of x).
Proof. unfold is_byte, byte_of. lia. Qed.

Lemma uint16_of_range x : is_uint16 (uint16_of x).
Proof. unfold is_uint16, uint16_of. lia. Qed.

Lemma uint16_of_small x : is_uint16 x -> uint16_of x = x.
Proof. unfold is_uint16, uint16_of. lia. Qed.

Lemma high_byte v : is_uint16 v -> byte_of (Z.shiftr v 8) = v / 256.
Proof.
  unfold is_uint16, byte_of. intros Hv.
  rewrite Z.shiftr_div_pow2 by lia. change (2 ^ 8) with 256. lia.
Qed.

(** The two bytes [PutUint16] stores read back as the word. *)
Lemma word_of_bytes v :
  is_uint16 v ->
  Z.lor (byte_of v) (Z.shiftl (byte_of (Z.shiftr v 8)) 8) = v.
Proof.
  intros Hv. rewrite high_byte by done. unfold is_uint16, byte_of in *.
  rewrite Z.shiftl_mul_pow2 by lia. change (2 ^ 8) with 256.
  rewrite <- Z.add_nocarry_lor; [lia|].
  apply Z.bits_inj'. intros n Hn.
  rewrite Z.land_spec, Z.bits_0.
  destruct (decide (n < 8)).
  - change (v / 256 * 256) with (v / 256 * 2 ^ 8).
    rewrite Z.mul_pow2_bits_low by lia.
    apply andb_false_r.
  - change (v mod 256) with (v mod 2 ^ 8).
    rewrite Z.mod_pow2_bits_high by lia. done.
Qed.

(** The mask [1 << k] of a bit position inside a byte. *)
Lemma bit_mask (k : nat) :
  (k < 8)%nat -> byte_of (Z.shiftl 1 (Z.of_nat k)) = 2 ^ Z.of_nat k.
Proof.
  intros Hk. rewrite Z.shiftl_1_l. unfold byte_of.
  apply Z.mod_small. split; [lia|].
  change 256 with (2 ^ 8). apply Z.pow_lt_mono_r; lia.
Qed.

Lemma land_mask_testbit b (k : nat) :
  negb (Z.land b (2 ^ Z.of_nat k) =? 0) = Z.testbit b (Z.of_nat k).
Proof.
  destruct (Z.testbit b (Z.of_nat k)) eqn:Hb.
  - apply negb_true_iff, Z.eqb_neq. intros H0.
    assert (Z.testbit (Z.land b (2 ^ Z.of_nat k)) (Z.of_nat k) = true) as Ht.
    { rewrite Z.land_spec, Hb, Z.pow2_bits_true by lia. done. }
    rewrite H0, Z.bits_0 in Ht. done.
  - apply negb_false_iff, Z.eqb_eq. apply Z.bits_inj'. intros n Hn.
    rewrite Z.land_spec, Z.bits_0, Z.pow2_bits_eqb by lia.
    destruct (Z.eqb_spec (Z.of_nat k) n) as [<-|]; [by rewrite Hb|].
    apply andb_false_r.
Qed.

Lemma lor_mask_testbit b (k : nat) t :
  0 <= t ->
  Z.testbit (Z.lor b (2 ^ Z.of_nat k)) t = Z.testbit b t || (Z.of_nat k =? t).
Proof. intros Ht. rewrite Z.lor_spec, Z.pow2_bits_eqb by lia. done. Qed.

Lemma same_bit (n i : nat) :
  (n / 8 = i / 8)%nat -> (n mod 8 = i mod 8)%nat -> n = i.
Proof. lia. Qed.

Lemma bytes_for_bits (i len : nat) : (i / 8 < (i + S len + 7) / 8)%nat.
Proof. lia. Qed.

End WireFacts.

(** ** The method monad *)

Lemma ret_bind {A B} (a : A) (f : A -> M B) c : (mret a ≫= f) c = f a c.
Proof. reflexivity. Qed.

Lemma pass_bind {B} e (f : unit -> M B) c : (reject_if false e ≫= f) c = f tt c.
Proof. reflexivity. Qed.

Lemma reject_bind {B} e (f : unit -> M B) c :
  (reject_if true e ≫= f) c = (c, Err e).
Proof. reflexivity. Qed.

Lemma checked_bind {A B} (a : A) (f : A -> M B) c :
  (checked (Some a) ≫= f) c = f a c.
Proof. reflexivity. Qed.

Lemma on_conn_bind {A B} (g : Conn -> Conn * A) (f : A -> M B) c :
  (on_conn g ≫= f) c = f (g (conn c)).2 (mkClient (g (conn c)).1 (transactionID c)).
Proof. unfold mbind, M_bind, on_conn. by destruct (g (conn c)). Qed.

Lemma bind_Ok {A B} (m : M A) (f : A -> M B) c c' a :
  m c = (c', Ok a) -> (m ≫= f) c = f a c'.
Proof. intros H. unfold mbind, M_bind. by rewrite H. Qed.

Lemma pure_ret {A} (a : A) : pure_M (mret a).
Proof. by intros c. Qed.

Lemma pure_fail {A} e : pure_M (@fail A e).
Proof. by intros c. Qed.

Lemma pure_panic {A} : pure_M (@panic A).
Proof. by intros c. Qed.

Lemma pure_checked {A} (o : option A) : pure_M (checked o).
Proof. by destruct o; intros c. Qed.

Lemma pure_reject_if b e : pure_M (reject_if b e).
Proof. by destruct b; intros c. Qed.

Lemma pure_bind {A B} (m : M A) (f : A -> M B) :
  pure_M m -> (forall a, pure_M (f a)) -> pure_M (m ≫= f).
Proof.
  intros Hm Hf c. unfold mbind, M_bind. specialize (Hm c).
  destruct (m c) as [c' [a| |]]; simpl in *; subst; try done. apply Hf.
Qed.

(** After its last call on the connection a method only decodes. *)
Lemma bind_fst {A B} (m : M A) (f : A -> M B) c :
  (forall a, pure_M (f a)) -> ((m ≫= f) c).1 = (m c).1.
Proof.
  intros Hf. unfold mbind, M_bind.
  destruct (m c) as [c' [a| |]]; simpl; try done. apply Hf.
Qed.

(** Run the leading steps of a method whose results are known. *)
Ltac run_M :=
  repeat first [ rewrite ret_bind | rewrite pass_bind | rewrite checked_bind
               | rewrite reject_bind | rewrite on_conn_bind ].

Create HintDb pureM.
#[local] Hint Resolve pure_ret pure_fail pure_panic pure_checked
  pure_reject_if pure_bind : pureM.

(** ** The transport *)

Lemma written_log ev k :
  written (log ev k) = written k ++ match ev with EvWrite b => [b] | _ => [] end.
Proof.
  unfold written, log; simpl. rewrite omap_app. destruct ev; reflexivity.
Qed.

Lemma trace_Read n k : trace (conn_Read n k).1 = trace k ++ [EvRead n].
Proof.
  unfold conn_Read. destruct (closed k); [done|].
  destruct (decide (n = 0%nat)); [done|]. by destruct (incoming k).
Qed.

Lemma written_Read n k : written (conn_Read n k).1 = written k.
Proof.
  unfold written. rewrite trace_Read, omap_app. simpl. apply app_nil_r.
Qed.

(** A read that finds nothing to deliver fails. *)
Lemma conn_Read_timeout n k :
  n <> 0%nat -> incoming k = [] -> (conn_Read n k).2 = ([], false).
Proof.
  intros Hn Hin. unfold conn_Read. destruct (closed k); [done|].
  destruct (decide (n = 0%nat)); [done|]. by rewrite Hin.
Qed.

(** A read of exactly the next segment. *)
Lemma conn_Read_segment seg rest k :
  closed k = false -> seg <> [] -> incoming k = seg :: rest ->
  conn_Read (length seg) k =
  (mkConn rest false (trace k ++ [EvRead (length seg)]), (seg, true)).
Proof.
  intros Hopen Hseg Hin. unfold conn_Read. rewrite Hopen, Hin.
  destruct (decide (length seg = 0%nat)) as [E|_].
  { by destruct seg. }
  rewrite drop_all, firstn_all. simpl. by rewrite Hopen.
Qed.

Lemma filled_exact got : filled (length got) got = got.
Proof. unfold filled. by rewrite take_app_length. Qed.

Lemma filled_length n got : length (filled n got) = n.
Proof.
  unfold filled, make. rewrite length_take, length_app, length_replicate. lia.
Qed.

(** ** The exchange *)

Lemma sendRequest_open slaveID pdu c :
  closed (conn c) = false ->
  sendRequest slaveID pdu c =
  receive (uint16_of (transactionID c + 1))
          (mkClient (sent (uint16_of (transactionID c + 1)) slaveID pdu (conn c))
                    (uint16_of (transactionID c + 1))).
Proof.
  intros Hopen. unfold sendRequest, next_transactionID, sent.
  unfold mbind, M_bind, mret, M_ret, on_conn, reject_if, fail, checked, panic.
  simpl. repeat (rewrite Hopen; simpl). reflexivity.
Qed.

Lemma sendRequest_closed slaveID pdu c :
  closed (conn c) = true ->
  sendRequest slaveID pdu c =
  (mkClient (log EvSetWriteDeadline (conn c)) (uint16_of (transactionID c + 1)),
   Err ErrDeadline).
Proof.
  intros Hclosed. unfold sendRequest, next_transactionID.
  unfold mbind, M_bind, mret, M_ret, on_conn, reject_if, fail, checked, panic.
  simpl. rewrite Hclosed. reflexivity.
Qed.

Lemma written_receive tid c : written (conn (receive tid c).1) = written (conn c).
Proof.
  unfold receive. rewrite on_conn_bind.
  pose proof (written_Read 7 (conn c)) as W.
  destruct (conn_Read 7 (conn c)) as [k [got []]]; simpl in *; [|done].
  run_M.
  destruct (Uint16 _ 0) as [t|]; [run_M|done].
  destruct (t =? tid); simpl; [run_M|done].
  destruct (dataLength _) as [n|]; [run_M|done].
  simpl.
  pose proof (written_Read (Z.to_nat n) k) as W'.
  destruct (conn_Read (Z.to_nat n) k) as [k' [got' []]]; simpl in *; [|congruence].
  run_M.
  destruct (filled _ got') as [|d0 [|d1 ?]]; simpl; try congruence.
  destruct (128 <=? d0); simpl; congruence.
Qed.

(** An exchange on an open connection writes exactly one frame. *)
Lemma sendRequest_written slaveID pdu c :
  closed (conn c) = false ->
  written (conn (sendRequest slaveID pdu c).1) =
  written (conn c) ++ [frame (uint16_of (transactionID c + 1)) slaveID pdu].
Proof.
  intros Hopen. rewrite sendRequest_open by done.
  rewrite written_receive. simpl. unfold sent.
  rewrite !written_log. by rewrite !app_nil_r.
Qed.

Lemma response_header_tid tid unitID body :
  is_uint16 tid -> Uint16 (response_header tid unitID body) 0 = Some tid.
Proof. intros Ht. unfold Uint16. simpl. by rewrite word_of_bytes. Qed.

Lemma response_header_length tid unitID body :
  Z.of_nat (length body) < 65535 ->
  dataLength (response_header tid unitID body) = Some (Z.of_nat (length body)).
Proof.
  intros Hlen. unfold dataLength, Uint16. simpl.
  rewrite word_of_bytes by (unfold is_uint16; lia).
  f_equal. replace (Z.of_nat (length body) + 1 - 1) with (Z.of_nat (length body)) by lia.
  apply uint16_of_small. unfold is_uint16. lia.
Qed.

(** A response that arrives whole, header and PDU each in one piece. *)
Lemma receive_response tid unitID body rest c :
  closed (conn c) = false ->
  incoming (conn c) = response_header tid unitID body :: body :: rest ->
  is_uint16 tid -> body <> [] -> Z.of_nat (length body) < 65535 ->
  receive tid c =
  (mkClient (mkConn rest false
                    (trace (conn c) ++ [EvRead 7; EvRead (length body)]))
            (transactionID c),
   decoded body).
Proof.
  intros Hopen Hin Htid Hbody Hlen. unfold receive.
  rewrite on_conn_bind.
  change 7%nat with (length (response_header tid unitID body)).
  rewrite (conn_Read_segment _ (body :: rest)) by done. simpl fst; simpl snd.
  rewrite pass_bind, filled_exact.
  rewrite response_header_tid by done. rewrite checked_bind.
  rewrite Z.eqb_refl. simpl negb. rewrite pass_bind.
  rewrite response_header_length by done. rewrite checked_bind.
  rewrite on_conn_bind, Nat2Z.id. simpl conn.
  rewrite (conn_Read_segment body rest) by done. simpl fst; simpl snd.
  rewrite pass_bind, filled_exact. simpl trace. rewrite <- app_assoc. simpl.
  unfold decoded. destruct body as [|d0 [|d1 ?]]; try done.
  by destruct (128 <=? d0).
Qed.

Lemma receive_trace tid c :
  exists evs, trace (conn (receive tid c).1) = trace (conn c) ++ evs.
Proof.
  unfold receive. run_M.
  pose proof (trace_Read 7 (conn c)) as T.
  destruct (conn_Read 7 (conn c)) as [k [got []]]; simpl in *; [|by eauto].
  run_M.
  destruct (Uint16 _ 0) as [t|]; [run_M|by eauto].
  destruct (t =? tid); simpl; [run_M|by eauto].
  destruct (dataLength _) as [n|]; [run_M|by eauto].
  simpl.
  pose proof (trace_Read (Z.to_nat n) k) as T'.
  destruct (conn_Read (Z.to_nat n) k) as [k' [got' []]]; simpl in *;
    rewrite T in T'; rewrite <- app_assoc in T'; [|by eauto].
  run_M.
  destruct (filled _ got') as [|d0 [|d1 ?]]; simpl; eauto.
  destruct (128 <=? d0); simpl; eauto.
Qed.

(** The errors of the second half of an exchange. *)
Lemma receive_errors tid c e :
  (receive tid c).2 = Err e ->
  e = ErrReadHeader \/ (exists got, e = ErrTransactionMismatch tid got)
  \/ e = ErrReadData \/ exists fc ec, e = ModbusError fc ec.
Proof.
  unfold receive. run_M.
  destruct (conn_Read 7 (conn c)) as [k [got []]]; simpl;
    [|intros [= <-]; by auto].
  run_M.
  destruct (Uint16 _ 0) as [t|]; [run_M|done].
  destruct (t =? tid); simpl; [run_M|intros [= <-]; by eauto].
  destruct (dataLength _) as [n|]; [run_M|done].
  simpl.
  destruct (conn_Read (Z.to_nat n) k) as [k' [got' []]]; simpl;
    [|intros [= <-]; by auto].
  run_M.
  destruct (filled _ got') as [|d0 [|d1 ?]]; simpl; try done.
  destruct (128 <=? d0); simpl; [|done]. intros [= <-]. eauto 6.
Qed.

Lemma sendRequest_errors slaveID pdu c e :
  (sendRequest slaveID pdu c).2 = Err e ->
  kind_of e = Transport \/ kind_of e = CorrelationMismatch
  \/ kind_of e = ProtocolException.
Proof.
  destruct (closed (conn c)) eqn:Hc.
  - rewrite sendRequest_closed by done. intros [= <-]. by left.
  - rewrite sendRequest_open by done. intros He.
    apply receive_errors in He as [->|[[got ->]|[->|(fc & ec & ->)]]]; auto.
Qed.

Lemma sendRequest_trace slaveID pdu c :
  exists evs,
    trace (conn (sendRequest slaveID pdu c).1) =
    trace (conn c) ++ EvSetWriteDeadline :: evs.
Proof.
  destruct (closed (conn c)) eqn:Hc.
  - rewrite sendRequest_closed by done. by exists [].
  - rewrite sendRequest_open by done.
    destruct (receive_trace (uint16_of (transactionID c + 1))
      (mkClient (sent (uint16_of (transactionID c + 1)) slaveID pdu (conn c))
                (uint16_of (transactionID c + 1)))) as [evs ->].
    simpl. rewrite <- !app_assoc. simpl. eauto.
Qed.

(** The exchange itself never panics: both buffers it indexes have the
    length it gave them. *)
Lemma receive_no_panic tid c : (receive tid c).2 <> Panic.
Proof.
  unfold receive. run_M.
  destruct (conn_Read 7 (conn c)) as [k [got []]]; simpl; [|done].
  run_M.
  pose proof (filled_length 7 got) as L.
  destruct (filled 7 got) as [|h0 [|h1 [|h2 [|h3 [|h4 [|h5 hs]]]]]]; try done.
  unfold Uint16, dataLength. simpl. run_M.
  destruct (_ =? tid); simpl; [run_M|done].
  unfold Uint16. simpl. run_M. simpl.
  destruct (conn_Read _ k) as [k' [got' []]]; simpl; [|done].
  run_M.
  destruct (filled _ got') as [|d0 [|d1 ?]]; simpl; try done.
  by destruct (128 <=? d0).
Qed.

Lemma sendRequest_no_panic slaveID pdu c : (sendRequest slaveID pdu c).2 <> Panic.
Proof.
  destruct (closed (conn c)) eqn:Hc.
  - by rewrite sendRequest_closed.
  - rewrite sendRequest_open by done. apply receive_no_panic.
Qed.

(** An exchange followed by a decoding that can only find the response
    malformed. *)
Lemma exchange_accepted {A} slaveID pdu (decode : list Z -> M A) c :
  (forall r, pure_M (decode r)) ->
  (forall r c' e, (decode r c').2 = Err e -> kind_of e = MalformedResponse) ->
  accepted c ((sendRequest slaveID pdu ≫= decode) c).
Proof.
  intros Hpure Hkind. split.
  - rewrite bind_fst by done. apply sendRequest_trace.
  - intros e. unfold mbind, M_bind.
    pose proof (sendRequest_errors slaveID pdu c) as Hs.
    destruct (sendRequest slaveID pdu c) as [c' [r|e'|]]; simpl in *.
    + intros He. apply Hkind in He. by rewrite He.
    + intros [= <-]. destruct (Hs e' eq_refl) as [->|[->| ->]]; done.
    + done.
Qed.

Lemma request_pdu_bytes fc address word :
  request_pdu fc address word =
  Some [fc; byte_of (Z.shiftr address 8); byte_of address;
        byte_of (Z.shiftr word 8); byte_of word].
Proof. reflexivity. Qed.

(** What the checks of a response can report. *)
Ltac malformed :=
  unfold mbind, M_bind, reject_if, checked, fail, panic, mret, M_ret;
  repeat case_match; simplify_eq/=; (done || (intros; simplify_eq/=; done)).

(** ** Packing coils *)

Section Packing.

Local Ltac Zify.zify_post_hook ::= Z.to_euclidean_division_equations.

(** Setting the bit of coil [i] changes that bit alone. *)
Lemma bit_at_set buf base i b n :
  buf !! (base + i / 8)%nat = Some b ->
  bit_at (<[(base + i / 8)%nat :=
             Z.lor b (byte_of (Z.shiftl 1 (Z.of_nat (i mod 8))))]> buf) base n
  = bit_at buf base n || bool_decide (n = i).
Proof.
  intros Hb. unfold bit_at. rewrite bit_mask by lia.
  assert (base + i / 8 < length buf)%nat as Hlt by (by eapply lookup_lt_Some).
  destruct (decide (n / 8 = i / 8)%nat) as [Hdiv|Hdiv].
  - rewrite Hdiv, list_lookup_insert_eq, Hb by done.
    rewrite lor_mask_testbit by lia. f_equal.
    destruct (Z.eqb_spec (Z.of_nat (i mod 8)) (Z.of_nat (n mod 8))) as [E|E].
    + rewrite bool_decide_eq_true_2; [done|]. apply same_bit; lia.
    + rewrite bool_decide_eq_false_2; [done|]. intros ->. lia.
  - rewrite list_lookup_insert_ne by lia.
    rewrite bool_decide_eq_false_2; [by rewrite orb_false_r|].
    intros ->. done.
Qed.

Lemma pack_coils_true pdu base i rest b :
  pdu !! (base + i / 8)%nat = Some b ->
  pack_coils pdu base i (true :: rest) =
  pack_coils (<[(base + i / 8)%nat :=
                Z.lor b (byte_of (Z.shiftl 1 (Z.of_nat (i mod 8))))]> pdu)
             base (S i) rest.
Proof.
  intros Hb. cbn [pack_coils]. rewrite Hb. cbn [mbind option_bind].
  unfold store. rewrite decide_True by (by eapply lookup_lt_Some). done.
Qed.

Lemma pack_coils_false pdu base i rest :
  pack_coils pdu base i (false :: rest) = pack_coils pdu base (S i) rest.
Proof. reflexivity. Qed.

(** The packing loop, run from coil [i] on a buffer long enough, never
    leaves the buffer and sets exactly the bits of the true coils. *)
Lemma pack_coils_spec values : forall pdu base i,
  (base + (i + length values + 7) / 8 <= length pdu)%nat ->
  exists pdu',
    pack_coils pdu base i values = Some pdu'
    /\ length pdu' = length pdu
    /\ (forall j, (j < base)%nat -> pdu' !! j = pdu !! j)
    /\ forall n, bit_at pdu' base n =
                 bit_at pdu base n
                 || (if decide (i <= n)%nat
                     then default false (values !! (n - i)%nat) else false).
Proof.
  induction values as [|value rest IH]; intros pdu base i Hlen.
  - exists pdu. repeat split; try done.
    intros n. destruct (decide (i <= n)%nat); by rewrite orb_false_r.
  - cbn [length] in Hlen. destruct value.
    + assert (base + i / 8 < length pdu)%nat as Hlt by lia.
      destruct (lookup_lt_is_Some_2 pdu _ Hlt) as [b Hb].
      destruct (IH (<[(base + i / 8)%nat :=
                       Z.lor b (byte_of (Z.shiftl 1 (Z.of_nat (i mod 8))))]> pdu)
                   base (S i)) as (pdu' & Hrun & Hl & Hlow & Hbits).
      { rewrite length_insert. lia. }
      exists pdu'. rewrite (pack_coils_true _ _ _ _ b) by done.
      rewrite length_insert in Hl.
      split; [done|]. split; [done|]. split.
      * intros j Hj. rewrite Hlow by done.
        apply list_lookup_insert_ne. lia.
      * intros n. rewrite Hbits, bit_at_set by done.
        rewrite <- orb_assoc. f_equal.
        destruct (decide (n = i)) as [->|Hne].
        -- rewrite bool_decide_eq_true_2, decide_False, decide_True by lia.
           by rewrite Nat.sub_diag.
        -- rewrite bool_decide_eq_false_2 by done. simpl.
           destruct (decide (S i <= n)%nat), (decide (i <= n)%nat); try lia; try done.
           replace (n - i)%nat with (S (n - S i)) by lia. done.
    + destruct (IH pdu base (S i)) as (pdu' & Hrun & Hl & Hlow & Hbits); [lia|].
      exists pdu'. rewrite pack_coils_false.
      split; [done|]. split; [done|]. split; [done|].
      intros n. rewrite Hbits. f_equal.
      destruct (decide (n = i)) as [->|Hne].
      -- rewrite decide_False, decide_True by lia. by rewrite Nat.sub_diag.
      -- destruct (decide (S i <= n)%nat), (decide (i <= n)%nat); try lia; try done.
         replace (n - i)%nat with (S (n - S i)) by lia. done.
Qed.

(** The loop does not depend on what precedes the bit array. *)
Lemma pack_coils_prefix pre values : forall buf i,
  pack_coils (pre ++ buf) (length pre) i values =
  (pre ++.) <$> pack_coils buf 0 i values.
Proof.
  induction values as [|value rest IH]; intros buf i; [done|].
  destruct value; [|rewrite !pack_coils_false; apply IH].
  destruct (buf !! (0 + i / 8)%nat) as [b|] eqn:Hb.
  - assert (i / 8 < length buf)%nat as Hlt by (by eapply lookup_lt_Some).
    rewrite (pack_coils_true buf _ _ _ b) by done.
    rewrite (pack_coils_true (pre ++ buf) _ _ _ b).
    2:{ rewrite lookup_app_r by lia. rewrite <- Hb. f_equal. lia. }
    rewrite insert_app_r_alt by lia.
    replace (length pre + i / 8 - length pre)%nat with (0 + i / 8)%nat by lia.
    apply IH.
  - cbn [pack_coils]. rewrite Hb. rewrite lookup_app_r by lia.
    replace (length pre + i / 8 - length pre)%nat with (0 + i / 8)%nat by lia.
    by rewrite Hb.
Qed.

Lemma bit_at_zeros k base n : bit_at (make k) base n = false.
Proof.
  unfold bit_at, make.
  destruct (replicate k 0 !! (base + n / 8)%nat) as [b|] eqn:Hb; [|done].
  apply lookup_replicate in Hb as [-> _]. apply Z.bits_0.
Qed.

(** Reading a coil back is reading its bit. *)
Lemma coil_at_bit r0 r1 bytes i :
  (i / 8 < length bytes)%nat ->
  coil_at (r0 :: r1 :: bytes) i = Some (bit_at bytes 0 i).
Proof.
  intros Hi. unfold coil_at, bit_at.
  change ((r0 :: r1 :: bytes) !! (2 + i / 8)%nat) with (bytes !! (i / 8)%nat).
  change (0 + i / 8)%nat with (i / 8)%nat.
  destruct (lookup_lt_is_Some_2 bytes _ Hi) as [b Hb]. rewrite Hb.
  cbn [mbind option_bind].
  rewrite bit_mask by lia. by rewrite land_mask_testbit.
Qed.

Lemma byte_count_bound (i n : nat) : (i < n -> i / 8 < (n + 7) / 8)%nat.
Proof. lia. Qed.

End Packing.

(** The vectors of the conversion test. *)
Example pack_eight_coils :
  pack_coils (make 1) 0 0 [true; false; true; false; true; false; true; false]
  = Some [0x55].
Proof. reflexivity. Qed.

Example pack_sixteen_coils :
  pack_coils (make 2) 0 0
    [true; true; false; false; true; true; false; false;
     false; true; false; true; false; true; false; true]
  = Some [0x33; 0xAA].
Proof. reflexivity. Qed.

Example pack_partial_byte :
  pack_coils (make 1) 0 0 [true; false; true] = Some [0x05]
  /\ unpack_coils [1; 1; 0x05] 3 = Some [true; false; true].
Proof. split; reflexivity. Qed.

(** C6.  Packing any coil array [values] of length N with the loop of
    [WriteMultipleCoils] into a zeroed buffer of (N+7)/8 bytes succeeds and
    yields bytes in which coil i is bit (i mod 8) of byte (i / 8), every
    other bit being zero; the result is the same behind the six header
    bytes of the request PDU; and the loop of [ReadCoils], reading N coils
    from those bytes behind the two leading response bytes, returns
    [values]. *)
Theorem coil_round_trip (values : list bool) :
  exists bytes,
    pack_coils (make ((length values + 7) / 8)) 0 0 values = Some bytes
    /\ length bytes = ((length values + 7) / 8)%nat
    /\ (forall i, bit_at bytes 0 i = default false (values !! i))
    /\ (forall hdr, length hdr = 6%nat ->
          pack_coils (hdr ++ make ((length values + 7) / 8)) 6 0 values
          = Some (hdr ++ bytes))
    /\ (forall r0 r1,
          unpack_coils (r0 :: r1 :: bytes) (length values) = Some values).
Proof.
  destruct (pack_coils_spec values (make ((length values + 7) / 8)) 0 0)
    as (bytes & Hrun & Hlen & _ & Hbits).
  { unfold make. rewrite length_replicate. simpl. lia. }
  unfold make in Hlen. rewrite length_replicate in Hlen.
  assert (forall i, bit_at bytes 0 i = default false (values !! i)) as Hbit.
  { intros i. rewrite Hbits, bit_at_zeros.
    rewrite decide_True by lia. by rewrite Nat.sub_0_r. }
  exists bytes. repeat split; try done.
  - intros hdr Hhdr.
    pose proof (pack_coils_prefix hdr values
                  (make ((length values + 7) / 8)) 0) as Hp.
    rewrite Hhdr in Hp. by rewrite Hp, Hrun.
  - intros r0 r1. apply mapM_Some_2, Forall2_same_length_lookup_2.
    { by rewrite length_seq. }
    intros i n v Hn Hv. apply lookup_seq in Hn as [-> Hi]. simpl.
    rewrite coil_at_bit by (rewrite Hlen; by apply byte_count_bound).
    by rewrite Hbit, Hv.
Qed.

(** ** The request PDUs of the multiple writes *)

Lemma write_header_bytes fc address quantity byteCount :
  0 <= byteCount < 65530 ->
  write_header fc address quantity byteCount =
  Some ([fc; byte_of (Z.shiftr address 8); byte_of address;
         byte_of (Z.shiftr quantity 8); byte_of quantity; byte_of byteCount]
        ++ make (Z.to_nat byteCount)).
Proof.
  intros Hbc. unfold write_header.
  rewrite uint16_of_small by (unfold is_uint16; lia).
  rewrite Z2Nat.inj_add by lia.
  change (Z.to_nat 6) with 6%nat. reflexivity.
Qed.

Lemma pack_registers_spec values : forall pre rest i,
  length pre = (6 + i * 2)%nat -> length rest = (2 * length values)%nat ->
  pack_registers (pre ++ rest) i values = Some (pre ++ register_bytes values).
Proof.
  induction values as [|value values IH]; intros pre rest i Hpre Hrest.
  - destruct rest; [done|]. simpl in Hrest. lia.
  - destruct rest as [|r0 [|r1 rest]]; simpl in Hrest; try lia.
    cbn [pack_registers]. unfold PutUint16.
    rewrite decide_True by (rewrite length_app; simpl; lia).
    cbn [mbind option_bind].
    rewrite <- Hpre.
    rewrite (insert_app_r_alt pre _ (length pre)) by lia.
    rewrite Nat.sub_diag.
    rewrite (insert_app_r_alt pre _ (S (length pre))) by lia.
    replace (S (length pre) - length pre)%nat with 1%nat by lia.
    change (<[1%nat:=byte_of value]>
              (<[0%nat:=byte_of (Z.shiftr value 8)]> (r0 :: r1 :: rest)))
      with (byte_of (Z.shiftr value 8) :: byte_of value :: rest).
    replace (pre ++ byte_of (Z.shiftr value 8) :: byte_of value :: rest)
      with ((pre ++ [byte_of (Z.shiftr value 8); byte_of value]) ++ rest)
      by (by rewrite <- app_assoc).
    rewrite IH.
    + rewrite <- app_assoc. done.
    + rewrite length_app. simpl. lia.
    + lia.
Qed.

(** The loop over the registers leaves a buffer too short for them. *)
Lemma pack_registers_overflow values : forall pdu i,
  (6 + i * 2 <= length pdu < 6 + (i + length values) * 2)%nat ->
  pack_registers pdu i values = None.
Proof.
  induction values as [|value values IH]; intros pdu i Hlen.
  - simpl in Hlen. lia.
  - cbn [pack_registers]. unfold PutUint16.
    destruct (decide (6 + i * 2 + 2 <= length pdu)%nat); [|done].
    cbn [mbind option_bind]. apply IH. rewrite !length_insert.
    cbn [length] in Hlen. lia.
Qed.

(** Coils that are false are skipped by the loop over the coils. *)
Lemma pack_coils_all_false n : forall pdu base i,
  pack_coils pdu base i (replicate n false) = Some pdu.
Proof.
  induction n as [|n IH]; intros pdu base i; [done|].
  cbn [replicate]. rewrite pack_coils_false. apply IH.
Qed.

Section MultipleWrites.

Local Ltac Zify.zify_post_hook ::= Z.to_euclidean_division_equations.

Lemma WriteMultipleCoils_pdu_bytes address values :
  1 <= Z.of_nat (length values) <= 1968 ->
  exists bytes,
    pack_coils (make ((length values + 7) / 8)) 0 0 values = Some bytes
    /\ WriteMultipleCoils_pdu address values =
       Some ([FuncCodeWriteMultipleCoils;
              byte_of (Z.shiftr address 8); byte_of address;
              byte_of (Z.shiftr (Z.of_nat (length values)) 8);
              byte_of (Z.of_nat (length values));
              byte_of (Z.of_nat ((length values + 7) / 8))] ++ bytes).
Proof.
  intros Hn.
  destruct (pack_coils_spec values (make ((length values + 7) / 8)) 0 0)
    as (bytes & Hrun & _).
  { unfold make. rewrite length_replicate. simpl. lia. }
  exists bytes. split; [done|]. unfold WriteMultipleCoils_pdu.
  rewrite (uint16_of_small (Z.of_nat (length values)))
    by (unfold is_uint16; lia).
  rewrite (uint16_of_small (Z.of_nat (length values) + 7))
    by (unfold is_uint16; lia).
  replace (Z.of_nat (length values) + 7) with (Z.of_nat (length values + 7))
    by lia.
  replace (Z.of_nat (length values + 7) / 8)
    with (Z.of_nat ((length values + 7) / 8)) by lia.
  rewrite write_header_bytes by lia.
  cbn [mbind option_bind]. rewrite Nat2Z.id.
  match goal with
  | |- pack_coils (?hdr ++ _) _ _ _ = _ =>
      pose proof (pack_coils_prefix hdr values
                    (make ((length values + 7) / 8)) 0) as Hp
  end.
  cbn [length] in Hp. rewrite Hp, Hrun. done.
Qed.

Lemma WriteMultipleRegisters_pdu_bytes address values :
  1 <= Z.of_nat (length values) <= 123 ->
  WriteMultipleRegisters_pdu address values =
  Some ([FuncCodeWriteMultipleRegisters;
         byte_of (Z.shiftr address 8); byte_of address;
         byte_of (Z.shiftr (Z.of_nat (length values)) 8);
         byte_of (Z.of_nat (length values));
         byte_of (Z.of_nat (length values) * 2)] ++ register_bytes values).
Proof.
  intros Hn. unfold WriteMultipleRegisters_pdu.
  rewrite (uint16_of_small (Z.of_nat (length values)))
    by (unfold is_uint16; lia).
  rewrite (uint16_of_small (Z.of_nat (length values) * 2))
    by (unfold is_uint16; lia).
  rewrite write_header_bytes by lia.
  cbn [mbind option_bind].
  apply pack_registers_spec; [done|].
  unfold make. rewrite length_replicate. lia.
Qed.

End MultipleWrites.

(** ** Argument validation *)

Lemma ReadCoils_rejected slaveID address quantity c :
  quantity = 0 \/ 2000 < quantity ->
  rejected c (ReadCoils slaveID address quantity c).
Proof.
  intros Hq. unfold ReadCoils.
  replace ((quantity =? 0) || (2000 <? quantity)) with true by lia.
  rewrite reject_bind. split; [done|]. eauto.
Qed.

Lemma ReadCoils_accepted slaveID address quantity c :
  1 <= quantity <= 2000 ->
  accepted c (ReadCoils slaveID address quantity c).
Proof.
  intros Hq. unfold ReadCoils.
  replace ((quantity =? 0) || (2000 <? quantity)) with false by lia.
  rewrite request_pdu_bytes. run_M.
  apply exchange_accepted.
  - intros r. auto 10 with pureM.
  - intros r c' e. malformed.
Qed.

Lemma read_registers_rejected fc slaveID address quantity c :
  quantity = 0 \/ 125 < quantity ->
  rejected c (read_registers fc slaveID address quantity c).
Proof.
  intros Hq. unfold read_registers.
  replace ((quantity =? 0) || (125 <? quantity)) with true by lia.
  rewrite reject_bind. split; [done|]. eauto.
Qed.

Lemma read_registers_accepted fc slaveID address quantity c :
  1 <= quantity <= 125 ->
  accepted c (read_registers fc slaveID address quantity c).
Proof.
  intros Hq. unfold read_registers.
  replace ((quantity =? 0) || (125 <? quantity)) with false by lia.
  rewrite request_pdu_bytes. run_M.
  apply exchange_accepted.
  - intros r. auto 10 with pureM.
  - intros r c' e. malformed.
Qed.

Lemma WriteMultipleCoils_rejected slaveID address values c :
  Z.of_nat (length values) = 0 \/ 1968 < Z.of_nat (length values) < 65536 ->
  rejected c (WriteMultipleCoils slaveID address values c).
Proof.
  intros Hq. unfold WriteMultipleCoils.
  rewrite uint16_of_small by (unfold is_uint16; lia).
  replace ((Z.of_nat (length values) =? 0) || (1968 <? Z.of_nat (length values)))
    with true by lia.
  rewrite reject_bind. split; [done|]. eauto.
Qed.

Lemma WriteMultipleCoils_accepted slaveID address values c :
  1 <= Z.of_nat (length values) <= 1968 ->
  accepted c (WriteMultipleCoils slaveID address values c).
Proof.
  intros Hq. unfold WriteMultipleCoils.
  rewrite uint16_of_small by (unfold is_uint16; lia).
  replace ((Z.of_nat (length values) =? 0) || (1968 <? Z.of_nat (length values)))
    with false by lia.
  destruct (WriteMultipleCoils_pdu_bytes address values Hq) as (bytes & _ & ->).
  run_M. apply exchange_accepted.
  - intros r. auto with pureM.
  - intros r c' e. malformed.
Qed.

Lemma WriteMultipleRegisters_rejected slaveID address values c :
  Z.of_nat (length values) = 0 \/ 123 < Z.of_nat (length values) < 65536 ->
  rejected c (WriteMultipleRegisters slaveID address values c).
Proof.
  intros Hq. unfold WriteMultipleRegisters.
  rewrite uint16_of_small by (unfold is_uint16; lia).
  replace ((Z.of_nat (length values) =? 0) || (123 <? Z.of_nat (length values)))
    with true by lia.
  rewrite reject_bind. split; [done|]. eauto.
Qed.

Lemma WriteMultipleRegisters_accepted slaveID address values c :
  1 <= Z.of_nat (length values) <= 123 ->
  accepted c (WriteMultipleRegisters slaveID address values c).
Proof.
  intros Hq. unfold WriteMultipleRegisters.
  rewrite uint16_of_small by (unfold is_uint16; lia).
  replace ((Z.of_nat (length values) =? 0) || (123 <? Z.of_nat (length values)))
    with false by lia.
  rewrite WriteMultipleRegisters_pdu_bytes by done.
  run_M. apply exchange_accepted.
  - intros r. auto with pureM.
  - intros r c' e. malformed.
Qed.

(** ** Calls *)

Lemma bind_assoc {A B C} (m : M A) (f : A -> M B) (g : B -> M C) c :
  ((m ≫= f) ≫= g) c = (m ≫= (fun a => f a ≫= g)) c.
Proof. unfold mbind, M_bind. by destruct (m c) as [c' [a| |]]. Qed.

(** Every call with valid arguments is one exchange of the PDU it builds
    followed by a decoding of the response that does no I/O and can only
    find the response malformed; a write decodes by the echo check. *)
Lemma call_exchange slaveID k :
  call_valid k ->
  exists pdu decode,
    call_request k = Some pdu
    /\ pdu !! 0%nat = Some (call_code k)
    /\ (forall c, run_call slaveID k c = (sendRequest slaveID pdu ≫= decode) c)
    /\ (forall r, pure_M (decode r))
    /\ (forall r c e, (decode r c).2 = Err e -> kind_of e = MalformedResponse)
    /\ (is_write k = true ->
        forall r c, decode r c =
          (c, if echo_rejected (call_code k) r
              then Err ErrInvalidResponse else Ok VNil)).
Proof.
  intros Hvalid.
  destruct k as [a q|a q|a q|a v|a v|a vs|a vs]; simpl in Hvalid;
    cbn [run_call call_request call_code is_write].
  - eexists _, (fun response =>
      v ← (reject_if (Z.of_nat (length response) <? 2) ErrInvalidResponseLength;;
           byteCount ← checked (response !! 1%nat);
           reject_if (negb (Z.of_nat (length response) =? byte_of (2 + byteCount)))
                     ErrResponseLengthMismatch;;
           checked (unpack_coils response (Z.to_nat q)));
      mret (VBools v)).
    split; [apply request_pdu_bytes|]. split; [done|]. split; [|split; [|split]].
    + intros c. unfold ReadCoils.
      replace ((q =? 0) || (2000 <? q)) with false by lia.
      rewrite request_pdu_bytes, bind_assoc. run_M.
      rewrite bind_assoc. run_M. by rewrite bind_assoc.
    + intros r. auto 10 with pureM.
    + intros r c e. malformed.
    + done.
  - eexists _, (fun response =>
      v ← (reject_if (Z.of_nat (length response) <? 2) ErrInvalidResponseLength;;
           byteCount ← checked (response !! 1%nat);
           reject_if (negb (byteCount =? byte_of (uint16_of (q * 2)))
                      || negb (Z.of_nat (length response) =? byte_of (2 + byteCount)))
                     ErrResponseLengthMismatch;;
           checked (unpack_registers response (Z.to_nat q)));
      mret (VUint16s v)).
    split; [apply request_pdu_bytes|]. split; [done|]. split; [|split; [|split]].
    + intros c. unfold ReadHoldingRegisters, read_registers.
      replace ((q =? 0) || (125 <? q)) with false by lia.
      rewrite request_pdu_bytes, bind_assoc. run_M.
      rewrite bind_assoc. run_M. by rewrite bind_assoc.
    + intros r. auto 10 with pureM.
    + intros r c e. malformed.
    + done.
  - eexists _, (fun response =>
      v ← (reject_if (Z.of_nat (length response) <? 2) ErrInvalidResponseLength;;
           byteCount ← checked (response !! 1%nat);
           reject_if (negb (byteCount =? byte_of (uint16_of (q * 2)))
                      || negb (Z.of_nat (length response) =? byte_of (2 + byteCount)))
                     ErrResponseLengthMismatch;;
           checked (unpack_registers response (Z.to_nat q)));
      mret (VUint16s v)).
    split; [apply request_pdu_bytes|]. split; [done|]. split; [|split; [|split]].
    + intros c. unfold ReadInputRegisters, read_registers.
      replace ((q =? 0) || (125 <? q)) with false by lia.
      rewrite request_pdu_bytes, bind_assoc. run_M.
      rewrite bind_assoc. run_M. by rewrite bind_assoc.
    + intros r. auto 10 with pureM.
    + intros r c e. malformed.
    + done.
  - eexists _, (fun response =>
      reject_if (echo_rejected FuncCodeWriteSingleCoil response) ErrInvalidResponse;;
      mret VNil).
    split; [apply request_pdu_bytes|]. split; [done|]. split; [|split; [|split]].
    + intros c. unfold WriteSingleCoil.
      rewrite request_pdu_bytes, bind_assoc. run_M. by rewrite bind_assoc.
    + intros r. auto 10 with pureM.
    + intros r c e. malformed.
    + intros _ r c. by destruct (echo_rejected _ r).
  - eexists _, (fun response =>
      reject_if (echo_rejected FuncCodeWriteSingleRegister response) ErrInvalidResponse;;
      mret VNil).
    split; [apply request_pdu_bytes|]. split; [done|]. split; [|split; [|split]].
    + intros c. unfold WriteSingleRegister.
      rewrite request_pdu_bytes, bind_assoc. run_M. by rewrite bind_assoc.
    + intros r. auto 10 with pureM.
    + intros r c e. malformed.
    + intros _ r c. by destruct (echo_rejected _ r).
  - destruct (WriteMultipleCoils_pdu_bytes a vs Hvalid) as (bytes & _ & Hpdu).
    eexists _, (fun response =>
      reject_if (echo_rejected FuncCodeWriteMultipleCoils response) ErrInvalidResponse;;
      mret VNil).
    split; [exact Hpdu|]. split; [done|]. split; [|split; [|split]].
    + intros c. unfold WriteMultipleCoils.
      rewrite uint16_of_small by (unfold is_uint16; lia).
      replace ((Z.of_nat (length vs) =? 0) || (1968 <? Z.of_nat (length vs)))
        with false by lia.
      rewrite Hpdu, bind_assoc. run_M.
      rewrite bind_assoc. run_M. by rewrite bind_assoc.
    + intros r. auto 10 with pureM.
    + intros r c e. malformed.
    + intros _ r c. by destruct (echo_rejected _ r).
  - pose proof (WriteMultipleRegisters_pdu_bytes a vs Hvalid) as Hpdu.
    eexists _, (fun response =>
      reject_if (echo_rejected FuncCodeWriteMultipleRegisters response) ErrInvalidResponse;;
      mret VNil).
    split; [exact Hpdu|]. split; [done|]. split; [|split; [|split]].
    + intros c. unfold WriteMultipleRegisters.
      rewrite uint16_of_small by (unfold is_uint16; lia).
      replace ((Z.of_nat (length vs) =? 0) || (123 <? Z.of_nat (length vs)))
        with false by lia.
      rewrite Hpdu, bind_assoc. run_M.
      rewrite bind_assoc. run_M. by rewrite bind_assoc.
    + intros r. auto 10 with pureM.
    + intros r c e. malformed.
    + intros _ r c. by destruct (echo_rejected _ r).
Qed.

(** * The claims *)

(** ** Framing *)

Lemma read_registers_client fc slaveID address quantity c pdu :
  ((quantity =? 0) || (125 <? quantity)) = false ->
  request_pdu fc address quantity = Some pdu ->
  (read_registers fc slaveID address quantity c).1 = (sendRequest slaveID pdu c).1.
Proof.
  intros Hq Hpdu. unfold read_registers. rewrite Hq, Hpdu. run_M.
  apply bind_fst. intros response. auto 10 with pureM.
Qed.

Lemma mbap_layout tid slaveID pdu :
  is_uint16 tid -> Z.of_nat (length pdu) < 65535 ->
  mbap tid slaveID pdu =
  Some [tid / 256; tid mod 256; 0; 0;
        (Z.of_nat (length pdu) + 1) / 256; (Z.of_nat (length pdu) + 1) mod 256;
        slaveID].
Proof.
  intros Htid Hlen.
  assert (is_uint16 (Z.of_nat (length pdu) + 1)) as Hl
    by (unfold is_uint16; lia).
  change (mbap tid slaveID pdu) with
    (Some [byte_of (Z.shiftr tid 8); byte_of tid; 0; 0;
           byte_of (Z.shiftr (uint16_of (Z.of_nat (length pdu) + 1)) 8);
           byte_of (uint16_of (Z.of_nat (length pdu) + 1)); slaveID]).
  rewrite (uint16_of_small _ Hl), !high_byte by done. done.
Qed.

(** C1.  The PDU of read-holding-registers(address 0, quantity 5) is
    03 00 00 00 05, and on a fresh client with an open connection the call
    for unit 1 writes exactly the frame 00 01 00 00 00 06 01 03 00 00 00 05;
    in general the header is the correlation id, 0, the PDU length plus one
    (each in two bytes, high byte first) and the unit address, and the frame
    written is that header followed by the PDU. *)
Theorem read_holding_request_frame (k : Conn) (Hopen : closed k = false) :
  request_pdu FuncCodeReadHoldingRegisters 0 5 = Some [3; 0; 0; 0; 5]
  /\ written (conn (ReadHoldingRegisters 1 0 5 (mkClient k 0)).1)
     = written k ++ [[0; 1; 0; 0; 0; 6; 1; 3; 0; 0; 0; 5]]
  /\ (forall tid slaveID pdu,
        is_uint16 tid -> Z.of_nat (length pdu) < 65535 ->
        mbap tid slaveID pdu =
        Some [tid / 256; tid mod 256; 0; 0;
              (Z.of_nat (length pdu) + 1) / 256;
              (Z.of_nat (length pdu) + 1) mod 256; slaveID])
  /\ (forall slaveID pdu tid header,
        mbap (uint16_of (tid + 1)) slaveID pdu = Some header ->
        written (conn (sendRequest slaveID pdu (mkClient k tid)).1)
        = written k ++ [header ++ pdu]).
Proof.
  split; [reflexivity|]. split; [|split].
  - unfold ReadHoldingRegisters.
    rewrite (read_registers_client _ _ _ _ _ [3; 0; 0; 0; 5]) by reflexivity.
    by rewrite sendRequest_written.
  - apply mbap_layout.
  - intros slaveID pdu tid header Hh.
    rewrite sendRequest_written by done. simpl.
    injection Hh as <-. done.
Qed.

Lemma read_holding_request_frame_example :
  written (conn (ReadHoldingRegisters 1 0 5
                   (mkClient (mkConn [] false []) 0)).1)
  = [[0; 1; 0; 0; 0; 6; 1; 3; 0; 0; 0; 5]].
Proof.
  exact (proj1 (proj2 (read_holding_request_frame (mkConn [] false []) eq_refl))).
Defined.

(** ** Quantity limits *)

(** For quantities, and for value lists shorter than 65536, the limits
    hold: each operation refuses a quantity outside its range with an
    Invalid-Argument error and with the client, hence the record of calls
    on its connection, unchanged; within the range the operation goes on to
    the exchange and returns no Invalid-Argument error.  The ranges are
    1-2000 for read-coils, 1-125 for the register reads, 1-1968 and 1-123
    for the lengths of the value lists of the multiple writes; 0, 2001,
    126, 1969 and 124 are refused, 1, 2000, 125, 1968 and 123 accepted. *)
Theorem quantity_validation (c : Client) (slaveID address : Z) :
  (forall q, q = 0 \/ 2000 < q -> rejected c (ReadCoils slaveID address q c))
  /\ (forall q, 1 <= q <= 2000 -> accepted c (ReadCoils slaveID address q c))
  /\ (forall q, q = 0 \/ 125 < q ->
        rejected c (ReadHoldingRegisters slaveID address q c)
        /\ rejected c (ReadInputRegisters slaveID address q c))
  /\ (forall q, 1 <= q <= 125 ->
        accepted c (ReadHoldingRegisters slaveID address q c)
        /\ accepted c (ReadInputRegisters slaveID address q c))
  /\ (forall values : list bool,
        Z.of_nat (length values) = 0 \/ 1968 < Z.of_nat (length values) < 65536 ->
        rejected c (WriteMultipleCoils slaveID address values c))
  /\ (forall values : list bool,
        1 <= Z.of_nat (length values) <= 1968 ->
        accepted c (WriteMultipleCoils slaveID address values c))
  /\ (forall values : list Z,
        Z.of_nat (length values) = 0 \/ 123 < Z.of_nat (length values) < 65536 ->
        rejected c (WriteMultipleRegisters slaveID address values c))
  /\ (forall values : list Z,
        1 <= Z.of_nat (length values) <= 123 ->
        accepted c (WriteMultipleRegisters slaveID address values c)).
Proof.
  repeat match goal with |- _ /\ _ => split end; intros;
    repeat match goal with |- _ /\ _ => split end;
    unfold ReadHoldingRegisters, ReadInputRegisters;
    auto using ReadCoils_rejected, ReadCoils_accepted,
      read_registers_rejected, read_registers_accepted,
      WriteMultipleCoils_rejected, WriteMultipleCoils_accepted,
      WriteMultipleRegisters_rejected, WriteMultipleRegisters_accepted.
Qed.

(** The boundary values, on a fresh client. *)
Lemma quantity_validation_example :
  (rejected fresh_client (ReadCoils 1 0 0 fresh_client)
   /\ accepted fresh_client (ReadCoils 1 0 1 fresh_client)
   /\ accepted fresh_client (ReadCoils 1 0 2000 fresh_client)
   /\ rejected fresh_client (ReadCoils 1 0 2001 fresh_client))
  /\ (rejected fresh_client (ReadHoldingRegisters 1 0 0 fresh_client)
      /\ accepted fresh_client (ReadHoldingRegisters 1 0 1 fresh_client)
      /\ accepted fresh_client (ReadHoldingRegisters 1 0 125 fresh_client)
      /\ rejected fresh_client (ReadHoldingRegisters 1 0 126 fresh_client))
  /\ (rejected fresh_client (ReadInputRegisters 1 0 0 fresh_client)
      /\ accepted fresh_client (ReadInputRegisters 1 0 1 fresh_client)
      /\ accepted fresh_client (ReadInputRegisters 1 0 125 fresh_client)
      /\ rejected fresh_client (ReadInputRegisters 1 0 126 fresh_client))
  /\ (rejected fresh_client (WriteMultipleCoils 1 0 [] fresh_client)
      /\ accepted fresh_client
           (WriteMultipleCoils 1 0 (replicate 1 true) fresh_client)
      /\ accepted fresh_client
           (WriteMultipleCoils 1 0 (replicate 1968 true) fresh_client)
      /\ rejected fresh_client
           (WriteMultipleCoils 1 0 (replicate 1969 true) fresh_client))
  /\ (rejected fresh_client (WriteMultipleRegisters 1 0 [] fresh_client)
      /\ accepted fresh_client
           (WriteMultipleRegisters 1 0 (replicate 1 7) fresh_client)
      /\ accepted fresh_client
           (WriteMultipleRegisters 1 0 (replicate 123 7) fresh_client)
      /\ rejected fresh_client
           (WriteMultipleRegisters 1 0 (replicate 124 7) fresh_client)).
Proof.
  destruct (quantity_validation fresh_client 1 0)
    as (Hc0 & Hc1 & Hr0 & Hr1 & Hwc0 & Hwc1 & Hwr0 & Hwr1).
  refine (conj _ (conj _ (conj _ (conj _ _)))).
  - refine (conj (Hc0 0 _) (conj (Hc1 1 _) (conj (Hc1 2000 _) (Hc0 2001 _))));
      lia.
  - refine (conj (proj1 (Hr0 0 _))
             (conj (proj1 (Hr1 1 _))
                (conj (proj1 (Hr1 125 _)) (proj1 (Hr0 126 _))))); lia.
  - refine (conj (proj2 (Hr0 0 _))
             (conj (proj2 (Hr1 1 _))
                (conj (proj2 (Hr1 125 _)) (proj2 (Hr0 126 _))))); lia.
  - refine (conj (Hwc0 [] _)
             (conj (Hwc1 (replicate 1 true) _)
                (conj (Hwc1 (replicate 1968 true) _)
                   (Hwc0 (replicate 1969 true) _))));
      rewrite ?length_replicate; cbn [length]; lia.
  - refine (conj (Hwr0 [] _)
             (conj (Hwr1 (replicate 1 7) _)
                (conj (Hwr1 (replicate 123 7) _)
                   (Hwr0 (replicate 124 7) _))));
      rewrite ?length_replicate; cbn [length]; lia.
Defined.

(** ** Value lists of 65536 values or more *)

Section LongValueLists.

Local Ltac Zify.zify_post_hook ::= Z.to_euclidean_division_equations.

(** The multiple writes check [uint16(len(values))], the length of the list
    modulo 65536, and a call that passes the check either panics while its
    request is built or goes on to the exchange. *)
Lemma WriteMultipleCoils_wrapped slaveID address values c :
  1 <= Z.of_nat (length values) mod 65536 <= 1968 ->
  ~ rejected c (WriteMultipleCoils slaveID address values c).
Proof.
  intros Hq [_ (e & He & Hk)]. revert He.
  unfold WriteMultipleCoils, uint16_of.
  set (q := Z.of_nat (length values) mod 65536) in *.
  replace ((q =? 0) || (1968 <? q)) with false by lia. run_M.
  destruct (WriteMultipleCoils_pdu address values) as [pdu|]; [|done].
  run_M. intros He.
  destruct (exchange_accepted slaveID pdu
              (fun response =>
                 reject_if (echo_rejected FuncCodeWriteMultipleCoils response)
                           ErrInvalidResponse) c) as [_ Hacc].
  - intros r. auto with pureM.
  - intros r c' e'. malformed.
  - by apply (Hacc e).
Qed.

Lemma WriteMultipleRegisters_wrapped slaveID address values c :
  1 <= Z.of_nat (length values) mod 65536 <= 123 ->
  ~ rejected c (WriteMultipleRegisters slaveID address values c).
Proof.
  intros Hq [_ (e & He & Hk)]. revert He.
  unfold WriteMultipleRegisters, uint16_of.
  set (q := Z.of_nat (length values) mod 65536) in *.
  replace ((q =? 0) || (123 <? q)) with false by lia. run_M.
  destruct (WriteMultipleRegisters_pdu address values) as [pdu|]; [|done].
  run_M. intros He.
  destruct (exchange_accepted slaveID pdu
              (fun response =>
                 reject_if (echo_rejected FuncCodeWriteMultipleRegisters response)
                           ErrInvalidResponse) c) as [_ Hacc].
  - intros r. auto with pureM.
  - intros r c' e'. malformed.
  - by apply (Hacc e).
Qed.

(** The request built for a list of false coils: that of a list of as many
    coils as its length modulo 65536. *)
Lemma WriteMultipleCoils_pdu_all_false address n :
  1 <= Z.of_nat n mod 65536 <= 1968 ->
  WriteMultipleCoils_pdu address (replicate n false) =
  Some ([FuncCodeWriteMultipleCoils;
         byte_of (Z.shiftr address 8); byte_of address;
         byte_of (Z.shiftr (Z.of_nat n mod 65536) 8);
         byte_of (Z.of_nat n mod 65536);
         byte_of ((Z.of_nat n mod 65536 + 7) / 8)]
        ++ make (Z.to_nat ((Z.of_nat n mod 65536 + 7) / 8))).
Proof.
  intros Hq. unfold WriteMultipleCoils_pdu, uint16_of.
  rewrite length_replicate.
  set (q := Z.of_nat n mod 65536) in *.
  rewrite (Z.mod_small (q + 7) 65536) by lia.
  rewrite write_header_bytes by lia. cbn [mbind option_bind].
  apply pack_coils_all_false.
Qed.

Lemma WriteMultipleRegisters_pdu_overflow address values :
  65536 <= Z.of_nat (length values) ->
  1 <= Z.of_nat (length values) mod 65536 <= 123 ->
  WriteMultipleRegisters_pdu address values = None.
Proof.
  intros Hlong Hq. unfold WriteMultipleRegisters_pdu, uint16_of.
  set (q := Z.of_nat (length values) mod 65536) in *.
  rewrite (Z.mod_small (q * 2) 65536) by lia.
  rewrite write_header_bytes by lia. cbn [mbind option_bind].
  apply pack_registers_overflow.
  cbn [length app]. unfold make. rewrite length_replicate. lia.
Qed.

(** C5.  The multiple writes check the length of the value list only
    after converting it to 16 bits, so that a list whose length is out of
    range is not refused when its length modulo 65536 is within the range:
    no such call of
    [WriteMultipleCoils] or [WriteMultipleRegisters] returns an
    Invalid-Argument error with the client untouched.  A list of 65537
    false coils is written as a write of one coil, frame
    00 01 00 00 00 08 01 0F 00 00 00 01 01 00, and the call succeeds when
    the device echoes that write; a list of 65537 registers makes
    [WriteMultipleRegisters] panic before any I/O.  So not every
    out-of-range length is rejected with an Invalid-Argument error. *)
Theorem long_value_list_not_rejected :
  (forall slaveID address (values : list bool) c,
     1 <= Z.of_nat (length values) mod 65536 <= 1968 ->
     ~ rejected c (WriteMultipleCoils slaveID address values c))
  /\ (forall slaveID address (values : list Z) c,
        1 <= Z.of_nat (length values) mod 65536 <= 123 ->
        ~ rejected c (WriteMultipleRegisters slaveID address values c))
  /\ Z.of_nat (length (replicate (Z.to_nat 65537) false)) = 65537
  /\ WriteMultipleCoils 1 0 (replicate (Z.to_nat 65537) false)
       (mkClient (mkConn [[0; 1; 0; 0; 0; 6; 1]; [0x0F; 0; 0; 0; 1]] false [])
                 0)
     = (mkClient
          (mkConn [] false
             [EvSetWriteDeadline;
              EvWrite [0; 1; 0; 0; 0; 8; 1; 0x0F; 0; 0; 0; 1; 1; 0];
              EvSetReadDeadline; EvRead 7; EvRead 5]) 1,
        Ok tt)
  /\ WriteMultipleRegisters 1 0 (replicate (Z.to_nat 65537) 7) fresh_client
     = (fresh_client, Panic).
Proof.
  split; [exact WriteMultipleCoils_wrapped|].
  split; [exact WriteMultipleRegisters_wrapped|].
  assert (Z.of_nat (Z.to_nat 65537) mod 65536 = 1) as Hq
    by (by rewrite Z2Nat.id by lia).
  split; [rewrite length_replicate; lia|]. split.
  - unfold WriteMultipleCoils, uint16_of. rewrite length_replicate, Hq.
    cbn [Z.eqb Z.ltb orb Z.compare Pos.compare Pos.compare_cont]. run_M.
    rewrite WriteMultipleCoils_pdu_all_false by (rewrite Hq; lia).
    rewrite Hq. run_M. vm_compute. reflexivity.
  - unfold WriteMultipleRegisters, uint16_of. rewrite length_replicate, Hq.
    cbn [Z.eqb Z.ltb orb Z.compare Pos.compare Pos.compare_cont]. run_M.
    rewrite WriteMultipleRegisters_pdu_overflow; [done|..];
      rewrite length_replicate; [lia|rewrite Hq; lia].
Qed.

End LongValueLists.

(** ** Short reads *)

(** With nothing delivered before the deadline the exchange fails on the
    header. *)
Lemma exchange_read_timeout slaveID pdu c :
  closed (conn c) = false -> incoming (conn c) = [] ->
  (sendRequest slaveID pdu c).2 = Err ErrReadHeader.
Proof.
  intros Hopen Hin. rewrite sendRequest_open by done.
  unfold receive. run_M. by rewrite conn_Read_timeout.
Qed.

(** C2.  Two exchanges in which the transport delivers fewer bytes than
    asked for and reports no error.  In the first the seven header bytes
    arrive whole and announce a five-byte PDU of which two bytes arrive:
    [WriteSingleCoil] takes the zero-filled buffer for the echo and returns
    success.  In the second six of the seven header bytes arrive first: the
    exchange takes the next bytes of the stream, unit address included, for
    the PDU and returns them as the response. *)
Theorem short_read_not_detected :
  WriteSingleCoil 1 7 true
    (mkClient (mkConn [[0; 1; 0; 0; 0; 6; 1]; [5; 0]] false []) 0)
  = (mkClient (mkConn [] false
                 [EvSetWriteDeadline;
                  EvWrite [0; 1; 0; 0; 0; 6; 1; 5; 0; 7; 255; 0];
                  EvSetReadDeadline; EvRead 7; EvRead 5]) 1,
     Ok tt)
  /\ (sendRequest 1 [3; 0; 0; 0; 1]
        (mkClient (mkConn [[0; 1; 0; 0; 0; 5]; [1; 3; 2; 0x12; 0x34]] false []) 0)).2
     = Ok [1; 3; 2; 0x12].
Proof. split; vm_compute; reflexivity. Qed.

(** ** Write echoes *)

Lemma echo_rejected_spec fc response :
  echo_rejected fc response = false
  <-> length response = 5%nat /\ response !! 0%nat = Some fc.
Proof.
  unfold echo_rejected. rewrite orb_false_iff, negb_false_iff, Z.eqb_eq.
  destruct response as [|r0 rest]; simpl.
  - split; [intros [_ [=]]|intros [[=] _]].
  - rewrite negb_false_iff, Z.eqb_eq. split.
    + intros [Hl ->]. split; [lia|done].
    + intros [Hl [= ->]]. split; [lia|done].
Qed.

(** C3, as the code has it.  A write with valid arguments whose exchange
    returned a response succeeds exactly when the response is five bytes
    long and begins with the function code of the write, and fails with
    the Malformed-Response error [ErrInvalidResponse] otherwise; the four
    bytes after the function code are not looked at. *)
Theorem write_echo_check (slaveID : Z) (k : call) (c : Client)
    (Hwrite : is_write k = true) (Hvalid : call_valid k) :
  exists pdu,
    call_request k = Some pdu
    /\ (forall c' response,
          sendRequest slaveID pdu c = (c', Ok response) ->
          run_call slaveID k c =
          (c', if decide (length response = 5%nat
                          /\ response !! 0%nat = Some (call_code k))
               then Ok VNil else Err ErrInvalidResponse))
    /\ (forall c',
          run_call slaveID k c = (c', Ok VNil) ->
          exists response,
            sendRequest slaveID pdu c = (c', Ok response)
            /\ length response = 5%nat
            /\ response !! 0%nat = Some (call_code k))
    /\ kind_of ErrInvalidResponse = MalformedResponse.
Proof.
  destruct (call_exchange slaveID k Hvalid)
    as (pdu & decode & Hpdu & _ & Hrun & _ & _ & Hecho).
  specialize (Hecho Hwrite). exists pdu. split; [done|].
  split; [|split; [|done]].
  - intros c' response Hsend. rewrite Hrun.
    rewrite (bind_Ok _ _ _ _ _ Hsend), Hecho.
    destruct (echo_rejected (call_code k) response) eqn:E.
    + rewrite decide_False; [done|].
      intros H. apply echo_rejected_spec in H. congruence.
    + rewrite decide_True; [done|]. by apply echo_rejected_spec.
  - intros c' Hok. rewrite Hrun in Hok. unfold mbind, M_bind in Hok.
    destruct (sendRequest slaveID pdu c) as [c1 [response| |]]; try done.
    rewrite Hecho in Hok.
    destruct (echo_rejected (call_code k) response) eqn:E; [done|].
    injection Hok as ->. exists response.
    by apply echo_rejected_spec in E as [? ?].
Qed.

(** The register write of value 0x1234 at address 7 succeeds on the echo
    06 00 09 FF FF, which names address 9 and value 0xFFFF. *)
Lemma write_echo_check_example :
  run_call 1 (CallWriteSingleRegister 7 0x1234)
    (mkClient (mkConn [[0; 1; 0; 0; 0; 6; 1]; [6; 0; 9; 255; 255]] false []) 0)
  = (mkClient (mkConn [] false
                 [EvSetWriteDeadline;
                  EvWrite [0; 1; 0; 0; 0; 6; 1; 6; 0; 7; 0x12; 0x34];
                  EvSetReadDeadline; EvRead 7; EvRead 5]) 1,
     Ok VNil).
Proof.
  destruct (write_echo_check 1 (CallWriteSingleRegister 7 0x1234)
              (mkClient (mkConn [[0; 1; 0; 0; 0; 6; 1]; [6; 0; 9; 255; 255]]
                                false []) 0) eq_refl I)
    as (pdu & Hpdu & Hrun & _).
  injection Hpdu as <-.
  exact (Hrun _ [6; 0; 9; 255; 255] eq_refl).
Defined.

(** C3 as stated fails: the write of 0x1234 to register 7, whose request
    PDU is 06 00 07 12 34, succeeds on the response 06 00 09 FF FF. *)
Lemma write_echo_fields_unchecked :
  request_pdu FuncCodeWriteSingleRegister 7 0x1234 = Some [6; 0; 7; 0x12; 0x34]
  /\ (sendRequest 1 [6; 0; 7; 0x12; 0x34]
        (mkClient (mkConn [[0; 1; 0; 0; 0; 6; 1]; [6; 0; 9; 255; 255]] false []) 0)).2
     = Ok [6; 0; 9; 255; 255]
  /\ (WriteSingleRegister 1 7 0x1234
        (mkClient (mkConn [[0; 1; 0; 0; 0; 6; 1]; [6; 0; 9; 255; 255]] false []) 0)).2
     = Ok tt.
Proof. repeat split; vm_compute; reflexivity. Qed.

(** ** Exception responses *)

(** C7, as the code has it.  When the response to a call with valid
    arguments arrives whole and its PDU has at least two bytes, the first
    of them 0x80 or more, the exchange and the call return the
    Protocol-Exception error made of the first byte without its top bit and
    of the second byte; no typed data is returned. *)
Theorem exception_response (slaveID unitID : Z) (k : call) (c : Client)
    (d0 d1 : Z) (more : list Z) (rest : list (list Z))
    (Hvalid : call_valid k)
    (Hopen : closed (conn c) = false)
    (Hin : incoming (conn c) =
           response_header (uint16_of (transactionID c + 1)) unitID
                           (d0 :: d1 :: more)
           :: (d0 :: d1 :: more) :: rest)
    (Hlen : Z.of_nat (length (d0 :: d1 :: more)) < 65535)
    (Htop : 0x80 <= d0) :
  (forall pdu,
     (sendRequest slaveID pdu c).2 = Err (ModbusError (Z.land d0 0x7F) d1))
  /\ (run_call slaveID k c).2 = Err (ModbusError (Z.land d0 0x7F) d1)
  /\ kind_of (ModbusError (Z.land d0 0x7F) d1) = ProtocolException.
Proof.
  assert (forall pdu,
    (sendRequest slaveID pdu c).2 = Err (ModbusError (Z.land d0 0x7F) d1))
    as Hsend.
  { intros pdu. rewrite sendRequest_open by done.
    erewrite receive_response; [|done|exact Hin|apply uint16_of_range|done|done].
    simpl. by rewrite (proj2 (Z.leb_le 128 d0)). }
  split; [done|]. split; [|done].
  destruct (call_exchange slaveID k Hvalid) as (pdu & decode & _ & _ & Hrun & _).
  rewrite Hrun. specialize (Hsend pdu). unfold mbind, M_bind.
  destruct (sendRequest slaveID pdu c) as [c' [r|e|]]; simpl in *; congruence.
Qed.

(** The response 83 02 to a read of holding registers. *)
Lemma exception_response_example :
  (run_call 1 (CallReadHoldingRegisters 0 5)
     (mkClient (mkConn [[0; 1; 0; 0; 0; 3; 1]; [0x83; 0x02]] false []) 0)).2
  = Err (ModbusError 0x03 0x02).
Proof.
  refine (proj1 (proj2 (exception_response 1 1 (CallReadHoldingRegisters 0 5)
    (mkClient (mkConn [[0; 1; 0; 0; 0; 3; 1]; [0x83; 0x02]] false []) 0)
    0x83 0x02 [] [] _ eq_refl eq_refl _ _))).
  - simpl. lia.
  - simpl. lia.
  - lia.
Defined.

(** C7 as stated fails: a response PDU of the single byte 0x83 is returned
    by the exchange as data, and the read that asked reports a malformed
    response, not a Protocol-Exception. *)
Lemma one_byte_exception_not_reported :
  (sendRequest 1 [3; 0; 0; 0; 5]
     (mkClient (mkConn [[0; 1; 0; 0; 0; 2; 1]; [0x83]] false []) 0)).2
  = Ok [0x83]
  /\ (ReadHoldingRegisters 1 0 5
        (mkClient (mkConn [[0; 1; 0; 0; 0; 2; 1]; [0x83]] false []) 0)).2
     = Err ErrInvalidResponseLength
  /\ kind_of ErrInvalidResponseLength = MalformedResponse.
Proof. repeat split; vm_compute; reflexivity. Qed.

(** ** A header that announces length 0 *)

(** C10.  When the header of the response carries the right correlation
    id and the length 0, the body size is computed as 0 - 1 = 65535 in
    [uint16] and the exchange goes on to read a 65535-byte body: the calls
    it makes on the connection end with that read, the data it returns, if
    any, is 65535 bytes long, and whatever error it returns is not a
    Malformed-Response error. *)
Theorem zero_length_header (slaveID unitID : Z) (pdu : list Z) (c : Client)
    (rest : list (list Z))
    (Hopen : closed (conn c) = false)
    (Hin : incoming (conn c) =
           [byte_of (Z.shiftr (uint16_of (transactionID c + 1)) 8);
            byte_of (uint16_of (transactionID c + 1)); 0; 0; 0; 0; unitID]
           :: rest) :
  dataLength [byte_of (Z.shiftr (uint16_of (transactionID c + 1)) 8);
              byte_of (uint16_of (transactionID c + 1)); 0; 0; 0; 0; unitID]
  = Some 65535
  /\ trace (conn (sendRequest slaveID pdu c).1) =
     trace (conn c)
     ++ [EvSetWriteDeadline;
         EvWrite (frame (uint16_of (transactionID c + 1)) slaveID pdu);
         EvSetReadDeadline; EvRead 7; EvRead (Z.to_nat 65535)]
  /\ (forall data, (sendRequest slaveID pdu c).2 = Ok data ->
                   Z.of_nat (length data) = 65535)
  /\ (forall e, (sendRequest slaveID pdu c).2 = Err e ->
                kind_of e <> MalformedResponse).
Proof.
  split; [reflexivity|].
  rewrite sendRequest_open by done.
  set (tid := uint16_of (transactionID c + 1)) in *.
  set (header := [byte_of (Z.shiftr tid 8); byte_of tid; 0; 0; 0; 0; unitID]) in *.
  unfold receive. run_M. simpl conn.
  change 7%nat with (length header).
  rewrite (conn_Read_segment header rest); [|done|done|done].
  simpl fst; simpl snd. run_M.
  rewrite word_of_bytes by apply uint16_of_range.
  rewrite Z.eqb_refl. cbn [negb]. run_M.
  change (uint16_of (Z.lor 0 (Z.shiftl 0 8) - 1)) with 65535. cbn [conn].
  set (k1 := mkConn rest false _).
  pose proof (trace_Read (Z.to_nat 65535) k1) as T.
  pose proof (filled_length (Z.to_nat 65535) (conn_Read (Z.to_nat 65535) k1).2.1) as L.
  destruct (conn_Read (Z.to_nat 65535) k1) as [k2 [got ok]].
  simpl fst in *; simpl snd in *.
  assert (trace k2 =
          trace (conn c)
          ++ [EvSetWriteDeadline; EvWrite (frame tid slaveID pdu);
              EvSetReadDeadline; EvRead (length header);
              EvRead (Z.to_nat 65535)]) as T'.
  { rewrite T. unfold k1, sent, log. cbn [trace].
    rewrite <- !app_assoc. done. }
  destruct ok; cbn [negb]; run_M.
  - destruct (filled (Z.to_nat 65535) got) as [|d0 [|d1 ds]] eqn:E;
      [|
       |destruct (128 <=? d0)];
      (split; [exact T'|]); (split; [intros data [= <-]; lia | by intros e [= <-]]).
  - split; [exact T'|]. split; [done|by intros e [= <-]].
Qed.

(** A device that answers the first request with a header of length 0 and
    nothing more. *)
Lemma zero_length_header_example :
  trace (conn (sendRequest 1 [3; 0; 0; 0; 5]
                 (mkClient (mkConn [[0; 1; 0; 0; 0; 0; 1]] false []) 0)).1)
  = [EvSetWriteDeadline; EvWrite [0; 1; 0; 0; 0; 6; 1; 3; 0; 0; 0; 5];
     EvSetReadDeadline; EvRead 7; EvRead (Z.to_nat 65535)].
Proof.
  exact (proj1 (proj2 (zero_length_header 1 1 [3; 0; 0; 0; 5]
    (mkClient (mkConn [[0; 1; 0; 0; 0; 0; 1]] false []) 0) [] eq_refl eq_refl))).
Defined.

(** ** The function codes the client sends *)

Lemma pack_coils_low values : forall pdu base i pdu' j,
  pack_coils pdu base i values = Some pdu' ->
  (j < base)%nat -> pdu' !! j = pdu !! j.
Proof.
  induction values as [|value rest IH]; intros pdu base i pdu' j Hrun Hj.
  - by injection Hrun as <-.
  - cbn [pack_coils] in Hrun. destruct value.
    + destruct (pdu !! (base + i / 8)%nat) as [b|]; [|done].
      cbn [mbind option_bind] in Hrun. unfold store in Hrun.
      destruct (decide (base + i / 8 < length pdu)%nat); [|done].
      cbn [mbind option_bind] in Hrun.
      rewrite (IH _ _ _ _ _ Hrun Hj). apply list_lookup_insert_ne. lia.
    + exact (IH _ _ _ _ _ Hrun Hj).
Qed.

Lemma pack_registers_low values : forall pdu i pdu' j,
  pack_registers pdu i values = Some pdu' ->
  (j < 6)%nat -> pdu' !! j = pdu !! j.
Proof.
  induction values as [|value rest IH]; intros pdu i pdu' j Hrun Hj.
  - by injection Hrun as <-.
  - cbn [pack_registers] in Hrun. unfold PutUint16 in Hrun.
    destruct (decide (6 + i * 2 + 2 <= length pdu)%nat); [|done].
    cbn [mbind option_bind] in Hrun.
    rewrite (IH _ _ _ _ Hrun Hj).
    rewrite !list_lookup_insert_ne by lia. done.
Qed.

Lemma write_header_code fc address quantity byteCount pdu :
  write_header fc address quantity byteCount = Some pdu ->
  pdu !! 0%nat = Some fc.
Proof.
  unfold write_header, store, PutUint16.
  set (buf := make _).
  destruct (decide (0 < length buf)%nat) as [H0|]; [|done].
  cbn [mbind option_bind]. rewrite !length_insert.
  destruct (decide (1 + 2 <= length buf)%nat); [|done].
  cbn [mbind option_bind]. rewrite !length_insert.
  destruct (decide (3 + 2 <= length buf)%nat); [|done].
  cbn [mbind option_bind]. rewrite !length_insert.
  destruct (decide (5 < length buf)%nat); [|done].
  intros [= <-].
  rewrite !list_lookup_insert_ne by lia.
  by apply list_lookup_insert_eq.
Qed.

Lemma call_request_code k pdu :
  call_request k = Some pdu -> pdu !! 0%nat = Some (call_code k).
Proof.
  destruct k as [a q|a q|a q|a v|a v|a vs|a vs]; cbn [call_request call_code];
    try (rewrite request_pdu_bytes; by intros [= <-]).
  - unfold WriteMultipleCoils_pdu.
    destruct (write_header _ _ _ _) as [hdr|] eqn:Hh; [|done].
    cbn [mbind option_bind]. intros Hrun.
    rewrite (pack_coils_low _ _ _ _ _ 0%nat Hrun) by lia.
    by eapply write_header_code.
  - unfold WriteMultipleRegisters_pdu.
    destruct (write_header _ _ _ _) as [hdr|] eqn:Hh; [|done].
    cbn [mbind option_bind]. intros Hrun.
    rewrite (pack_registers_low _ _ _ _ 0%nat Hrun) by lia.
    by eapply write_header_code.
Qed.

(** A call either returns before any I/O or makes one exchange of the PDU
    it built. *)
Lemma run_call_client slaveID k c :
  (run_call slaveID k c).1 = c
  \/ exists pdu,
       call_request k = Some pdu
       /\ (run_call slaveID k c).1 = (sendRequest slaveID pdu c).1.
Proof.
  destruct k as [a q|a q|a q|a v|a v|a vs|a vs]; cbn [run_call call_request];
    (rewrite bind_fst by (intros; apply pure_ret)).
  - unfold ReadCoils. destruct ((q =? 0) || (2000 <? q)).
    + left. by rewrite reject_bind.
    + right. rewrite request_pdu_bytes. run_M. eexists. split; [done|].
      apply bind_fst. intros r. auto 10 with pureM.
  - unfold ReadHoldingRegisters, read_registers.
    destruct ((q =? 0) || (125 <? q)).
    + left. by rewrite reject_bind.
    + right. rewrite request_pdu_bytes. run_M. eexists. split; [done|].
      apply bind_fst. intros r. auto 10 with pureM.
  - unfold ReadInputRegisters, read_registers.
    destruct ((q =? 0) || (125 <? q)).
    + left. by rewrite reject_bind.
    + right. rewrite request_pdu_bytes. run_M. eexists. split; [done|].
      apply bind_fst. intros r. auto 10 with pureM.
  - right. unfold WriteSingleCoil. rewrite request_pdu_bytes. run_M.
    eexists. split; [done|]. apply bind_fst. intros r. auto with pureM.
  - right. unfold WriteSingleRegister. rewrite request_pdu_bytes. run_M.
    eexists. split; [done|]. apply bind_fst. intros r. auto with pureM.
  - unfold WriteMultipleCoils.
    destruct ((_ =? 0) || (1968 <? _)); [left; by rewrite reject_bind|].
    run_M. destruct (WriteMultipleCoils_pdu a vs) as [pdu|].
    + right. run_M. eexists. split; [done|].
      apply bind_fst. intros r. auto with pureM.
    + left. reflexivity.
  - unfold WriteMultipleRegisters.
    destruct ((_ =? 0) || (123 <? _)); [left; by rewrite reject_bind|].
    run_M. destruct (WriteMultipleRegisters_pdu a vs) as [pdu|].
    + right. run_M. eexists. split; [done|].
      apply bind_fst. intros r. auto with pureM.
    + left. reflexivity.
Qed.

(** C4 fails on the code.  Whatever typed operation is called with
    whatever arguments, the frames it writes carry a function code (byte 7
    of the frame) other than 0x02: the client has no read-discrete-inputs
    operation; and the batch executor knows no such operation either. *)
Theorem no_read_discrete_inputs (slaveID : Z) (k : call) (c : Client) :
  (exists frames,
     written (conn (run_call slaveID k c).1) = written (conn c) ++ frames
     /\ Forall (fun f => f !! 7%nat = Some (call_code k)) frames
     /\ call_code k <> FuncCodeReadDiscreteInputs)
  /\ (forall s a v q,
        execute_one (mkBatchOperation "read_discrete_inputs" s a v q) c
        = (c, Ok (mkBatchResult "read_discrete_inputs" VNil
                    (Some (ErrUnknownOperation "read_discrete_inputs"))))).
Proof.
  split; [|done].
  assert (call_code k <> FuncCodeReadDiscreteInputs) as Hcode
    by (by destruct k).
  destruct (run_call_client slaveID k c) as [->|(pdu & Hpdu & ->)].
  { exists []. by rewrite app_nil_r. }
  destruct (closed (conn c)) eqn:Hc.
  - exists []. rewrite sendRequest_closed by done. simpl.
    rewrite written_log. done.
  - exists [frame (uint16_of (transactionID c + 1)) slaveID pdu].
    rewrite sendRequest_written by done. split; [done|]. split; [|done].
    constructor; [|done]. by apply call_request_code.
Qed.

(** ** Batch execution *)

(** An item never makes the batch return an error: its error is stored. *)
Lemma execute_one_stores op c :
  (exists result, (execute_one op c).2 = Ok result
                  /\ ResOperation result = Operation op)
  \/ (execute_one op c).2 = Panic.
Proof.
  unfold execute_one, stored, stored_error.
  repeat case_match; simpl; eauto.
Qed.

(** If the batch returns, it returns one outcome per item, in order. *)
Lemma ExecuteBatch_results operations : forall c results,
  (ExecuteBatch operations c).2 = Ok results ->
  length results = length operations
  /\ ResOperation <$> results = Operation <$> operations.
Proof.
  induction operations as [|op rest IH]; intros c results.
  - by intros [= <-].
  - cbn [ExecuteBatch]. unfold mbind at 1, M_bind at 1.
    destruct (execute_one_stores op c) as [(result & Hr & Hop)|Hp].
    + destruct (execute_one op c) as [c1 o1]; simpl in Hr; subst o1.
      unfold mbind, M_bind. specialize (IH c1).
      destruct (ExecuteBatch rest c1) as [c2 [rs| |]]; simpl in *; try done.
      intros [= <-]. destruct (IH rs eq_refl) as [Hl Hn].
      cbn [length fmap list_fmap]. split; [by rewrite Hl|].
      f_equal; [done|exact Hn].
    + destruct (execute_one op c) as [c1 o1]; simpl in Hp; by subst o1.
Qed.

Lemma ExecuteBatch_never_errors operations : forall c e,
  (ExecuteBatch operations c).2 <> Err e.
Proof.
  induction operations as [|op rest IH]; intros c e; [done|].
  cbn [ExecuteBatch]. unfold mbind at 1, M_bind at 1.
  destruct (execute_one_stores op c) as [(result & Hr & Hop)|Hp].
  - destruct (execute_one op c) as [c1 o1]; simpl in Hr; subst o1.
    unfold mbind, M_bind. specialize (IH c1).
    by destruct (ExecuteBatch rest c1) as [c2 [rs|e'|]]; simpl in *.
  - destruct (execute_one op c) as [c1 o1]; simpl in Hp; by subst o1.
Qed.

(** A value list of the wrong type and an unknown operation are recorded
    in the item's outcome without any I/O. *)
Lemma execute_one_invalid c s a q :
  execute_one (mkBatchOperation "write_registers" s a (VBools [true]) q) c
  = (c, Ok (mkBatchResult "write_registers" VNil
              (Some (ErrInvalidValuesType "write_registers"))))
  /\ execute_one (mkBatchOperation "write_coils" s a (VUint16s [1]) q) c
     = (c, Ok (mkBatchResult "write_coils" VNil
                 (Some (ErrInvalidValuesType "write_coils"))))
  /\ execute_one (mkBatchOperation "read_discrete" s a VNil q) c
     = (c, Ok (mkBatchResult "read_discrete" VNil
                 (Some (ErrUnknownOperation "read_discrete")))).
Proof. done. Qed.

(** The register reads compare the byte count of the response with the
    quantity asked for before they index the response, and so never
    panic. *)
Lemma read_registers_no_panic fc slaveID address quantity c :
  0 <= quantity -> (read_registers fc slaveID address quantity c).2 <> Panic.
Proof.
  intros Hq. unfold read_registers.
  destruct ((quantity =? 0) || (125 <? quantity)) eqn:Hg;
    [by rewrite reject_bind|].
  assert (1 <= quantity <= 125) as Hr by lia.
  rewrite request_pdu_bytes. run_M. unfold mbind at 1, M_bind at 1.
  pose proof (sendRequest_no_panic slaveID
    [fc; byte_of (Z.shiftr address 8); byte_of address;
     byte_of (Z.shiftr quantity 8); byte_of quantity] c) as Hs.
  destruct (sendRequest _ _ c) as [c' [response|e|]]; try done.
  destruct (Z.of_nat (length response) <? 2) eqn:Hl; [by rewrite reject_bind|].
  run_M. apply Z.ltb_ge in Hl.
  destruct response as [|r0 [|r1 body]]; cbn [length] in Hl; try (exfalso; lia).
  change ((r0 :: r1 :: body) !! 1%nat) with (Some r1). run_M.
  destruct (negb (r1 =? _) || negb (_ =? byte_of (2 + r1))) eqn:Hc;
    [by rewrite reject_bind|].
  run_M. apply orb_false_iff in Hc as [H1 H2].
  apply negb_false_iff, Z.eqb_eq in H1, H2.
  unfold byte_of, uint16_of in H1, H2.
  rewrite (Z.mod_small (quantity * 2) 65536) in H1 by lia.
  rewrite (Z.mod_small (quantity * 2) 256) in H1 by lia. subst r1.
  rewrite (Z.mod_small (2 + quantity * 2) 256) in H2 by lia.
  set (response := r0 :: quantity * 2 :: body) in *.
  assert (Z.of_nat (length response) = 2 + quantity * 2) as Hlen by exact H2.
  clearbody response.
  assert (is_Some (unpack_registers response (Z.to_nat quantity))) as [v ->];
    [|done].
  apply mapM_is_Some, Forall_forall. intros i Hi.
  apply elem_of_seq in Hi. unfold compose, Uint16.
  assert (2 + i * 2 < length response)%nat as L1 by lia.
  assert (S (2 + i * 2) < length response)%nat as L2 by lia.
  destruct (lookup_lt_is_Some_2 _ _ L1) as [b0 ->].
  destruct (lookup_lt_is_Some_2 _ _ L2) as [b1 ->]. simpl. eauto.
Qed.

(** C9 fails on the code.  A batch of a read of 16 coils and a read of a
    holding register, against a device that answers the first with a byte
    count of one: [ReadCoils] checks the count against the length of the
    response but not against the quantity, indexes past the response at
    coil 8, and the panic ends the batch; no outcome is returned and the
    second item is never sent. *)
Theorem batch_aborted_by_panic :
  ExecuteBatch
    [mkBatchOperation "read_coils" 1 0 VNil 16;
     mkBatchOperation "read_holding" 1 0 VNil 1]
    (mkClient (mkConn [[0; 1; 0; 0; 0; 4; 1]; [1; 1; 0xFF];
                       [0; 2; 0; 0; 0; 5; 1]; [3; 2; 0; 42]] false []) 0)
  = (mkClient (mkConn [[0; 2; 0; 0; 0; 5; 1]; [3; 2; 0; 42]] false
                 [EvSetWriteDeadline;
                  EvWrite [0; 1; 0; 0; 0; 6; 1; 1; 0; 0; 0; 16];
                  EvSetReadDeadline; EvRead 7; EvRead 3]) 1,
     Panic).
Proof. vm_compute. reflexivity. Qed.

(** ** The connection pool *)

Lemma Get_capacity p w p' w' o :
  Get p w = (p', w', o) -> within_capacity p ->
  within_capacity p' /\ pool_cap p' = pool_cap p.
Proof.
  unfold Get, within_capacity. intros H Hcap.
  destruct (pool p) as [|client rest] eqn:Hp.
  - destruct (pool_closed p); injection H as <- <- <-; rewrite Hp; simpl; lia.
  - injection H as <- <- <-. simpl in *. lia.
Qed.

Lemma Put_capacity client p w p' w' o :
  Put client p w = (p', w', o) -> within_capacity p ->
  within_capacity p' /\ pool_cap p' = pool_cap p.
Proof.
  unfold Put, within_capacity. intros H Hcap.
  destruct (pool_closed p); [by injection H as <- <- <-|].
  destruct (decide (length (pool p) < pool_cap p)%nat).
  - injection H as <- <- <-. simpl. rewrite length_app. simpl. lia.
  - destruct (Client_Close client w); by injection H as <- <- <-.
Qed.

(** The loop of [Close] leaves in the channel what it has not received. *)
Lemma close_all_rest clients : forall w rest w' o,
  close_all clients w = (rest, w', o) -> (length rest <= length clients)%nat.
Proof.
  induction clients as [|client clients IH]; intros w rest w' o H;
    cbn [close_all] in H.
  - by injection H as <- <- <-.
  - destruct (Client_Close client w) as [w1|].
    + apply IH in H. simpl. lia.
    + injection H as <- <- <-. simpl. lia.
Qed.

Lemma Pool_Close_capacity p w p' w' o :
  Pool_Close p w = (p', w', o) -> within_capacity p ->
  within_capacity p' /\ pool_cap p' = pool_cap p.
Proof.
  unfold Pool_Close, within_capacity. intros H Hcap.
  destruct (pool_closed p); [by injection H as <- <- <-|].
  destruct (close_all (pool p) w) as [[rest w1] o1] eqn:E.
  injection H as <- <- <-. apply close_all_rest in E. simpl. lia.
Qed.

Lemma pool_step_capacity s s' :
  pool_step s s' -> within_capacity s.1 ->
  within_capacity s'.1 /\ pool_cap s'.1 = pool_cap s.1.
Proof.
  intros [p w p' w' o H|client p w p' w' o H|p w p' w' o H]; simpl.
  - by eapply Get_capacity.
  - by eapply Put_capacity.
  - by eapply Pool_Close_capacity.
Qed.

(** No sequence of calls takes the channel past its capacity. *)
Lemma pool_steps_capacity s s' :
  rtc pool_step s s' -> within_capacity s.1 ->
  within_capacity s'.1 /\ pool_cap s'.1 = pool_cap s.1.
Proof.
  induction 1 as [s|s1 s2 s3 Hstep _ IH]; intros Hcap; [done|].
  destruct (pool_step_capacity _ _ Hstep Hcap) as [H2 E2].
  destruct (IH H2) as [H3 E3]. split; [done|congruence].
Qed.

Lemma create_connections_capacity n : forall i p w p' w',
  create_connections n i p w = (p', w', Ok tt) ->
  length (pool p') = (length (pool p) + n)%nat /\ pool_cap p' = pool_cap p.
Proof.
  induction n as [|n IH]; intros i p w p' w' H; simpl in H.
  - injection H as <- <-. lia.
  - destruct (NewClient w) as [w1 [client|e|]].
    + apply IH in H as [Hl Hc]. simpl in *. rewrite length_app in Hl.
      simpl in Hl. lia.
    + destruct (Pool_Close p w1) as [[p1 w2] [?|?|]]; done.
    + done.
Qed.

(** A pool is created with its channel full. *)
Lemma NewConnectionPool_capacity maxConnections w0 w p :
  NewConnectionPool maxConnections w0 = (w, Ok p) ->
  pool_cap p = Z.to_nat (if maxConnections <=? 0 then 10 else maxConnections)
  /\ length (pool p) = pool_cap p.
Proof.
  unfold NewConnectionPool. intros H.
  destruct (create_connections _ _ _ _) as [[p1 w1] [[]|e|]] eqn:Hc; try done.
  injection H as <- <-.
  apply create_connections_capacity in Hc as [Hl Hcap]. simpl in *.
  split; [done|]. by rewrite Hl, Hcap.
Qed.

(** A client released when the channel is full is closed, and the channel
    is left as it is. *)
Lemma Put_full a cl p w :
  pool_closed p = false -> length (pool p) = pool_cap p ->
  heap w !! a = Some cl ->
  Put (Some a) p w =
  (p, mkWorld (<[a := closed_client cl]> (heap w)) (dials w), Ok tt).
Proof.
  intros Hopen Hfull Hcl. unfold Put. rewrite Hopen.
  rewrite decide_False by lia.
  unfold Client_Close. simpl. rewrite Hcl. done.
Qed.

(** C8.  In every state a pool created by [NewConnectionPool] can reach by
    calls of [Get], [Put] and [Close], in any order and with any client
    passed to [Put] (one never acquired, or one already released), the
    channel has the capacity the pool was created with and holds no more
    clients than that; and releasing an existing client when the channel
    is full closes the client and leaves the channel as it is. *)
Theorem pool_capacity (maxConnections : Z) (w0 w w' : World)
    (p p' : ConnectionPool)
    (Hnew : NewConnectionPool maxConnections w0 = (w, Ok p))
    (Hcalls : rtc pool_step (p, w) (p', w')) :
  pool_cap p' = Z.to_nat (if maxConnections <=? 0 then 10 else maxConnections)
  /\ (length (pool p') <= pool_cap p')%nat
  /\ (forall a cl,
        pool_closed p' = false -> length (pool p') = pool_cap p' ->
        heap w' !! a = Some cl ->
        Put (Some a) p' w' =
        (p', mkWorld (<[a := closed_client cl]> (heap w')) (dials w'), Ok tt)
        /\ closed (conn (closed_client cl)) = true).
Proof.
  destruct (NewConnectionPool_capacity _ _ _ _ Hnew) as [Hcap Hfull].
  destruct (pool_steps_capacity _ _ Hcalls) as [Hin Heq].
  { unfold within_capacity. simpl. lia. }
  simpl in *. split; [congruence|]. split; [exact Hin|].
  intros a cl Hopen Hlen Hcl. split; [|done]. by apply Put_full.
Qed.

(** A pool of one connection whose client, still in the channel, has
    been released once more and is released again. *)
Lemma pool_capacity_example :
  (length (pool (mkPool [Some 0%nat] 1 false 1)) <= 1)%nat
  /\ Put (Some 0%nat) (mkPool [Some 0%nat] 1 false 1)
         (mkWorld [mkClient (mkConn [] true [EvClose]) 0] [])
     = (mkPool [Some 0%nat] 1 false 1,
        mkWorld [mkClient (mkConn [] true [EvClose; EvClose]) 0] [],
        Ok tt).
Proof.
  pose proof (pool_capacity 1
    (mkWorld [] [Some (mkConn [] false [])])
    (mkWorld [mkClient (mkConn [] false []) 0] [])
    (mkWorld [mkClient (mkConn [] true [EvClose]) 0] [])
    (mkPool [Some 0%nat] 1 false 1) (mkPool [Some 0%nat] 1 false 1)
    eq_refl
    (rtc_once _ _
       (step_Put (Some 0%nat)
          (mkPool [Some 0%nat] 1 false 1)
          (mkWorld [mkClient (mkConn [] false []) 0] [])
          (mkPool [Some 0%nat] 1 false 1)
          (mkWorld [mkClient (mkConn [] true [EvClose]) 0] [])
          (Ok tt) eq_refl))) as H.
  split; [exact (proj1 (proj2 H))|].
  exact (proj1 (proj2 (proj2 H) 0%nat
                  (mkClient (mkConn [] true [EvClose]) 0)
                  eq_refl eq_refl eq_refl)).
Defined.

(** * Further properties of the exchange *)

Lemma transactionID_receive tid c :
  transactionID (receive tid c).1 = transactionID c.
Proof.
  unfold receive. rewrite on_conn_bind.
  destruct (conn_Read 7 (conn c)) as [k [got []]]; simpl in *; [|done].
  run_M.
  destruct (Uint16 _ 0) as [t|]; [run_M|done].
  destruct (t =? tid); simpl; [run_M|done].
  destruct (dataLength _) as [n|]; [run_M|done].
  simpl.
  destruct (conn_Read (Z.to_nat n) k) as [k' [got' []]]; simpl in *; [|done].
  run_M.
  destruct (filled _ got') as [|d0 [|d1 ?]]; simpl; try done.
  by destruct (128 <=? d0).
Qed.

(** X1.  Every exchange, whatever its outcome (closed connection, timeout,
    mismatch, exception, success), leaves the transaction id of the client
    at the old one plus one modulo 65536: ids run 1, 2, ... on a fresh
    client and 65535 is followed by 0. *)
Theorem exchange_increments_transactionID (slaveID : Z) (pdu : list Z)
    (c : Client) :
  transactionID (sendRequest slaveID pdu c).1 = (transactionID c + 1) mod 65536
  /\ (transactionID c = 65535 -> transactionID (sendRequest slaveID pdu c).1 = 0)
  /\ (0 <= transactionID c < 65535 ->
      transactionID (sendRequest slaveID pdu c).1 = transactionID c + 1).
Proof.
  assert (transactionID (sendRequest slaveID pdu c).1
          = (transactionID c + 1) mod 65536) as H.
  { destruct (closed (conn c)) eqn:Hc.
    - by rewrite sendRequest_closed.
    - rewrite sendRequest_open by done. by rewrite transactionID_receive. }
  split; [done|]. rewrite H. split.
  - by intros ->.
  - intros Hr. apply Z.mod_small. lia.
Qed.

(** A header that arrives whole, with any protocol and unit bytes. *)
Lemma conn_Read_header h0 h1 h2 h3 h4 h5 h6 rest k :
  closed k = false ->
  incoming k = [h0; h1; h2; h3; h4; h5; h6] :: rest ->
  conn_Read 7 k =
  (mkConn rest false (trace k ++ [EvRead 7]), ([h0; h1; h2; h3; h4; h5; h6], true)).
Proof.
  intros Hopen Hin.
  exact (conn_Read_segment [h0; h1; h2; h3; h4; h5; h6] rest k Hopen
           ltac:(done) Hin).
Qed.

Lemma receive_whole tid p0 p1 unitID body rest c :
  closed (conn c) = false ->
  incoming (conn c) =
    [byte_of (Z.shiftr tid 8); byte_of tid; p0; p1;
     byte_of (Z.shiftr (Z.of_nat (length body) + 1) 8);
     byte_of (Z.of_nat (length body) + 1); unitID] :: body :: rest ->
  is_uint16 tid -> body <> [] -> Z.of_nat (length body) < 65535 ->
  receive tid c =
  (mkClient (mkConn rest false
                    (trace (conn c) ++ [EvRead 7; EvRead (length body)]))
            (transactionID c),
   decoded body).
Proof.
  intros Hopen Hin Htid Hbody Hlen. unfold receive.
  rewrite on_conn_bind.
  rewrite (conn_Read_header _ _ _ _ _ _ _ (body :: rest)) by done.
  cbn [fst snd negb]. run_M.
  change (filled 7 ?h) with h.
  unfold Uint16 at 1. cbn [lookup list_lookup mbind option_bind].
  rewrite word_of_bytes by done. run_M.
  rewrite Z.eqb_refl. cbn [negb]. run_M.
  unfold dataLength, Uint16. cbn [lookup list_lookup mbind option_bind].
  rewrite word_of_bytes by (unfold is_uint16; lia).
  replace (Z.of_nat (length body) + 1 - 1) with (Z.of_nat (length body)) by lia.
  rewrite uint16_of_small by (unfold is_uint16; lia).
  run_M. rewrite Nat2Z.id. cbn [conn].
  rewrite (conn_Read_segment body rest) by done. cbn [fst snd negb].
  run_M. rewrite filled_exact. cbn [trace]. rewrite <- app_assoc.
  cbn [app]. unfold decoded. destruct body as [|d0 [|d1 ?]]; try done.
  by destruct (128 <=? d0).
Qed.

(** X2.  When the response header arrives whole on an open connection
    and carries an id other than the one just sent, the exchange fails,
    whatever the other bytes of the header are, with the mismatch error
    that names both ids.  It has read the header and nothing more: the PDU
    of that response is still in the stream for the next exchange to
    find. *)
Theorem correlation_mismatch (slaveID : Z) (pdu : list Z) (c : Client)
    (got p0 p1 l0 l1 unitID : Z) (rest : list (list Z))
    (Hopen : closed (conn c) = false)
    (Hgot : is_uint16 got)
    (Hne : got <> (transactionID c + 1) mod 65536)
    (Hin : incoming (conn c) =
           [byte_of (Z.shiftr got 8); byte_of got; p0; p1; l0; l1; unitID]
           :: rest) :
  sendRequest slaveID pdu c =
  (mkClient
     (mkConn rest false
        (trace (conn c)
         ++ [EvSetWriteDeadline;
             EvWrite (frame ((transactionID c + 1) mod 65536) slaveID pdu);
             EvSetReadDeadline; EvRead 7]))
     ((transactionID c + 1) mod 65536),
   Err (ErrTransactionMismatch ((transactionID c + 1) mod 65536) got))
  /\ kind_of (ErrTransactionMismatch ((transactionID c + 1) mod 65536) got)
     = CorrelationMismatch.
Proof.
  split; [|done]. rewrite sendRequest_open by done.
  fold (uint16_of (transactionID c + 1)) in *.
  set (tid := uint16_of (transactionID c + 1)) in *.
  unfold receive. rewrite on_conn_bind.
  rewrite (conn_Read_header _ _ _ _ _ _ _ rest) by done.
  cbn [fst snd negb]. run_M.
  change (filled 7 ?h) with h.
  unfold Uint16 at 1. cbn [lookup list_lookup mbind option_bind].
  rewrite word_of_bytes by done. run_M.
  replace (got =? tid) with false by (symmetry; by apply Z.eqb_neq).
  cbn [negb]. rewrite reject_bind. unfold sent, log. cbn [trace conn].
  by rewrite <- !app_assoc.
Qed.

Lemma correlation_mismatch_example :
  sendRequest 1 [3; 0; 0; 0; 5]
    (mkClient (mkConn [[0; 9; 0; 0; 0; 3; 1]; [3; 0]] false []) 0)
  = (mkClient
       (mkConn [[3; 0]] false
          [EvSetWriteDeadline; EvWrite [0; 1; 0; 0; 0; 6; 1; 3; 0; 0; 0; 5];
           EvSetReadDeadline; EvRead 7]) 1,
     Err (ErrTransactionMismatch 1 9)).
Proof.
  refine (proj1 (correlation_mismatch 1 [3; 0; 0; 0; 5]
    (mkClient (mkConn [[0; 9; 0; 0; 0; 3; 1]; [3; 0]] false []) 0)
    9 0 0 0 3 1 [[3; 0]] eq_refl _ _ eq_refl)).
  - unfold is_uint16. lia.
  - simpl. lia.
Defined.

(** X3.  A response that arrives whole on an open connection, with the id
    just sent and a length field of the PDU length plus one, is returned
    as it is when its first byte is below 0x80, and exactly the header and
    the PDU are taken from the stream.  The protocol bytes and the unit
    byte of the response header are not looked at. *)
Theorem exchange_returns_response (slaveID : Z) (pdu : list Z) (c : Client)
    (p0 p1 unitID d0 : Z) (more : list Z) (rest : list (list Z))
    (Hopen : closed (conn c) = false)
    (Hlen : Z.of_nat (length (d0 :: more)) < 65535)
    (Hfc : d0 < 0x80)
    (Hin : incoming (conn c) =
           [byte_of (Z.shiftr ((transactionID c + 1) mod 65536) 8);
            byte_of ((transactionID c + 1) mod 65536); p0; p1;
            byte_of (Z.shiftr (Z.of_nat (length (d0 :: more)) + 1) 8);
            byte_of (Z.of_nat (length (d0 :: more)) + 1); unitID]
           :: (d0 :: more) :: rest) :
  sendRequest slaveID pdu c =
  (mkClient
     (mkConn rest false
        (trace (conn c)
         ++ [EvSetWriteDeadline;
             EvWrite (frame ((transactionID c + 1) mod 65536) slaveID pdu);
             EvSetReadDeadline; EvRead 7; EvRead (length (d0 :: more))]))
     ((transactionID c + 1) mod 65536),
   Ok (d0 :: more)).
Proof.
  rewrite sendRequest_open by done.
  fold (uint16_of (transactionID c + 1)) in *.
  rewrite (receive_whole _ p0 p1 unitID (d0 :: more) rest);
    [|done|exact Hin|apply uint16_of_range|done|done].
  unfold sent, log. cbn [trace conn transactionID].
  rewrite <- !app_assoc. cbn [app]. f_equal.
  unfold decoded. destruct more; [done|].
  by replace (128 <=? d0) with false by (symmetry; apply Z.leb_gt; lia).
Qed.

Lemma exchange_returns_response_example :
  sendRequest 1 [3; 0; 0; 0; 1]
    (mkClient (mkConn [[0; 1; 0xAB; 0xCD; 0; 5; 0x63]; [3; 2; 0x12; 0x34]]
                      false []) 0)
  = (mkClient
       (mkConn [] false
          [EvSetWriteDeadline; EvWrite [0; 1; 0; 0; 0; 6; 1; 3; 0; 0; 0; 1];
           EvSetReadDeadline; EvRead 7; EvRead 4]) 1,
     Ok [3; 2; 0x12; 0x34]).
Proof.
  refine (exchange_returns_response 1 [3; 0; 0; 0; 1]
    (mkClient (mkConn [[0; 1; 0xAB; 0xCD; 0; 5; 0x63]; [3; 2; 0x12; 0x34]]
                      false []) 0)
    0xAB 0xCD 0x63 3 [2; 0x12; 0x34] [] eq_refl _ _ eq_refl).
  - simpl. lia.
  - lia.
Defined.

(** X4.  On a closed connection every typed call with valid arguments
    fails with the error of the write deadline, a Transport error: no frame
    is written and nothing is read, and the transaction id is used up all
    the same. *)
Theorem call_on_closed_connection (slaveID : Z) (k : call) (c : Client)
    (Hvalid : call_valid k) (Hclosed : closed (conn c) = true) :
  run_call slaveID k c =
  (mkClient (mkConn (incoming (conn c)) true
               (trace (conn c) ++ [EvSetWriteDeadline]))
            ((transactionID c + 1) mod 65536),
   Err ErrDeadline)
  /\ kind_of ErrDeadline = Transport.
Proof.
  split; [|done].
  destruct (call_exchange slaveID k Hvalid) as (pdu & decode & _ & _ & Hrun & _).
  rewrite Hrun. unfold mbind, M_bind.
  rewrite sendRequest_closed by done. unfold log. by rewrite Hclosed.
Qed.

Lemma call_on_closed_connection_example :
  run_call 1 (CallWriteSingleCoil 7 true) (mkClient (mkConn [] true []) 41)
  = (mkClient (mkConn [] true [EvSetWriteDeadline]) 42, Err ErrDeadline).
Proof.
  exact (proj1 (call_on_closed_connection 1 (CallWriteSingleCoil 7 true)
                  (mkClient (mkConn [] true []) 41) I eq_refl)).
Defined.

(** * Further properties of the reads *)

Lemma bind_Ok_inv {A B} (m : M A) (f : A -> M B) c c' b :
  (m ≫= f) c = (c', Ok b) ->
  exists a c1, m c = (c1, Ok a) /\ f a c1 = (c', Ok b).
Proof.
  unfold mbind, M_bind. destruct (m c) as [c1 [a|e|]]; [eauto|done|done].
Qed.

Lemma reject_if_Ok_inv b e c c' u :
  reject_if b e c = (c', Ok u) -> b = false /\ c' = c.
Proof. destruct b; [done|]. by intros [= <-]. Qed.

Lemma checked_Ok_inv {A} (o : option A) c c' a :
  checked o c = (c', Ok a) -> o = Some a /\ c' = c.
Proof. destruct o; [|done]. by intros [= <- <-]. Qed.

Section ReadDecoding.

Local Ltac Zify.zify_post_hook ::= Z.to_euclidean_division_equations.

(** The unpacking loop of [ReadCoils] succeeds exactly when the response
    holds a byte for every coil asked for. *)
Lemma unpack_coils_enough r0 r1 bytes q :
  ((q + 7) / 8 <= length bytes)%nat ->
  unpack_coils (r0 :: r1 :: bytes) q = Some (bit_at bytes 0 <$> seq 0 q).
Proof.
  intros Hlen. apply mapM_Some_2, Forall2_same_length_lookup_2.
  { by rewrite length_fmap. }
  intros i n v Hn Hv. rewrite list_lookup_fmap, Hn in Hv.
  injection Hv as <-. apply lookup_seq in Hn as [-> Hi]. simpl.
  apply coil_at_bit. lia.
Qed.

Lemma unpack_coils_short r0 r1 bytes q :
  (length bytes < (q + 7) / 8)%nat ->
  unpack_coils (r0 :: r1 :: bytes) q = None.
Proof.
  intros Hlen. apply mapM_None_2, Exists_exists.
  exists (8 * length bytes)%nat. split.
  - apply elem_of_seq. lia.
  - unfold coil_at.
    change ((r0 :: r1 :: bytes) !! (2 + 8 * length bytes / 8)%nat)
      with (bytes !! (8 * length bytes / 8)%nat).
    rewrite lookup_ge_None_2; [done|]. lia.
Qed.

Lemma register_bytes_lookup values : forall i v,
  values !! i = Some v ->
  register_bytes values !! (i * 2)%nat = Some (byte_of (Z.shiftr v 8))
  /\ register_bytes values !! S (i * 2) = Some (byte_of v).
Proof.
  induction values as [|w values IH]; intros i v Hv; [done|].
  destruct i as [|i]; simpl in Hv.
  - by injection Hv as ->.
  - apply IH in Hv as [H1 H2]. split; [exact H1|exact H2].
Qed.

Lemma register_bytes_length values :
  length (register_bytes values) = (2 * length values)%nat.
Proof.
  induction values as [|w values IH]; [done|].
  cbn [register_bytes flat_map app length] in *. unfold register_bytes in IH.
  rewrite IH. lia.
Qed.

(** Reading back the words a register array was written as. *)
Lemma unpack_register_bytes r0 r1 values :
  Forall is_uint16 values ->
  unpack_registers (r0 :: r1 :: register_bytes values) (length values)
  = Some values.
Proof.
  intros Hv. apply mapM_Some_2, Forall2_same_length_lookup_2.
  { by rewrite length_seq. }
  intros i n v Hn Hi. apply lookup_seq in Hn as [-> Hlt].
  change (0 + i)%nat with i.
  destruct (register_bytes_lookup values i v Hi) as [H1 H2].
  unfold Uint16.
  change ((r0 :: r1 :: register_bytes values) !! (2 + i * 2)%nat)
    with (register_bytes values !! (i * 2)%nat).
  change ((r0 :: r1 :: register_bytes values) !! S (2 + i * 2)%nat)
    with (register_bytes values !! S (i * 2)%nat).
  rewrite H1, H2. cbn [mbind option_bind]. f_equal.
  apply word_of_bytes. eapply Forall_lookup_1; eauto.
Qed.

(** The packed bytes of a coil array read back as the array. *)
Lemma unpack_packed_coils r0 r1 values bytes :
  pack_coils (make ((length values + 7) / 8)) 0 0 values = Some bytes ->
  unpack_coils (r0 :: r1 :: bytes) (length values) = Some values
  /\ length bytes = ((length values + 7) / 8)%nat.
Proof.
  intros Hpack.
  destruct (pack_coils_spec values (make ((length values + 7) / 8)) 0 0)
    as (bytes' & Hrun & Hlen & _ & Hbits).
  { unfold make. rewrite length_replicate. simpl. lia. }
  rewrite Hpack in Hrun. injection Hrun as <-.
  unfold make in Hlen. rewrite length_replicate in Hlen.
  split; [|done].
  rewrite unpack_coils_enough by lia. f_equal.
  apply list_eq. intros i. rewrite list_lookup_fmap.
  destruct (decide (i < length values)%nat) as [Hi|Hi].
  - rewrite lookup_seq_lt by done. simpl.
    rewrite Hbits, bit_at_zeros, decide_True by lia. rewrite Nat.sub_0_r.
    destruct (lookup_lt_is_Some_2 values i Hi) as [v ->]. done.
  - rewrite lookup_seq_ge by lia. by rewrite lookup_ge_None_2 by lia.
Qed.

Lemma byte_count_le (n : nat) :
  Z.of_nat n <= 2000 -> Z.of_nat ((n + 7) / 8) <= 250.
Proof. lia. Qed.

End ReadDecoding.

(** What [ReadCoils] makes of the response of its exchange. *)
Lemma ReadCoils_response slaveID address quantity c c' response :
  1 <= quantity <= 2000 ->
  sendRequest slaveID
    [FuncCodeReadCoils; byte_of (Z.shiftr address 8); byte_of address;
     byte_of (Z.shiftr quantity 8); byte_of quantity] c = (c', Ok response) ->
  ReadCoils slaveID address quantity c =
  (reject_if (Z.of_nat (length response) <? 2) ErrInvalidResponseLength;;
   byteCount ← checked (response !! 1%nat);
   reject_if (negb (Z.of_nat (length response) =? byte_of (2 + byteCount)))
             ErrResponseLengthMismatch;;
   checked (unpack_coils response (Z.to_nat quantity))) c'.
Proof.
  intros Hq Hsend. unfold ReadCoils.
  replace ((quantity =? 0) || (2000 <? quantity)) with false by lia.
  rewrite request_pdu_bytes. run_M. by rewrite (bind_Ok _ _ _ _ _ Hsend).
Qed.

Lemma read_registers_response fc slaveID address quantity c c' response :
  1 <= quantity <= 125 ->
  sendRequest slaveID
    [fc; byte_of (Z.shiftr address 8); byte_of address;
     byte_of (Z.shiftr quantity 8); byte_of quantity] c = (c', Ok response) ->
  read_registers fc slaveID address quantity c =
  (reject_if (Z.of_nat (length response) <? 2) ErrInvalidResponseLength;;
   byteCount ← checked (response !! 1%nat);
   reject_if (negb (byteCount =? byte_of (uint16_of (quantity * 2)))
              || negb (Z.of_nat (length response) =? byte_of (2 + byteCount)))
             ErrResponseLengthMismatch;;
   checked (unpack_registers response (Z.to_nat quantity))) c'.
Proof.
  intros Hq Hsend. unfold read_registers.
  replace ((quantity =? 0) || (125 <? quantity)) with false by lia.
  rewrite request_pdu_bytes. run_M. by rewrite (bind_Ok _ _ _ _ _ Hsend).
Qed.

(** X5.  When the exchange of [ReadCoils] returns a response of two bytes
    or more, the call compares the length of the response with 2 plus the
    byte count, a sum computed in a byte and so modulo 256.  If they
    differ the call returns the error "response length mismatch"; that is
    so whenever the byte count misstates the number of bytes that follow
    it, and also when a byte count of 254 or more states it rightly.  If
    they agree the call returns the quantity asked for of coils, coil i
    being bit (i mod 8) of data byte (i / 8), when the response holds a
    byte for every coil, surplus bytes being ignored, and panics when it
    holds fewer: the byte count is never compared with the quantity.  The
    function code of the response is not looked at. *)
Theorem ReadCoils_decodes (slaveID address quantity : Z) (c c' : Client)
    (r0 byteCount : Z) (bytes : list Z)
    (Hq : 1 <= quantity <= 2000)
    (Hsend : sendRequest slaveID
               [FuncCodeReadCoils; byte_of (Z.shiftr address 8);
                byte_of address; byte_of (Z.shiftr quantity 8);
                byte_of quantity] c
             = (c', Ok (r0 :: byteCount :: bytes))) :
  ReadCoils slaveID address quantity c =
  (c', if decide (2 + Z.of_nat (length bytes) = (2 + byteCount) mod 256)
       then if decide ((Z.to_nat quantity + 7) / 8 <= length bytes)%nat
            then Ok (bit_at bytes 0 <$> seq 0 (Z.to_nat quantity))
            else Panic
       else Err ErrResponseLengthMismatch)
  /\ (byteCount = Z.of_nat (length bytes) ->
      2 + Z.of_nat (length bytes) = (2 + byteCount) mod 256 <->
      byteCount < 254).
Proof.
  split.
  - rewrite (ReadCoils_response _ _ _ _ _ _ Hq Hsend).
    cbn [length]. replace (Z.of_nat (S (S (length bytes))) <? 2) with false
      by (symmetry; apply Z.ltb_ge; lia).
    run_M. change ((r0 :: _ :: bytes) !! 1%nat) with (Some byteCount).
    run_M. unfold byte_of.
    destruct (decide (2 + Z.of_nat (length bytes) = (2 + byteCount) mod 256))
      as [Heq|Hne].
    + replace (Z.of_nat (S (S (length bytes))) =? (2 + byteCount) mod 256)
        with true by (symmetry; apply Z.eqb_eq; lia).
      cbn [negb]. run_M.
      destruct (decide ((Z.to_nat quantity + 7) / 8 <= length bytes)%nat).
      * by rewrite unpack_coils_enough.
      * by rewrite unpack_coils_short by lia.
    + replace (Z.of_nat (S (S (length bytes))) =? (2 + byteCount) mod 256)
        with false by (symmetry; apply Z.eqb_neq; lia).
      cbn [negb]. by rewrite reject_bind.
  - intros ->. split.
    + intros Heq.
      pose proof (Z.mod_pos_bound (2 + Z.of_nat (length bytes)) 256). lia.
    + intros Hlt. rewrite Z.mod_small; lia.
Qed.

(** Ten coils decoded from two bytes; sixteen coils asked for and one byte
    sent; and 2000 coils answered by 254 bytes under the byte count 254. *)
Lemma ReadCoils_decodes_example :
  ReadCoils 1 0 10
    (mkClient (mkConn [[0; 1; 0; 0; 0; 5; 1]; [1; 2; 0x05; 0x02]] false []) 0)
  = (mkClient
       (mkConn [] false
          [EvSetWriteDeadline; EvWrite [0; 1; 0; 0; 0; 6; 1; 1; 0; 0; 0; 10];
           EvSetReadDeadline; EvRead 7; EvRead 4]) 1,
     Ok [true; false; true; false; false; false; false; false; false; true])
  /\ ReadCoils 1 0 16
       (mkClient (mkConn [[0; 1; 0; 0; 0; 4; 1]; [1; 1; 0xFF]] false []) 0)
     = (mkClient
          (mkConn [] false
             [EvSetWriteDeadline;
              EvWrite [0; 1; 0; 0; 0; 6; 1; 1; 0; 0; 0; 16];
              EvSetReadDeadline; EvRead 7; EvRead 3]) 1,
        Panic)
  /\ ReadCoils 1 0 2000
       (mkClient
          (mkConn [[0; 1; 0; 0; 1; 1; 1]; 1 :: 254 :: replicate 254 0xFF]
                  false []) 0)
     = (mkClient
          (mkConn [] false
             [EvSetWriteDeadline;
              EvWrite [0; 1; 0; 0; 0; 6; 1; 1; 0; 0; 7; 208];
              EvSetReadDeadline; EvRead 7; EvRead 256]) 1,
        Err ErrResponseLengthMismatch).
Proof.
  split; [|split].
  - refine (proj1 (ReadCoils_decodes 1 0 10
      (mkClient (mkConn [[0; 1; 0; 0; 0; 5; 1]; [1; 2; 0x05; 0x02]] false []) 0)
      _ 1 2 [0x05; 0x02] _ eq_refl)).
    lia.
  - refine (proj1 (ReadCoils_decodes 1 0 16
      (mkClient (mkConn [[0; 1; 0; 0; 0; 4; 1]; [1; 1; 0xFF]] false []) 0)
      _ 1 1 [0xFF] _ eq_refl)).
    lia.
  - refine (proj1 (ReadCoils_decodes 1 0 2000
      (mkClient
         (mkConn [[0; 1; 0; 0; 1; 1; 1]; 1 :: 254 :: replicate 254 0xFF]
                 false []) 0)
      _ 1 254 (replicate 254 0xFF) _ eq_refl)).
    lia.
Defined.

(** X6.  Reading N coils, 1 to 2000, from a device that answers with the
    coils packed as [WriteMultipleCoils] packs them, behind any function
    byte and the byte count, returns the coils. *)
Theorem ReadCoils_returns_packed (slaveID address : Z) (c c' : Client)
    (r0 : Z) (values : list bool) (bytes : list Z)
    (Hn : 1 <= Z.of_nat (length values) <= 2000)
    (Hpack : pack_coils (make ((length values + 7) / 8)) 0 0 values
             = Some bytes)
    (Hsend : sendRequest slaveID
               [FuncCodeReadCoils; byte_of (Z.shiftr address 8);
                byte_of address;
                byte_of (Z.shiftr (Z.of_nat (length values)) 8);
                byte_of (Z.of_nat (length values))] c
             = (c', Ok (r0 :: Z.of_nat (length bytes) :: bytes))) :
  ReadCoils slaveID address (Z.of_nat (length values)) c = (c', Ok values).
Proof.
  destruct (unpack_packed_coils r0 (Z.of_nat (length bytes)) values bytes Hpack)
    as [Hun Hlen].
  rewrite (ReadCoils_response _ _ _ _ _ _ Hn Hsend).
  cbn [length]. replace (Z.of_nat (S (S (length bytes))) <? 2) with false
    by (symmetry; apply Z.ltb_ge; lia).
  run_M. change ((r0 :: _ :: bytes) !! 1%nat) with (Some (Z.of_nat (length bytes))).
  run_M.
  assert (Z.of_nat (length bytes) <= 250) as Hb.
  { rewrite Hlen. apply byte_count_le. lia. }
  unfold byte_of. rewrite Z.mod_small by lia.
  replace (Z.of_nat (S (S (length bytes))) =? 2 + Z.of_nat (length bytes))
    with true by (symmetry; apply Z.eqb_eq; lia).
  cbn [negb]. run_M. rewrite Nat2Z.id, Hun. done.
Qed.

Lemma ReadCoils_returns_packed_example :
  ReadCoils 1 0 3
    (mkClient (mkConn [[0; 1; 0; 0; 0; 4; 1]; [1; 1; 0x05]] false []) 0)
  = (mkClient
       (mkConn [] false
          [EvSetWriteDeadline; EvWrite [0; 1; 0; 0; 0; 6; 1; 1; 0; 0; 0; 3];
           EvSetReadDeadline; EvRead 7; EvRead 3]) 1,
     Ok [true; false; true]).
Proof.
  refine (ReadCoils_returns_packed 1 0
    (mkClient (mkConn [[0; 1; 0; 0; 0; 4; 1]; [1; 1; 0x05]] false []) 0)
    _ 1 [true; false; true] [0x05] _ eq_refl eq_refl).
  simpl. lia.
Defined.

(** X7.  Reading N registers, 1 to 125, from a device that answers with
    any function byte, the byte count 2N and the 16-bit values high byte
    first returns the values; so for the holding and for the input
    registers. *)
Theorem register_reads_return_values (fc slaveID address : Z) (c c' : Client)
    (r0 : Z) (values : list Z)
    (Hn : 1 <= Z.of_nat (length values) <= 125)
    (Hvalues : Forall is_uint16 values)
    (Hsend : sendRequest slaveID
               [fc; byte_of (Z.shiftr address 8); byte_of address;
                byte_of (Z.shiftr (Z.of_nat (length values)) 8);
                byte_of (Z.of_nat (length values))] c
             = (c', Ok (r0 :: Z.of_nat (length values) * 2
                           :: register_bytes values))) :
  (fc = FuncCodeReadHoldingRegisters ->
   ReadHoldingRegisters slaveID address (Z.of_nat (length values)) c
   = (c', Ok values))
  /\ (fc = FuncCodeReadInputRegisters ->
      ReadInputRegisters slaveID address (Z.of_nat (length values)) c
      = (c', Ok values)).
Proof.
  assert (read_registers fc slaveID address (Z.of_nat (length values)) c
          = (c', Ok values)) as H.
  { rewrite (read_registers_response _ _ _ _ _ _ _ Hn Hsend).
    cbn [length]. rewrite register_bytes_length.
    replace (Z.of_nat (S (S (2 * length values))) <? 2) with false
      by (symmetry; apply Z.ltb_ge; lia).
    run_M.
    change ((r0 :: _ :: register_bytes values) !! 1%nat)
      with (Some (Z.of_nat (length values) * 2)).
    run_M. unfold byte_of, uint16_of.
    rewrite (Z.mod_small (Z.of_nat (length values) * 2) 65536) by lia.
    rewrite (Z.mod_small (Z.of_nat (length values) * 2) 256) by lia.
    rewrite (Z.mod_small (2 + Z.of_nat (length values) * 2) 256) by lia.
    rewrite Z.eqb_refl.
    replace (Z.of_nat (S (S (2 * length values)))
             =? 2 + Z.of_nat (length values) * 2)
      with true by (symmetry; apply Z.eqb_eq; lia).
    cbn [negb orb]. run_M.
    rewrite Nat2Z.id, unpack_register_bytes by done. done. }
  split; intros ->; exact H.
Qed.

Lemma register_reads_return_values_example :
  ReadHoldingRegisters 1 0 2
    (mkClient (mkConn [[0; 1; 0; 0; 0; 7; 1]; [3; 4; 0x12; 0x34; 0; 42]]
                      false []) 0)
  = (mkClient
       (mkConn [] false
          [EvSetWriteDeadline; EvWrite [0; 1; 0; 0; 0; 6; 1; 3; 0; 0; 0; 2];
           EvSetReadDeadline; EvRead 7; EvRead 6]) 1,
     Ok [0x1234; 42]).
Proof.
  refine (proj1 (register_reads_return_values 3 1 0
    (mkClient (mkConn [[0; 1; 0; 0; 0; 7; 1]; [3; 4; 0x12; 0x34; 0; 42]]
                      false []) 0)
    _ 3 [0x1234; 42] _ _ eq_refl) eq_refl).
  - simpl. lia.
  - repeat constructor; unfold is_uint16; lia.
Defined.

(** X8.  The register reads never panic, whatever the quantity asked for,
    the state of the connection and the bytes the device sends: the byte
    count of the response is compared with the quantity before the
    response is indexed. *)
Theorem register_reads_never_panic (slaveID address quantity : Z)
    (c : Client) (Hq : 0 <= quantity) :
  (ReadHoldingRegisters slaveID address quantity c).2 <> Panic
  /\ (ReadInputRegisters slaveID address quantity c).2 <> Panic.
Proof.
  split; by apply read_registers_no_panic.
Qed.

Lemma register_reads_never_panic_example :
  (ReadHoldingRegisters 1 0 16
     (mkClient (mkConn [[0; 1; 0; 0; 0; 4; 1]; [3; 1; 0xFF]] false []) 0)).2
  <> Panic
  /\ (ReadInputRegisters 1 0 16
        (mkClient (mkConn [[0; 1; 0; 0; 0; 4; 1]; [3; 1; 0xFF]] false []) 0)).2
     <> Panic.
Proof.
  apply (register_reads_never_panic 1 0 16
    (mkClient (mkConn [[0; 1; 0; 0; 0; 4; 1]; [3; 1; 0xFF]] false []) 0)).
  lia.
Defined.

Lemma bind_Ok2_inv {A B} (m : M A) (f : A -> M B) c b :
  ((m ≫= f) c).2 = Ok b ->
  exists a c1, m c = (c1, Ok a) /\ (f a c1).2 = Ok b.
Proof.
  unfold mbind, M_bind. destruct (m c) as [c1 [a|e|]]; [eauto|done|done].
Qed.

Lemma checked_Ok2_inv {A} (o : option A) c a :
  (checked o c).2 = Ok a -> o = Some a.
Proof. destruct o; [|done]. by intros [= <-]. Qed.

(** X9.  A read that succeeds returns exactly as many values as were
    asked for. *)
Theorem read_result_length (slaveID address quantity : Z) (c : Client) :
  (forall coils, (ReadCoils slaveID address quantity c).2 = Ok coils ->
                 length coils = Z.to_nat quantity)
  /\ (forall registers,
        (ReadHoldingRegisters slaveID address quantity c).2 = Ok registers ->
        length registers = Z.to_nat quantity)
  /\ (forall registers,
        (ReadInputRegisters slaveID address quantity c).2 = Ok registers ->
        length registers = Z.to_nat quantity).
Proof.
  repeat match goal with |- _ /\ _ => split end; intros v H;
    unfold ReadCoils, ReadHoldingRegisters, ReadInputRegisters,
      read_registers in H;
    repeat (apply bind_Ok2_inv in H as (? & ? & _ & H));
    apply checked_Ok2_inv, length_mapM in H;
    by rewrite length_seq in H.
Qed.

(** * Further properties of the requests and the writes *)

Lemma run_call_written slaveID k c pdu decode :
  closed (conn c) = false ->
  (forall c, run_call slaveID k c = (sendRequest slaveID pdu ≫= decode) c) ->
  (forall r, pure_M (decode r)) ->
  written (conn (run_call slaveID k c).1)
  = written (conn c) ++ [frame (uint16_of (transactionID c + 1)) slaveID pdu].
Proof.
  intros Hopen Hrun Hpure. rewrite Hrun, bind_fst by done.
  by apply sendRequest_written.
Qed.

(** X10.  A typed call with valid arguments on an open connection writes
    exactly one frame: the seven header bytes and a PDU of 5 to 252 bytes
    that begins with the function code of the operation, so at most 259
    bytes in all. *)
Theorem valid_call_writes_one_frame (slaveID : Z) (k : call) (c : Client)
    (Hvalid : call_valid k) (Hopen : closed (conn c) = false) :
  exists pdu,
    written (conn (run_call slaveID k c).1)
    = written (conn c)
      ++ [frame ((transactionID c + 1) mod 65536) slaveID pdu]
    /\ pdu !! 0%nat = Some (call_code k)
    /\ (5 <= length pdu <= 252)%nat
    /\ length (frame ((transactionID c + 1) mod 65536) slaveID pdu)
       = (7 + length pdu)%nat.
Proof.
  destruct (call_exchange slaveID k Hvalid)
    as (pdu & decode & Hpdu & Hcode & Hrun & Hpure & _).
  exists pdu. split; [by eapply run_call_written|]. split; [done|].
  split; [|done].
  destruct k as [a q|a q|a q|a v|a v|a vs|a vs];
    cbn [call_request call_valid] in *;
    try (rewrite request_pdu_bytes in Hpdu; injection Hpdu as <-; simpl; lia).
  - destruct (WriteMultipleCoils_pdu_bytes a vs Hvalid) as (bytes & Hpack & Hb).
    rewrite Hb in Hpdu. injection Hpdu as <-.
    destruct (unpack_packed_coils 0 0 vs bytes Hpack) as [_ Hlen].
    pose proof (byte_count_le (length vs)). cbn [length app]. lia.
  - rewrite WriteMultipleRegisters_pdu_bytes in Hpdu by done.
    injection Hpdu as <-. cbn [length app].
    rewrite register_bytes_length. lia.
Qed.

Lemma valid_call_writes_one_frame_example :
  exists pdu,
    written (conn (run_call 1 (CallWriteMultipleRegisters 2 [0x1234; 5])
                     fresh_client).1)
    = written (conn fresh_client) ++ [frame (1 mod 65536) 1 pdu]
    /\ pdu !! 0%nat = Some FuncCodeWriteMultipleRegisters
    /\ (5 <= length pdu <= 252)%nat
    /\ length (frame (1 mod 65536) 1 pdu) = (7 + length pdu)%nat.
Proof.
  refine (valid_call_writes_one_frame 1 (CallWriteMultipleRegisters 2 [0x1234; 5])
            fresh_client _ eq_refl).
  simpl. lia.
Defined.

(** X11.  On an open connection [WriteSingleCoil] sends function 05, the
    address and the value FF 00 for true, 00 00 for false, and
    [WriteSingleRegister] function 06, the address and the value, each
    high byte first, behind a header of length field 6. *)
Theorem single_write_frames (slaveID address value : Z) (coil : bool)
    (c : Client)
    (Hopen : closed (conn c) = false)
    (Haddress : is_uint16 address) (Hvalue : is_uint16 value) :
  written (conn (WriteSingleCoil slaveID address coil c).1)
  = written (conn c)
    ++ [[((transactionID c + 1) mod 65536) / 256;
         ((transactionID c + 1) mod 65536) mod 256; 0; 0; 0; 6; slaveID;
         0x05; address / 256; address mod 256;
         if coil then 0xFF else 0x00; 0x00]]
  /\ written (conn (WriteSingleRegister slaveID address value c).1)
     = written (conn c)
       ++ [[((transactionID c + 1) mod 65536) / 256;
            ((transactionID c + 1) mod 65536) mod 256; 0; 0; 0; 6; slaveID;
            0x06; address / 256; address mod 256;
            value / 256; value mod 256]].
Proof.
  assert (is_uint16 ((transactionID c + 1) mod 65536)) as Ht
    by apply uint16_of_range.
  split.
  - unfold WriteSingleCoil. rewrite request_pdu_bytes. run_M.
    rewrite bind_fst by (intros; apply pure_reject_if).
    rewrite sendRequest_written by done. do 2 f_equal.
    unfold frame, uint16_of. cbn [length app].
    rewrite !high_byte by done. by destruct coil.
  - unfold WriteSingleRegister. rewrite request_pdu_bytes. run_M.
    rewrite bind_fst by (intros; apply pure_reject_if).
    rewrite sendRequest_written by done. do 2 f_equal.
    unfold frame, uint16_of. cbn [length app].
    rewrite !high_byte by done. done.
Qed.

Lemma single_write_frames_example :
  written (conn (WriteSingleCoil 1 7 true fresh_client).1)
  = [[0; 1; 0; 0; 0; 6; 1; 0x05; 0; 7; 0xFF; 0x00]]
  /\ written (conn (WriteSingleRegister 1 7 0x1234 fresh_client).1)
     = [[0; 1; 0; 0; 0; 6; 1; 0x06; 0; 7; 0x12; 0x34]].
Proof.
  refine (single_write_frames 1 7 0x1234 true fresh_client eq_refl _ _);
    unfold is_uint16; simpl; lia.
Defined.

(** X12.  On an open connection [WriteMultipleRegisters] of N values, 1 to
    123, sends function 10, the address, the quantity N, the byte count 2N
    and then every value high byte first, 6 + 2N bytes in all, behind a
    header whose length field is 7 + 2N. *)
Theorem WriteMultipleRegisters_frame (slaveID address : Z) (values : list Z)
    (c : Client)
    (Hopen : closed (conn c) = false)
    (Hn : 1 <= Z.of_nat (length values) <= 123)
    (Haddress : is_uint16 address) :
  written (conn (WriteMultipleRegisters slaveID address values c).1)
  = written (conn c)
    ++ [[((transactionID c + 1) mod 65536) / 256;
         ((transactionID c + 1) mod 65536) mod 256; 0; 0;
         0; 7 + 2 * Z.of_nat (length values); slaveID]
        ++ [0x10; address / 256; address mod 256;
            0; Z.of_nat (length values); 2 * Z.of_nat (length values)]
        ++ register_bytes values]
  /\ length (register_bytes values) = (2 * length values)%nat.
Proof.
  split; [|apply register_bytes_length].
  assert (is_uint16 ((transactionID c + 1) mod 65536)) as Ht
    by apply uint16_of_range.
  unfold WriteMultipleRegisters.
  rewrite uint16_of_small by (unfold is_uint16; lia).
  replace ((Z.of_nat (length values) =? 0) || (123 <? Z.of_nat (length values)))
    with false by lia.
  rewrite WriteMultipleRegisters_pdu_bytes by done. run_M.
  rewrite bind_fst by (intros; apply pure_reject_if).
  rewrite sendRequest_written by done. do 2 f_equal.
  unfold frame, uint16_of. cbn [length app]. rewrite register_bytes_length.
  rewrite !high_byte by (done || (unfold is_uint16; lia)).
  unfold byte_of.
  replace (Z.of_nat (S (S (S (S (S (S (2 * length values))))))) + 1)
    with (7 + 2 * Z.of_nat (length values)) by lia.
  rewrite (Z.mod_small (7 + 2 * Z.of_nat (length values)) 65536) by lia.
  rewrite (Z.div_small (7 + 2 * Z.of_nat (length values)) 256) by lia.
  rewrite (Z.mod_small (7 + 2 * Z.of_nat (length values)) 256) by lia.
  rewrite (Z.div_small (Z.of_nat (length values)) 256) by lia.
  rewrite (Z.mod_small (Z.of_nat (length values)) 256) by lia.
  rewrite (Z.mod_small (Z.of_nat (length values) * 2) 256) by lia.
  by rewrite (Z.mul_comm (Z.of_nat (length values)) 2).
Qed.

Lemma WriteMultipleRegisters_frame_example :
  written (conn (WriteMultipleRegisters 1 2 [0x1234; 5] fresh_client).1)
  = [[0; 1; 0; 0; 0; 11; 1; 0x10; 0; 2; 0; 2; 4; 0x12; 0x34; 0; 5]].
Proof.
  refine (proj1 (WriteMultipleRegisters_frame 1 2 [0x1234; 5] fresh_client
                   eq_refl _ _)).
  - simpl. lia.
  - unfold is_uint16. lia.
Defined.

Lemma echo_no_panic slaveID fc pdu c :
  ((response ← sendRequest slaveID pdu;
    reject_if (echo_rejected fc response) ErrInvalidResponse) c).2 <> Panic.
Proof.
  unfold mbind, M_bind.
  pose proof (sendRequest_no_panic slaveID pdu c) as Hs.
  destruct (sendRequest slaveID pdu c) as [c' [r|e|]]; try done.
  by destruct (echo_rejected fc r).
Qed.

Lemma WriteMultipleCoils_no_panic slaveID address coils c :
  Z.of_nat (length coils) < 65536 ->
  (WriteMultipleCoils slaveID address coils c).2 <> Panic.
Proof.
  intros Hlen. unfold WriteMultipleCoils.
  rewrite uint16_of_small by (unfold is_uint16; lia).
  destruct ((_ =? 0) || (1968 <? _)) eqn:Hg; [by rewrite reject_bind|].
  destruct (WriteMultipleCoils_pdu_bytes address coils) as (bytes & _ & ->);
    [lia|].
  run_M. apply echo_no_panic.
Qed.

Lemma WriteMultipleRegisters_no_panic slaveID address registers c :
  Z.of_nat (length registers) < 65536 ->
  (WriteMultipleRegisters slaveID address registers c).2 <> Panic.
Proof.
  intros Hlen. unfold WriteMultipleRegisters.
  rewrite uint16_of_small by (unfold is_uint16; lia).
  destruct ((_ =? 0) || (123 <? _)) eqn:Hg; [by rewrite reject_bind|].
  rewrite WriteMultipleRegisters_pdu_bytes by lia.
  run_M. apply echo_no_panic.
Qed.

(** X13.  The single writes never panic, and neither do the multiple
    writes of a list shorter than 65536, whatever the state of the
    connection and the bytes the device sends. *)
Theorem writes_never_panic (slaveID address value : Z) (coil : bool)
    (coils : list bool) (registers : list Z) (c : Client)
    (Hcoils : Z.of_nat (length coils) < 65536)
    (Hregisters : Z.of_nat (length registers) < 65536) :
  (WriteSingleCoil slaveID address coil c).2 <> Panic
  /\ (WriteSingleRegister slaveID address value c).2 <> Panic
  /\ (WriteMultipleCoils slaveID address coils c).2 <> Panic
  /\ (WriteMultipleRegisters slaveID address registers c).2 <> Panic.
Proof.
  repeat match goal with |- _ /\ _ => split end.
  - unfold WriteSingleCoil. rewrite request_pdu_bytes. run_M.
    apply echo_no_panic.
  - unfold WriteSingleRegister. rewrite request_pdu_bytes. run_M.
    apply echo_no_panic.
  - by apply WriteMultipleCoils_no_panic.
  - by apply WriteMultipleRegisters_no_panic.
Qed.

Lemma writes_never_panic_example :
  (WriteSingleCoil 1 0 true fresh_client).2 <> Panic
  /\ (WriteSingleRegister 1 0 9 fresh_client).2 <> Panic
  /\ (WriteMultipleCoils 1 0 [true; false] fresh_client).2 <> Panic
  /\ (WriteMultipleRegisters 1 0 [] fresh_client).2 <> Panic.
Proof.
  apply (writes_never_panic 1 0 9 true [true; false] [] fresh_client);
    simpl; lia.
Defined.

Section LongLists.

Local Ltac Zify.zify_post_hook ::= Z.to_euclidean_division_equations.

(** X14.  The length of a value list is taken modulo 65536 before it is
    checked.  [WriteMultipleRegisters] of a list of 65536 values or more
    whose length is 1 to 123 modulo 65536 is therefore not refused: it
    builds the buffer for that many values and panics while filling it,
    before any I/O. *)
Theorem WriteMultipleRegisters_long_list (slaveID address : Z)
    (values : list Z) (c : Client)
    (Hlong : 65536 <= Z.of_nat (length values))
    (Hwrap : 1 <= Z.of_nat (length values) mod 65536 <= 123) :
  WriteMultipleRegisters slaveID address values c = (c, Panic).
Proof.
  unfold WriteMultipleRegisters, uint16_of.
  set (q := Z.of_nat (length values) mod 65536) in *.
  replace ((q =? 0) || (123 <? q)) with false by lia.
  run_M. unfold WriteMultipleRegisters_pdu, uint16_of. fold q.
  rewrite (Z.mod_small (q * 2) 65536) by lia.
  rewrite write_header_bytes by lia. cbn [mbind option_bind].
  rewrite pack_registers_overflow; [done|].
  cbn [length app]. unfold make. rewrite length_replicate. lia.
Qed.

Lemma WriteMultipleRegisters_long_list_example :
  WriteMultipleRegisters 1 0 (replicate (Z.to_nat 65537) 0) fresh_client
  = (fresh_client, Panic).
Proof.
  apply WriteMultipleRegisters_long_list;
    rewrite length_replicate, Z2Nat.id by lia.
  - lia.
  - change (65537 mod 65536) with 1. lia.
Defined.

End LongLists.

(** * Further properties of the batch executor *)

Lemma execute_one_no_panic op c :
  item_safe op -> (execute_one op c).2 <> Panic.
Proof.
  intros (Hname & Hq & Hv). unfold execute_one.
  destruct (String.eqb_spec (Operation op) "read_coils"); [done|].
  destruct (String.eqb (Operation op) "read_holding").
  { unfold stored.
    pose proof (read_registers_no_panic FuncCodeReadHoldingRegisters
                  (SlaveID op) (Address op) (Quantity op) c Hq) as H.
    unfold ReadHoldingRegisters.
    by destruct (read_registers _ _ _ _ c) as [c' [v|e|]]. }
  destruct (String.eqb (Operation op) "read_input").
  { unfold stored.
    pose proof (read_registers_no_panic FuncCodeReadInputRegisters
                  (SlaveID op) (Address op) (Quantity op) c Hq) as H.
    unfold ReadInputRegisters.
    by destruct (read_registers _ _ _ _ c) as [c' [v|e|]]. }
  destruct (String.eqb (Operation op) "write_coils").
  { destruct (Values op) as [| coils | |]; try done. unfold stored_error.
    pose proof (WriteMultipleCoils_no_panic (SlaveID op) (Address op) coils c Hv)
      as H.
    by destruct (WriteMultipleCoils _ _ _ c) as [c' [v|e|]]. }
  destruct (String.eqb (Operation op) "write_registers"); [|done].
  destruct (Values op) as [| | registers |]; try done. unfold stored_error.
  pose proof (WriteMultipleRegisters_no_panic (SlaveID op) (Address op)
                registers c Hv) as H.
  by destruct (WriteMultipleRegisters _ _ _ c) as [c' [v|e|]].
Qed.

(** X15.  A batch without reads of coils, with quantities that are not
    negative and value lists shorter than 65536, always returns: one
    outcome per item, in the order of the items and under their operation
    names, whatever errors the items meet. *)
Theorem batch_returns_every_outcome (operations : list BatchOperation)
    (c : Client) (Hsafe : Forall item_safe operations) :
  exists c' results,
    ExecuteBatch operations c = (c', Ok results)
    /\ length results = length operations
    /\ ResOperation <$> results = Operation <$> operations.
Proof.
  revert c. induction Hsafe as [|op rest Hop _ IH]; intros c.
  - by exists c, [].
  - cbn [ExecuteBatch]. unfold mbind at 1, M_bind at 1.
    pose proof (execute_one_no_panic op c Hop) as Hnp.
    destruct (execute_one_stores op c) as [(result & Hr & Hname)|Hp]; [|done].
    destruct (execute_one op c) as [c1 o1]. simpl in Hr. subst o1.
    destruct (IH c1) as (c2 & results & Hrun & Hl & Hn).
    exists c2, (result :: results). unfold mbind, M_bind. rewrite Hrun.
    split; [done|]. cbn [length fmap list_fmap]. split; [by rewrite Hl|].
    f_equal; [done|exact Hn].
Qed.

Lemma batch_returns_every_outcome_example :
  exists c' results,
    ExecuteBatch
      [mkBatchOperation "read_holding" 1 0 VNil 1;
       mkBatchOperation "write_registers" 1 0 (VBools [true]) 0;
       mkBatchOperation "read_input" 1 0 VNil 126;
       mkBatchOperation "frobnicate" 1 0 VNil 0]
      (mkClient (mkConn [[0; 1; 0; 0; 0; 5; 1]; [3; 2; 0; 42]] false []) 0)
    = (c', Ok results)
    /\ length results = 4%nat
    /\ ResOperation <$> results
       = ["read_holding"; "write_registers"; "read_input"; "frobnicate"]%string.
Proof.
  refine (batch_returns_every_outcome
    [mkBatchOperation "read_holding" 1 0 VNil 1;
     mkBatchOperation "write_registers" 1 0 (VBools [true]) 0;
     mkBatchOperation "read_input" 1 0 VNil 126;
     mkBatchOperation "frobnicate" 1 0 VNil 0]
    (mkClient (mkConn [[0; 1; 0; 0; 0; 5; 1]; [3; 2; 0; 42]] false []) 0) _).
  repeat constructor; simpl; (done || lia).
Defined.

Lemma bind_ext {A B} (m : M A) (f g : A -> M B) c :
  (forall a c', f a c' = g a c') -> (m ≫= f) c = (m ≫= g) c.
Proof.
  intros H. unfold mbind, M_bind. destruct (m c) as [c' [a| |]]; [apply H|done|done].
Qed.

(** X16.  Running a batch made of two lists of items is running the first
    list and then, on the client as the first left it, the second, the
    outcomes being those of the first followed by those of the second; a
    panic in the first list keeps the second from running. *)
Theorem batch_of_two_lists (first second : list BatchOperation) (c : Client) :
  ExecuteBatch (first ++ second) c =
  match ExecuteBatch first c with
  | (c1, Ok results1) =>
      match ExecuteBatch second c1 with
      | (c2, Ok results2) => (c2, Ok (results1 ++ results2))
      | (c2, Err e) => (c2, Err e)
      | (c2, Panic) => (c2, Panic)
      end
  | (c1, Err e) => (c1, Err e)
  | (c1, Panic) => (c1, Panic)
  end.
Proof.
  revert c. induction first as [|op rest IH]; intros c.
  - cbn [app ExecuteBatch]. unfold mret, M_ret.
    by destruct (ExecuteBatch second c) as [c2 [r|e|]].
  - cbn [app ExecuteBatch]. unfold mbind at 1 3, M_bind at 1 3.
    destruct (execute_one op c) as [c1 [result|e|]]; [|done|done].
    unfold mbind, M_bind. rewrite IH.
    destruct (ExecuteBatch rest c1) as [c2 [r1|e|]]; [|done|done].
    destruct (ExecuteBatch second c2) as [c3 [r2|e|]] eqn:E2;
      simpl; rewrite ?E2; reflexivity.
Qed.

(** X17.  An item whose operation name is none of the five the executor
    knows, and a write item whose value list is not of the type of the
    write, get an Invalid-Argument error as their outcome; the client and
    its connection are not touched. *)
Theorem batch_item_refused (op : BatchOperation) (c : Client) :
  (Operation op ∉ known_operations ->
   execute_one op c =
   (c, Ok (mkBatchResult (Operation op) VNil
             (Some (ErrUnknownOperation (Operation op))))))
  /\ (Operation op = "write_coils"%string ->
      (forall coils, Values op <> VBools coils) ->
      execute_one op c =
      (c, Ok (mkBatchResult "write_coils" VNil
                (Some (ErrInvalidValuesType "write_coils")))))
  /\ (Operation op = "write_registers"%string ->
      (forall registers, Values op <> VUint16s registers) ->
      execute_one op c =
      (c, Ok (mkBatchResult "write_registers" VNil
                (Some (ErrInvalidValuesType "write_registers")))))
  /\ kind_of (ErrUnknownOperation (Operation op)) = InvalidArgument
  /\ kind_of (ErrInvalidValuesType (Operation op)) = InvalidArgument.
Proof.
  split; [|split; [|split; [|done]]].
  - intros Hname. unfold execute_one, known_operations in *.
    repeat match goal with
    | |- context [String.eqb (Operation op) ?s] =>
        destruct (String.eqb_spec (Operation op) s) as [E|_];
        [exfalso; apply Hname; rewrite E;
         rewrite !elem_of_cons; tauto|]
    end.
    done.
  - intros Hname Hv. unfold execute_one. rewrite Hname. cbn.
    destruct (Values op) as [|coils| |]; try done. by destruct (Hv coils).
  - intros Hname Hv. unfold execute_one. rewrite Hname. cbn.
    destruct (Values op) as [| |registers|]; try done. by destruct (Hv registers).
Qed.

Lemma batch_item_refused_example :
  execute_one (mkBatchOperation "write_coil" 1 0 (VBools [true]) 0) fresh_client
  = (fresh_client,
     Ok (mkBatchResult "write_coil" VNil
           (Some (ErrUnknownOperation "write_coil")))).
Proof.
  refine (proj1 (batch_item_refused
    (mkBatchOperation "write_coil" 1 0 (VBools [true]) 0) fresh_client) _).
  unfold known_operations. cbn [Operation].
  rewrite !elem_of_cons, elem_of_nil. intros [H|[H|[H|[H|[H|H]]]]]; done.
Defined.

(** * Further properties of the connection pool *)

Lemma create_connections_success ks : forall i p w rest,
  dials w = (Some <$> ks) ++ rest ->
  create_connections (length ks) i p w =
  (mkPool (pool p ++ (Some <$> seq (length (heap w)) (length ks)))
          (pool_cap p) (pool_closed p) (maxConn p),
   mkWorld (heap w ++ ((fun k => mkClient k 0) <$> ks)) rest,
   Ok tt).
Proof.
  induction ks as [|k ks IH]; intros i p w rest Hd.
  - simpl in *. rewrite !app_nil_r. destruct p, w. simpl in *. by subst.
  - cbn [length create_connections]. unfold NewClient. rewrite Hd.
    cbn [fmap list_fmap app].
    rewrite (IH _ _ _ rest) by done. cbn [pool pool_cap pool_closed maxConn heap].
    rewrite length_app. cbn [length seq fmap list_fmap].
    rewrite <- !app_assoc. cbn [app].
    by replace (length (heap w) + 1)%nat with (S (length (heap w))) by lia.
Qed.

(** X18.  When the dials succeed, [NewConnectionPool] makes as many
    clients as the capacity asked for, ten if that is zero or negative,
    each on its own connection, in the order of the dials and with
    transaction id 0, and returns an open pool of that capacity whose
    channel holds them all, first made first. *)
Theorem NewConnectionPool_success (maxConnections : Z) (w : World)
    (ks : list Conn) (rest : list (option Conn))
    (Hdials : dials w = (Some <$> ks) ++ rest)
    (Hn : length ks
          = Z.to_nat (if maxConnections <=? 0 then 10 else maxConnections)) :
  NewConnectionPool maxConnections w =
  (mkWorld (heap w ++ ((fun k => mkClient k 0) <$> ks)) rest,
   Ok (mkPool (Some <$> seq (length (heap w)) (length ks)) (length ks) false
              (if maxConnections <=? 0 then 10 else maxConnections))).
Proof.
  unfold NewConnectionPool. rewrite <- Hn.
  by rewrite (create_connections_success ks _ _ _ rest Hdials).
Qed.

Lemma NewConnectionPool_success_example :
  NewConnectionPool 2
    (mkWorld [] [Some (mkConn [] false []); Some (mkConn [[1]] false [])])
  = (mkWorld [mkClient (mkConn [] false []) 0;
              mkClient (mkConn [[1]] false []) 0] [],
     Ok (mkPool [Some 0%nat; Some 1%nat] 2 false 2)).
Proof.
  exact (NewConnectionPool_success 2
    (mkWorld [] [Some (mkConn [] false []); Some (mkConn [[1]] false [])])
    [mkConn [] false []; mkConn [[1]] false []] [] eq_refl eq_refl).
Defined.

Lemma Client_Close_lookup a cl w :
  heap w !! a = Some cl ->
  Client_Close (Some a) w
  = Some (mkWorld (<[a := closed_client cl]> (heap w)) (dials w)).
Proof. intros H. unfold Client_Close. simpl. by rewrite H. Qed.

(** Closing the clients made last, in the order they were made. *)
Lemma close_all_new cls : forall pre ds,
  close_all (Some <$> seq (length pre) (length cls)) (mkWorld (pre ++ cls) ds)
  = ([], mkWorld (pre ++ (closed_client <$> cls)) ds, Ok tt).
Proof.
  induction cls as [|cl cls IH]; intros pre ds.
  { cbn [length seq fmap list_fmap close_all]. by rewrite !app_nil_r. }
  cbn [length seq fmap list_fmap close_all].
  rewrite (Client_Close_lookup _ cl).
  2:{ cbn [heap]. by rewrite list_lookup_middle. }
  cbn [heap dials].
  rewrite insert_app_r_alt, Nat.sub_diag by lia. cbn [insert list_insert].
  replace (pre ++ closed_client cl :: cls)
    with ((pre ++ [closed_client cl]) ++ cls) by (by rewrite <- app_assoc).
  replace (S (length pre)) with (length (pre ++ [closed_client cl]))
    by (rewrite length_app; simpl; lia).
  rewrite IH. by rewrite <- app_assoc.
Qed.

Lemma create_connections_failure ks : forall n i p w rest,
  dials w = (Some <$> ks) ++ None :: rest ->
  (length ks < n)%nat -> pool_closed p = false -> pool p = [] ->
  create_connections n i p w =
  (mkPool [] (pool_cap p) true (maxConn p),
   mkWorld (heap w ++ (closed_client <$> ((fun k => mkClient k 0) <$> ks))) rest,
   Err (ErrCreateConnection (i + Z.of_nat (length ks)))).
Proof.
  intros n i p w rest Hd Hn Hopen Hempty.
  assert (forall ks n i q w,
    dials w = (Some <$> ks) ++ None :: rest ->
    (length ks < n)%nat -> pool_closed q = false ->
    create_connections n i q w =
    match close_all (pool q ++ (Some <$> seq (length (heap w)) (length ks)))
                    (mkWorld (heap w ++ ((fun k => mkClient k 0) <$> ks)) rest)
    with
    | (more, w', Panic) =>
        (mkPool more (pool_cap q) true (maxConn q), w', Panic)
    | (more, w', _) =>
        (mkPool more (pool_cap q) true (maxConn q), w',
         Err (ErrCreateConnection (i + Z.of_nat (length ks))))
    end) as Hgen.
  { clear. induction ks as [|k ks IH]; intros n i q w Hd Hn Hopen.
    - destruct n as [|n]; [simpl in Hn; lia|].
      cbn [create_connections]. unfold NewClient. rewrite Hd.
      cbn [fmap list_fmap app length seq]. unfold Pool_Close. rewrite Hopen.
      rewrite !app_nil_r, Z.add_0_r. cbn [heap].
      by destruct (close_all (pool q) _) as [[more w1] [[]|e|]].
    - destruct n as [|n]; [simpl in Hn; lia|].
      cbn [create_connections]. unfold NewClient. rewrite Hd.
      cbn [fmap list_fmap app].
      rewrite (IH n); [|done|simpl in Hn; lia|done].
      cbn [pool pool_cap pool_closed maxConn heap length seq fmap list_fmap].
      rewrite length_app. cbn [length].
      replace (length (heap w) + 1)%nat with (S (length (heap w))) by lia.
      rewrite <- !app_assoc. cbn [app].
      replace (i + 1 + Z.of_nat (length ks)) with (i + Z.of_nat (S (length ks)))
        by lia.
      done. }
  rewrite (Hgen ks n i p w Hd Hn Hopen), Hempty. cbn [app].
  rewrite <- (length_fmap (fun k => mkClient k 0) ks) at 1.
  by rewrite close_all_new.
Qed.

(** X19.  When one of the dials fails, [NewConnectionPool] returns the
    error that names the number of the failed connection, counted from 0,
    and every client made before it has been closed; no pool is
    returned. *)
Theorem NewConnectionPool_failure (maxConnections : Z) (w : World)
    (ks : list Conn) (rest : list (option Conn))
    (Hdials : dials w = (Some <$> ks) ++ None :: rest)
    (Hn : Z.of_nat (length ks)
          < (if maxConnections <=? 0 then 10 else maxConnections)) :
  NewConnectionPool maxConnections w =
  (mkWorld (heap w ++ (closed_client <$> ((fun k => mkClient k 0) <$> ks))) rest,
   Err (ErrCreateConnection (Z.of_nat (length ks))))
  /\ Forall (fun cl => closed (conn cl) = true)
            (closed_client <$> ((fun k => mkClient k 0) <$> ks)).
Proof.
  split.
  - unfold NewConnectionPool.
    rewrite (create_connections_failure ks _ _ _ _ rest Hdials); [done|lia|done|done].
  - rewrite <- list_fmap_compose. by apply Forall_fmap, Forall_true.
Qed.

Lemma NewConnectionPool_failure_example :
  NewConnectionPool 3
    (mkWorld [] [Some (mkConn [] false []); Some (mkConn [] false []); None])
  = (mkWorld [mkClient (mkConn [] true [EvClose]) 0;
              mkClient (mkConn [] true [EvClose]) 0] [],
     Err (ErrCreateConnection 2)).
Proof.
  refine (proj1 (NewConnectionPool_failure 3
    (mkWorld [] [Some (mkConn [] false []); Some (mkConn [] false []); None])
    [mkConn [] false []; mkConn [] false []] [] eq_refl _)).
  simpl. lia.
Defined.

(** The loop ends without a panic only with the channel drained. *)
Lemma close_all_Ok clients : forall w more w',
  close_all clients w = (more, w', Ok tt) -> more = [].
Proof.
  induction clients as [|client clients IH]; intros w more w' H;
    cbn [close_all] in H.
  - by injection H as <- <-.
  - destruct (Client_Close client w) as [w1|]; [by eapply IH|done].
Qed.

(** Whether it ends or panics, the loop makes and removes no client and
    dials nothing. *)
Lemma close_all_world clients : forall w more w' o,
  close_all clients w = (more, w', o) ->
  length (heap w') = length (heap w) /\ dials w' = dials w.
Proof.
  induction clients as [|client clients IH]; intros w more w' o H;
    cbn [close_all] in H.
  - by injection H as <- <- <-.
  - destruct (Client_Close client w) as [w1|] eqn:E.
    + apply IH in H as [Hl Hd]. unfold Client_Close in E.
      destruct client as [a|]; [|done]. simpl in E.
      destruct (heap w !! a); [|done]. injection E as <-.
      cbn [heap dials] in *. by rewrite length_insert in Hl.
    + by injection H as <- <- <-.
Qed.

Lemma Pool_Close_Ok_inv p w p' w' :
  Pool_Close p w = (p', w', Ok tt) ->
  pool_closed p = false
  /\ p' = mkPool [] (pool_cap p) true (maxConn p)
  /\ close_all (pool p) w = ([], w', Ok tt).
Proof.
  unfold Pool_Close. destruct (pool_closed p); [done|].
  destruct (close_all (pool p) w) as [[more w1] o] eqn:E.
  intros [= <- <- ->]. by rewrite (close_all_Ok _ _ _ _ E).
Qed.

(** At a nil client in the channel [Close] panics: the clients received
    before it have been closed, those behind it stay buffered in the closed
    channel. *)
Lemma Pool_Close_at_nil :
  Pool_Close (mkPool [Some 0%nat; None; Some 1%nat] 3 false 3)
             (mkWorld [mkClient (mkConn [] false []) 0;
                       mkClient (mkConn [] false []) 0] [])
  = (mkPool [Some 1%nat] 3 true 3,
     mkWorld [mkClient (mkConn [] true [EvClose]) 0;
              mkClient (mkConn [] false []) 0] [],
     Panic).
Proof. reflexivity. Qed.

(** X20.  Once [Close] has returned, the pool is empty and stays unusable:
    [Get] returns at once a nil client and no error, [Put] of any client
    panics and so does a second [Close]. *)
Theorem pool_after_Close (p p' : ConnectionPool) (w w' : World)
    (Hclose : Pool_Close p w = (p', w', Ok tt)) :
  pool p' = []
  /\ Get p' w' = (p', w', Ok None)
  /\ (forall client, Put client p' w' = (p', w', Panic))
  /\ Pool_Close p' w' = (p', w', Panic).
Proof.
  apply Pool_Close_Ok_inv in Hclose as (_ & -> & _). done.
Qed.

Lemma pool_after_Close_example :
  pool (mkPool [] 1 true 1) = []
  /\ Get (mkPool [] 1 true 1)
         (mkWorld [mkClient (mkConn [] true [EvClose]) 0] [])
     = (mkPool [] 1 true 1,
        mkWorld [mkClient (mkConn [] true [EvClose]) 0] [], Ok None)
  /\ (forall client,
        Put client (mkPool [] 1 true 1)
            (mkWorld [mkClient (mkConn [] true [EvClose]) 0] [])
        = (mkPool [] 1 true 1,
           mkWorld [mkClient (mkConn [] true [EvClose]) 0] [], Panic))
  /\ Pool_Close (mkPool [] 1 true 1)
                (mkWorld [mkClient (mkConn [] true [EvClose]) 0] [])
     = (mkPool [] 1 true 1,
        mkWorld [mkClient (mkConn [] true [EvClose]) 0] [], Panic).
Proof.
  exact (pool_after_Close (mkPool [Some 0%nat] 1 false 1) _
           (mkWorld [mkClient (mkConn [] false []) 0] []) _ eq_refl).
Defined.

Lemma Client_Close_inv client w w' :
  Client_Close client w = Some w' ->
  exists a cl, client = Some a /\ heap w !! a = Some cl
               /\ w' = mkWorld (<[a := closed_client cl]> (heap w)) (dials w).
Proof.
  unfold Client_Close. destruct client as [a|]; [|done]. simpl.
  destruct (heap w !! a) as [cl|] eqn:E; [|done]. intros [= <-]. eauto.
Qed.

Lemma close_all_spec clients : forall w w',
  close_all clients w = ([], w', Ok tt) ->
  length (heap w') = length (heap w) /\ dials w' = dials w
  /\ (None ∉ clients)
  /\ (forall a, Some a ∈ clients ->
        exists cl, heap w' !! a = Some cl /\ closed (conn cl) = true)
  /\ (forall a, Some a ∉ clients -> heap w' !! a = heap w !! a)
  /\ (forall a cl, heap w !! a = Some cl -> closed (conn cl) = true ->
        exists cl', heap w' !! a = Some cl' /\ closed (conn cl') = true).
Proof.
  induction clients as [|client rest IH]; intros w w' H.
  - injection H as <-. split; [done|]. split; [done|].
    split; [apply not_elem_of_nil|]. split; [|split; [done|eauto]].
    intros a Ha. by apply elem_of_nil in Ha.
  - cbn [close_all] in H.
    destruct (Client_Close client w) as [w1|] eqn:E1; [|done].
    apply Client_Close_inv in E1 as (a0 & cl0 & -> & Hcl0 & ->).
    destruct (IH _ _ H) as (Hl & Hd & Hnil & Hin & Hout & Hkeep).
    cbn [heap dials] in *. rewrite length_insert in Hl.
    assert (a0 < length (heap w))%nat as Hlt by (by eapply lookup_lt_Some).
    split; [done|]. split; [done|]. split.
    { intros Hn. apply elem_of_cons in Hn as [Hn|Hn]; [done|by apply Hnil]. }
    split; [|split].
    + intros a Ha. apply elem_of_cons in Ha as [[= ->]|Ha]; [|by apply Hin].
      apply (Hkeep a0 (closed_client cl0)); [|done].
      by apply list_lookup_insert_eq.
    + intros a Ha. rewrite Hout.
      * apply list_lookup_insert_ne. intros ->. apply Ha, elem_of_cons.
        by left.
      * intros Hr. apply Ha, elem_of_cons. by right.
    + intros a cl Hcl Hclosed. destruct (decide (a = a0)) as [->|Hne].
      * apply (Hkeep a0 (closed_client cl0)); [|done].
        by apply list_lookup_insert_eq.
      * apply (Hkeep a cl); [|done]. by rewrite list_lookup_insert_ne.
Qed.

(** X21.  A [Close] that returns has closed every client that was in the
    channel and has left every other client, those checked out among
    them, as it was; it makes and removes no client. *)
Theorem Pool_Close_closes_buffered (p p' : ConnectionPool) (w w' : World)
    (Hclose : Pool_Close p w = (p', w', Ok tt)) :
  (forall a, Some a ∈ pool p ->
     exists cl, heap w' !! a = Some cl /\ closed (conn cl) = true)
  /\ (forall a, Some a ∉ pool p -> heap w' !! a = heap w !! a)
  /\ length (heap w') = length (heap w).
Proof.
  apply Pool_Close_Ok_inv in Hclose as (_ & _ & H).
  destruct (close_all_spec _ _ _ H) as (Hl & _ & _ & Hin & Hout & _).
  done.
Qed.

Lemma Pool_Close_closes_buffered_example :
  (forall a, Some a ∈ [Some 1%nat] ->
     exists cl,
       [mkClient (mkConn [] false []) 5;
        mkClient (mkConn [] true [EvClose]) 0] !! a = Some cl
       /\ closed (conn cl) = true)
  /\ (forall a, Some a ∉ [Some 1%nat] ->
        [mkClient (mkConn [] false []) 5;
         mkClient (mkConn [] true [EvClose]) 0] !! a
        = [mkClient (mkConn [] false []) 5;
           mkClient (mkConn [] false []) 0] !! a)
  /\ length [mkClient (mkConn [] false []) 5;
             mkClient (mkConn [] true [EvClose]) 0]
     = length [mkClient (mkConn [] false []) 5;
               mkClient (mkConn [] false []) 0].
Proof.
  exact (Pool_Close_closes_buffered (mkPool [Some 1%nat] 2 false 2) _
           (mkWorld [mkClient (mkConn [] false []) 5;
                     mkClient (mkConn [] false []) 0] []) _ eq_refl).
Defined.

Lemma pool_step_world s s' :
  pool_step s s' ->
  length (heap s'.2) = length (heap s.2) /\ dials s'.2 = dials s.2.
Proof.
  intros [p w p' w' o H|client p w p' w' o H|p w p' w' o H]; simpl.
  - unfold Get in H. destruct (pool p); [destruct (pool_closed p)|];
      by injection H as <- <- <-.
  - unfold Put in H. destruct (pool_closed p); [by injection H as <- <- <-|].
    destruct (decide _); [by injection H as <- <- <-|].
    destruct (Client_Close client w) as [w1|] eqn:E;
      injection H as <- <- <-; [|done].
    apply Client_Close_inv in E as (a & cl & _ & _ & ->). simpl.
    by rewrite length_insert.
  - unfold Pool_Close in H. destruct (pool_closed p);
      [by injection H as <- <- <-|].
    destruct (close_all (pool p) w) as [[more w1] o1] eqn:E.
    injection H as <- <- <-. by eapply close_all_world.
Qed.

(** X22.  However [Get], [Put] and [Close] are called on a pool, no
    connection is dialled and no client is made or removed: the clients in
    existence stay those made when the pool was created. *)
Theorem pool_calls_never_connect (s s' : ConnectionPool * World)
    (Hcalls : rtc pool_step s s') :
  length (heap s'.2) = length (heap s.2) /\ dials s'.2 = dials s.2.
Proof.
  induction Hcalls as [s|s1 s2 s3 Hstep _ IH]; [done|].
  destruct (pool_step_world _ _ Hstep) as [H1 H2].
  destruct IH as [H3 H4]. split; congruence.
Qed.

Lemma pool_calls_never_connect_example :
  length [mkClient (mkConn [] false []) 0] = 1%nat
  /\ @nil (option Conn) = [].
Proof.
  exact (pool_calls_never_connect
    (mkPool [Some 0%nat] 1 false 1, mkWorld [mkClient (mkConn [] false []) 0] [])
    (mkPool [] 1 false 1, mkWorld [mkClient (mkConn [] false []) 0] [])
    (rtc_once _ _
       (step_Get (mkPool [Some 0%nat] 1 false 1)
          (mkWorld [mkClient (mkConn [] false []) 0] [])
          (mkPool [] 1 false 1)
          (mkWorld [mkClient (mkConn [] false []) 0] [])
          (Ok (Some 0%nat)) eq_refl))).
Defined.

(** X23.  On an open pool that holds no more clients than its capacity,
    [Get] hands out the client at the head of the channel, and putting
    that client back appends it behind the others: nothing is closed and
    the world is as before.  On an open pool whose channel is empty [Get]
    fails with the timeout error and changes nothing. *)
Theorem Get_then_Put (p : ConnectionPool) (w : World) (client : ptr)
    (rest : list ptr)
    (Hopen : pool_closed p = false) (Hcap : within_capacity p)
    (Hqueue : pool p = client :: rest) :
  Get p w = (mkPool rest (pool_cap p) false (maxConn p), w, Ok client)
  /\ Put client (mkPool rest (pool_cap p) false (maxConn p)) w
     = (mkPool (rest ++ [client]) (pool_cap p) false (maxConn p), w, Ok tt)
  /\ Get (mkPool [] (pool_cap p) false (maxConn p)) w
     = (mkPool [] (pool_cap p) false (maxConn p), w, Err ErrWaitTimeout).
Proof.
  unfold within_capacity in Hcap. rewrite Hqueue in Hcap. simpl in Hcap.
  split; [|split; [|done]].
  - unfold Get. by rewrite Hqueue, Hopen.
  - unfold Put. cbn [pool_closed pool pool_cap]. by rewrite decide_True by lia.
Qed.

Lemma Get_then_Put_example :
  Get (mkPool [Some 0%nat; Some 1%nat] 2 false 2) (mkWorld [] [])
  = (mkPool [Some 1%nat] 2 false 2, mkWorld [] [], Ok (Some 0%nat))
  /\ Put (Some 0%nat) (mkPool [Some 1%nat] 2 false 2) (mkWorld [] [])
     = (mkPool [Some 1%nat; Some 0%nat] 2 false 2, mkWorld [] [], Ok tt)
  /\ Get (mkPool [] 2 false 2) (mkWorld [] [])
     = (mkPool [] 2 false 2, mkWorld [] [], Err ErrWaitTimeout).
Proof.
  refine (Get_then_Put (mkPool [Some 0%nat; Some 1%nat] 2 false 2)
            (mkWorld [] []) (Some 0%nat) [Some 1%nat] eq_refl _ eq_refl).
  unfold within_capacity. simpl. lia.
Defined.

(** * Timeouts, the float helpers and the error message *)

Lemma conn_Read_empty n k :
  closed k = false -> n <> 0%nat -> incoming k = [] ->
  conn_Read n k = (log (EvRead n) k, ([], false)).
Proof.
  intros Hopen Hn Hin. unfold conn_Read. rewrite Hopen, Hin.
  by rewrite decide_False.
Qed.

(** X24.  Once the frame has been written, that is on an open connection
    on which [Write] has reported no error for the frame: if nothing
    arrives, the exchange fails on the read of the header, and if the
    header arrives, with the id sent and a length field of 2 or more, but
    nothing after it, the exchange fails on the read of the PDU.  Both are
    Transport errors. *)
Theorem exchange_timeouts (slaveID : Z) (pdu : list Z) (c : Client)
    (Hopen : closed (conn c) = false)
    (Hwrite : (conn_Write
                 (frame ((transactionID c + 1) mod 65536) slaveID pdu)
                 (conn_SetWriteDeadline (conn c)).1).2 = true) :
  (incoming (conn c) = [] ->
   sendRequest slaveID pdu c =
   (mkClient
      (mkConn [] false
         (trace (conn c)
          ++ [EvSetWriteDeadline;
              EvWrite (frame ((transactionID c + 1) mod 65536) slaveID pdu);
              EvSetReadDeadline; EvRead 7]))
      ((transactionID c + 1) mod 65536),
    Err ErrReadHeader))
  /\ (forall p0 p1 len unitID,
        2 <= len < 65536 ->
        incoming (conn c) =
          [[byte_of (Z.shiftr ((transactionID c + 1) mod 65536) 8);
            byte_of ((transactionID c + 1) mod 65536); p0; p1;
            byte_of (Z.shiftr len 8); byte_of len; unitID]] ->
        sendRequest slaveID pdu c =
        (mkClient
           (mkConn [] false
              (trace (conn c)
               ++ [EvSetWriteDeadline;
                   EvWrite (frame ((transactionID c + 1) mod 65536) slaveID pdu);
                   EvSetReadDeadline; EvRead 7; EvRead (Z.to_nat (len - 1))]))
           ((transactionID c + 1) mod 65536),
         Err ErrReadData))
  /\ kind_of ErrReadHeader = Transport /\ kind_of ErrReadData = Transport.
Proof.
  split; [|split; [|done]].
  - intros Hin. rewrite sendRequest_open by done.
    unfold receive. rewrite on_conn_bind.
    rewrite conn_Read_empty by done. cbn [fst snd negb]. rewrite reject_bind.
    unfold sent, log. cbn [trace conn incoming closed]. rewrite Hin, Hopen.
    by rewrite <- !app_assoc.
  - intros p0 p1 len unitID Hlen Hin. rewrite sendRequest_open by done.
    fold (uint16_of (transactionID c + 1)) in *.
    set (tid := uint16_of (transactionID c + 1)) in *.
    unfold receive. rewrite on_conn_bind.
    rewrite (conn_Read_header _ _ _ _ _ _ _ []) by done.
    cbn [fst snd negb]. run_M. change (filled 7 ?h) with h.
    unfold Uint16 at 1. cbn [lookup list_lookup mbind option_bind].
    rewrite word_of_bytes by apply uint16_of_range. run_M.
    rewrite Z.eqb_refl. cbn [negb]. run_M.
    unfold dataLength, Uint16. cbn [lookup list_lookup mbind option_bind].
    rewrite word_of_bytes by (unfold is_uint16; lia).
    rewrite uint16_of_small by (unfold is_uint16; lia). run_M.
    cbn [conn]. rewrite conn_Read_empty by (done || lia).
    cbn [fst snd negb]. rewrite reject_bind.
    unfold sent, log. cbn [trace conn incoming closed].
    rewrite <- !app_assoc. by rewrite ?Hopen.
Qed.

Lemma exchange_timeouts_example :
  sendRequest 1 [3; 0; 0; 0; 5] fresh_client
  = (mkClient
       (mkConn [] false
          [EvSetWriteDeadline; EvWrite [0; 1; 0; 0; 0; 6; 1; 3; 0; 0; 0; 5];
           EvSetReadDeadline; EvRead 7]) 1,
     Err ErrReadHeader).
Proof.
  exact (proj1 (exchange_timeouts 1 [3; 0; 0; 0; 5] fresh_client
                  eq_refl eq_refl)
           eq_refl).
Defined.

Lemma join_halves hi lo :
  is_uint16 hi -> is_uint16 lo ->
  Z.lor (uint32_of (Z.shiftl (uint32_of hi) 16)) (uint32_of lo)
  = hi * 65536 + lo.
Proof.
  unfold is_uint16, uint32_of. intros Hhi Hlo.
  rewrite (Z.mod_small hi), (Z.mod_small lo) by lia.
  rewrite Z.shiftl_mul_pow2 by lia. change (2 ^ 16) with 65536.
  rewrite Z.mod_small by lia.
  rewrite <- Z.add_nocarry_lor; [done|].
  apply Z.bits_inj'. intros n Hn. rewrite Z.land_spec, Z.bits_0.
  destruct (decide (n < 16)).
  - change (hi * 65536) with (hi * 2 ^ 16).
    by rewrite Z.mul_pow2_bits_low by lia.
  - replace lo with (lo mod 2 ^ 16) by (apply Z.mod_small; lia).
    rewrite Z.mod_pow2_bits_high by lia. apply andb_false_r.
Qed.

Section FloatWords.

Local Ltac Zify.zify_post_hook ::= Z.to_euclidean_division_equations.

Lemma float_halves bits :
  is_uint32 bits ->
  uint16_of (Z.shiftr bits 16) = bits / 65536
  /\ uint16_of (Z.land bits 0xFFFF) = bits mod 65536.
Proof.
  unfold is_uint32, uint16_of. intros Hb.
  rewrite Z.shiftr_div_pow2 by lia. change (2 ^ 16) with 65536.
  change 0xFFFF with (Z.ones 16). rewrite Z.land_ones by lia.
  change (2 ^ 16) with 65536. split; lia.
Qed.

(** X25.  For either byte order, the two registers [WriteFloat32] makes of
    the 32 bits of a value are 16-bit words, and joined again as
    [ReadFloat32] joins the registers it read, under the same byte order,
    they give the same 32 bits. *)
Theorem float_round_trip (bits : Z) (byteOrder : string)
    (Hbits : is_uint32 bits)
    (Horder : byteOrder = "big"%string \/ byteOrder = "little"%string) :
  exists registers,
    float_words bits byteOrder = Ordered registers
    /\ length registers = 2%nat
    /\ Forall is_uint16 registers
    /\ float_bits registers byteOrder = Some (Ordered bits).
Proof.
  destruct (float_halves bits Hbits) as [Hhi Hlo].
  assert (is_uint16 (bits / 65536)) as H1 by (unfold is_uint16, is_uint32 in *; lia).
  assert (is_uint16 (bits mod 65536)) as H2 by (unfold is_uint16; lia).
  destruct Horder as [-> | ->]; unfold float_words, float_bits;
    cbn [String.eqb Ascii.eqb Bool.eqb]; rewrite Hhi, Hlo;
    eexists; (split; [reflexivity|]); (split; [done|]);
    (split; [do 2 (constructor; [done|]); constructor|]);
    cbn [lookup list_lookup mbind option_bind];
    rewrite join_halves by done; do 2 f_equal; lia.
Qed.

Lemma float_round_trip_example :
  exists registers,
    float_words 0x40490FDB "little" = Ordered registers
    /\ length registers = 2%nat
    /\ Forall is_uint16 registers
    /\ float_bits registers "little" = Some (Ordered 0x40490FDB).
Proof.
  refine (float_round_trip 0x40490FDB "little" _ _).
  - unfold is_uint32. lia.
  - by right.
Defined.

End FloatWords.

Lemma float_bits_invalid registers byteOrder :
  byteOrder <> "big"%string -> byteOrder <> "little"%string ->
  float_bits registers byteOrder = Some (InvalidByteOrder byteOrder).
Proof.
  intros Hb Hl. unfold float_bits.
  destruct (String.eqb_spec byteOrder "big"); [done|].
  by destruct (String.eqb_spec byteOrder "little").
Qed.

(** X26.  With a byte order other than "big" and "little" [WriteFloat32]
    returns the error at once and leaves the client untouched, whereas
    [ReadFloat32] first reads the two holding registers, sending its
    request on an open connection, and only then, if the read succeeded,
    returns the error; it returns no value. *)
Theorem float_invalid_byte_order (slaveID address bits : Z)
    (byteOrder : string) (c : Client)
    (Hbig : byteOrder <> "big"%string)
    (Hlittle : byteOrder <> "little"%string)
    (Hopen : closed (conn c) = false) :
  WriteFloat32 slaveID address bits byteOrder c
  = (c, Ok (InvalidByteOrder byteOrder))
  /\ written (conn (ReadFloat32 slaveID address byteOrder c).1)
     = written (conn c)
       ++ [frame ((transactionID c + 1) mod 65536) slaveID
             [FuncCodeReadHoldingRegisters; byte_of (Z.shiftr address 8);
              byte_of address; 0; 2]]
  /\ (forall v, (ReadFloat32 slaveID address byteOrder c).2 <> Ok (Ordered v)).
Proof.
  split; [|split].
  - unfold WriteFloat32, float_words.
    destruct (String.eqb_spec byteOrder "big"); [done|].
    by destruct (String.eqb_spec byteOrder "little").
  - unfold ReadFloat32. rewrite bind_fst by (intros; apply pure_checked).
    unfold ReadHoldingRegisters.
    rewrite (read_registers_client _ _ _ _ _
               [FuncCodeReadHoldingRegisters; byte_of (Z.shiftr address 8);
                byte_of address; 0; 2]) by done.
    by apply sendRequest_written.
  - intros v. unfold ReadFloat32, mbind, M_bind.
    destruct (ReadHoldingRegisters slaveID address 2 c) as [c' [r|e|]];
      [|done|done].
    by rewrite float_bits_invalid.
Qed.

Lemma float_invalid_byte_order_example :
  WriteFloat32 1 0 0x40490FDB "middle" fresh_client
  = (fresh_client, Ok (InvalidByteOrder "middle"))
  /\ written (conn (ReadFloat32 1 0 "middle" fresh_client).1)
     = written (conn fresh_client)
       ++ [frame (1 mod 65536) 1 [3; 0; 0; 0; 2]]
  /\ (forall v, (ReadFloat32 1 0 "middle" fresh_client).2 <> Ok (Ordered v)).
Proof.
  exact (float_invalid_byte_order 1 0 0x40490FDB "middle" fresh_client
           ltac:(done) ltac:(done) eq_refl).
Defined.

(** X27.  When the device answers the read of [ReadFloat32] with the two
    registers w0 and w1, the bits returned are w0 in the high half and w1
    in the low half under the byte order "big", and the other way round
    under "little". *)
Theorem ReadFloat32_joins_registers (slaveID address w0 w1 r0 : Z)
    (c c' : Client)
    (Hw0 : is_uint16 w0) (Hw1 : is_uint16 w1)
    (Hsend : sendRequest slaveID
               [FuncCodeReadHoldingRegisters; byte_of (Z.shiftr address 8);
                byte_of address; 0; 2] c
             = (c', Ok (r0 :: 4 :: register_bytes [w0; w1]))) :
  ReadFloat32 slaveID address "big" c = (c', Ok (Ordered (w0 * 65536 + w1)))
  /\ ReadFloat32 slaveID address "little" c
     = (c', Ok (Ordered (w1 * 65536 + w0))).
Proof.
  assert (ReadHoldingRegisters slaveID address 2 c = (c', Ok [w0; w1])) as H.
  { unfold ReadHoldingRegisters.
    assert (1 <= 2 <= 125) as Hq by lia.
    rewrite (read_registers_response FuncCodeReadHoldingRegisters slaveID
               address 2 c c' _ Hq Hsend).
    cbn [register_bytes flat_map app length]. run_M.
    replace (Z.of_nat 6 <? 2) with false by done. run_M.
    change ((r0 :: 4 :: ?l) !! 1%nat) with (Some 4). run_M.
    replace (negb (4 =? byte_of (uint16_of (2 * 2)))
             || negb (Z.of_nat 6 =? byte_of (2 + 4))) with false by done.
    run_M.
    pose proof (unpack_register_bytes r0 4 [w0; w1]) as Hu.
    cbn [register_bytes flat_map app length] in Hu.
    change (Z.to_nat 2) with 2%nat. rewrite Hu; [done|].
    by repeat (constructor; [done|]). }
  unfold ReadFloat32, mbind, M_bind. rewrite H.
  unfold float_bits. cbn [String.eqb Ascii.eqb Bool.eqb].
  cbn [lookup list_lookup mbind option_bind].
  by rewrite !join_halves by done.
Qed.

Lemma ReadFloat32_joins_registers_example :
  ReadFloat32 1 0 "big"
    (mkClient (mkConn [[0; 1; 0; 0; 0; 7; 1]; [3; 4; 0x40; 0x49; 0x0F; 0xDB]]
                      false []) 0)
  = (mkClient
       (mkConn [] false
          [EvSetWriteDeadline; EvWrite [0; 1; 0; 0; 0; 6; 1; 3; 0; 0; 0; 2];
           EvSetReadDeadline; EvRead 7; EvRead 6]) 1,
     Ok (Ordered (0x4049 * 65536 + 0x0FDB))).
Proof.
  refine (proj1 (ReadFloat32_joins_registers 1 0 0x4049 0x0FDB 3
    (mkClient (mkConn [[0; 1; 0; 0; 0; 7; 1]; [3; 4; 0x40; 0x49; 0x0F; 0xDB]]
                      false []) 0) _ _ _ eq_refl));
    unfold is_uint16; lia.
Defined.

Lemma hex_digit_inj m n :
  0 <= m < 16 -> 0 <= n < 16 -> hex_digit m = hex_digit n -> m = n.
Proof.
  intros Hm Hn.
  assert (forall k, 0 <= k < 16 ->
            k = 0 \/ k = 1 \/ k = 2 \/ k = 3 \/ k = 4 \/ k = 5 \/ k = 6 \/ k = 7
            \/ k = 8 \/ k = 9 \/ k = 10 \/ k = 11 \/ k = 12 \/ k = 13
            \/ k = 14 \/ k = 15) as Hcases by (intros; lia).
  destruct (Hcases m Hm) as [->|[->|[->|[->|[->|[->|[->|[->|[->|[->|[->|[->|
    [->|[->|[->| ->]]]]]]]]]]]]]]];
  destruct (Hcases n Hn) as [->|[->|[->|[->|[->|[->|[->|[->|[->|[->|[->|[->|
    [->|[->|[->| ->]]]]]]]]]]]]]]]; (done || (intros [=])).
Qed.

Section ErrorMessage.

Local Ltac Zify.zify_post_hook ::= Z.to_euclidean_division_equations.

Lemma hex2_inj a b : is_byte a -> is_byte b -> hex2 a = hex2 b -> a = b.
Proof.
  unfold is_byte, hex2. intros Ha Hb [= H1 H2].
  apply hex_digit_inj in H1; [|lia|lia].
  apply hex_digit_inj in H2; [|lia|lia]. lia.
Qed.

(** X28.  The message of a Modbus exception determines its function code
    and its exception code: different codes give different messages.  The
    codes are printed as two hexadecimal digits in upper case. *)
Theorem ModbusError_Error_injective (f1 e1 f2 e2 : Z)
    (Hf1 : is_byte f1) (He1 : is_byte e1)
    (Hf2 : is_byte f2) (He2 : is_byte e2)
    (Hmsg : ModbusError_Error f1 e1 = ModbusError_Error f2 e2) :
  f1 = f2 /\ e1 = e2.
Proof.
  unfold ModbusError_Error in Hmsg. cbn [String.append] in Hmsg.
  injection Hmsg as Hf Hf' He He'. split.
  - apply hex2_inj; [done|done|]. unfold hex2. by rewrite Hf, Hf'.
  - apply hex2_inj; [done|done|]. unfold hex2. by rewrite He, He'.
Qed.

End ErrorMessage.

Lemma ModbusError_Error_injective_example :
  0x83 = 0x83 /\ 0x0B = 0x0B.
Proof.
  refine (ModbusError_Error_injective 0x83 0x0B 0x83 0x0B _ _ _ _ eq_refl);
    unfold is_byte; lia.
Defined.

(** The messages the tests expect. *)
Example ModbusError_Error_tests :
  ModbusError_Error 0x03 0x02
  = "Modbus exception: function=0x03, exception=0x02"%string
  /\ ModbusError_Error 0x04 0x02
     = "Modbus exception: function=0x04, exception=0x02"%string
  /\ ModbusError_Error 0x8F 0xAB
     = "Modbus exception: function=0x8F, exception=0xAB"%string.
Proof. repeat split. Qed.
